(** * smallsh: a shallow embedding of the job-control core of [smallsh.c]

    The development follows the source file top to bottom: the wait-status
    macros the shell relies on, the terminal-stop handler, the child and
    parent halves of [executeCommand], the three built-ins, [parseInput],
    [expandPID] and one turn of the loop of [main].

    Integers of the C program are [Z]; C strings are [string]; a pointer
    that may be [NULL] is an [option]; the operating system is a set of
    oracles (Section variables and the fields of [env]) whose answers are
    recorded, call by call, in a trace. *)

From Stdlib Require Import ZArith List String Ascii Bool Lia DecimalString.
Import ListNotations.
Local Open Scope string_scope.
Local Open Scope list_scope.
Local Open Scope Z_scope.

(** Concatenation of C strings, kept apart from the [++] of lists. *)
Infix "+++" := String.append (right associativity, at level 60).

(** ** Limits and constants of the source *)

Definition MAX_LENGTH : nat := 2048.
Definition MAX_ARGS : nat := 512.

Definition STDIN_FILENO : Z := 0.
Definition STDOUT_FILENO : Z := 1.
Definition EXIT_FAILURE : Z := 1.

(** Signal numbers and [open] flags as <signal.h> and <fcntl.h> give them
    on Linux. *)
Definition SIGINT : Z := 2.
Definition SIGTSTP : Z := 20.
Definition O_RDONLY : Z := 0.
Definition O_WRONLY : Z := 1.
Definition O_ACCMODE : Z := 3.
Definition O_CREAT : Z := 64.
Definition O_TRUNC : Z := 512.

(** The octal literal [0644]. *)
Definition MODE_0644 : Z := 6 * 64 + 4 * 8 + 4.

(** ** Wait-status macros of <sys/wait.h> (glibc's bits/waitstatus.h) *)

Module WaitStatus.

(** The conversion [(signed char) x] of an [int]. *)
Definition to_schar (x : Z) : Z :=
  let y := x mod 256 in if y <? 128 then y else y - 256.

(** [WTERMSIG(s) = s & 0x7f] *)
Definition WTERMSIG (s : Z) : Z := Z.land s 127.

(** [WEXITSTATUS(s) = (s & 0xff00) >> 8] *)
Definition WEXITSTATUS (s : Z) : Z := Z.shiftr (Z.land s 65280) 8.

(** [WIFEXITED(s) = (WTERMSIG(s) == 0)] *)
Definition WIFEXITED (s : Z) : bool := WTERMSIG s =? 0.

(** [WIFSIGNALED(s) = (((signed char) ((s & 0x7f) + 1) >> 1) > 0)] *)
Definition WIFSIGNALED (s : Z) : bool :=
  0 <? Z.shiftr (to_schar (Z.land s 127 + 1)) 1.

(** [WIFSTOPPED(s) = ((s & 0xff) == 0x7f)] *)
Definition WIFSTOPPED (s : Z) : bool := Z.land s 255 =? 127.

(** The loop condition of the foreground wait, negated: the status a
    foreground wait may stop on. *)
Definition terminal (s : Z) : bool := WIFEXITED s || WIFSIGNALED s.

(** Encodings, for building test inputs: [W_EXITCODE] and [W_STOPCODE]. *)
Definition W_EXITCODE (ret sig : Z) : Z := Z.lor (Z.shiftl ret 8) sig.
Definition W_STOPCODE (sig : Z) : Z := Z.lor (Z.shiftl sig 8) 127.

End WaitStatus.
Import WaitStatus.

(** ** Text helpers *)

Definition nl : string := String (ascii_of_nat 10) EmptyString.

(** [printf("%d", n)] *)
Definition fmt_d (n : Z) : string := NilZero.string_of_int (Z.to_int n).

(** [strcmp(a, b) == 0] *)
Definition streq (a b : string) : bool := String.eqb a b.

(** [strstr(hay, needle)]: offset of the first occurrence, [None] for NULL. *)
Fixpoint strstr (hay needle : string) : option nat :=
  if prefix needle hay then Some 0%nat
  else match hay with
       | EmptyString => None
       | String _ t => option_map S (strstr t needle)
       end.

(** The string [s + k]. *)
Fixpoint skipn_str (k : nat) (s : string) : string :=
  match k, s with
  | O, _ => s
  | S k', String _ t => skipn_str k' t
  | S _, EmptyString => EmptyString
  end.

(** The string left in [s] after [s[k] = '\0']. *)
Fixpoint firstn_str (k : nat) (s : string) : string :=
  match k, s with
  | O, _ => EmptyString
  | S k', String c t => String c (firstn_str k' t)
  | S _, EmptyString => EmptyString
  end.

(** [input[strcspn(input, "\n")] = 0] *)
Fixpoint chomp (s : string) : string :=
  match s with
  | EmptyString => EmptyString
  | String c t => if Ascii.eqb c (ascii_of_nat 10) then EmptyString
                  else String c (chomp t)
  end.

(** ** The shell process *)

(** What the shell process does to the outside, in order. *)
Inductive event :=
| EvPrintf (text : string)              (* printf on stdout *)
| EvFflush                              (* fflush(stdout) *)
| EvStderr (text : string)              (* fprintf(stderr, ...) *)
| EvWrite (fd : Z) (bytes : string)     (* write(fd, buf, n) *)
| EvPerror (tag : string)               (* perror(tag) *)
| EvFork (ret : Z)                      (* fork() and what it returned *)
| EvWaitpid (pid : Z) (status : Z)      (* waitpid(pid, &status, WUNTRACED) *)
| EvChdir (path : option string) (ret : Z).

(** The globals: [last_status], the static [is_foreground_only] of the
    handler, and the output so far. *)
Record shell := mkShell {
  last_status : Z;
  is_foreground_only : bool;
  out : list event
}.

Definition emit (e : event) (s : shell) : shell :=
  mkShell (last_status s) (is_foreground_only s) (out s ++ [e]).

Definition set_last_status (v : Z) (s : shell) : shell :=
  mkShell v (is_foreground_only s) (out s).

(** [int last_status = 0;] and [static int is_foreground_only = 0;] *)
Definition initial_shell : shell := mkShell 0 false [].

(** *** Signal handlers *)

Definition handleSIGINT (s : shell) : shell := s.

Definition entering_banner : string :=
  nl +++ "Entering foreground-only mode (& is now ignored)" +++ nl.
Definition exiting_banner : string :=
  nl +++ "Exiting foreground-only mode" +++ nl.

(** [write(fd, message, n)] sends the first [n] bytes of [message]. *)
Definition sys_write (fd : Z) (message : string) (n : nat) (s : shell) : shell :=
  emit (EvWrite fd (firstn_str n message)) s.

Definition handleSIGTSTP (s : shell) : shell :=
  let s1 := mkShell (last_status s) (negb (is_foreground_only s)) (out s) in
  if is_foreground_only s1
  then sys_write STDOUT_FILENO entering_banner 50 s1
  else sys_write STDOUT_FILENO exiting_banner 30 s1.

(** ** The child side of [executeCommand] *)

Inductive disposition := SIG_IGN | SIG_DFL.

(** The calls a child makes between [fork] and the end of its life in this
    program, each with the value it returned where the code looks at it. *)
Inductive syscall :=
| SysSignal (signo : Z) (d : disposition)
| SysOpen (path : option string) (flags : Z) (mode : option Z) (ret : Z)
| SysDup2 (oldfd newfd : Z)
| SysClose (fd : Z)
| SysPerror (tag : string)
| SysExit (code : Z)
| SysExecvp (file : option string) (argv : list string).

(** How the child stops being this program. *)
Inductive child_end :=
| Exited (code : Z)                               (* exit(code) *)
| Executed (file : string) (argv : list string)   (* execvp took over *)
| Faulted.                                        (* NULL handed to execvp *)

(** The child's copy of [args] and the locals of [executeCommand]. *)
Record child := mkChild {
  args : list (option string);
  in_redir : Z;
  out_redir : Z;
  nopen : nat;              (* how many times open() was called *)
  trace : list syscall
}.

(** The argument vector [execvp] reads: the cells before the first NULL. *)
Fixpoint argv_of (a : list (option string)) : list string :=
  match a with
  | Some t :: rest => t :: argv_of rest
  | _ => []
  end.

(** [a[i] = v]; a store outside the array is not modelled and leaves it
    alone. *)
Fixpoint store {A} (i : nat) (v : A) (a : list A) : list A :=
  match a, i with
  | [], _ => []
  | _ :: rest, O => v :: rest
  | x :: rest, S i' => x :: store i' v rest
  end.

(** An array that holds a list of tokens: the tokens, then NULL, then
    whatever the cells after it hold ([junk]). *)
Definition args_then (toks : list string) (junk : list (option string))
  : list (option string) :=
  map Some toks ++ None :: junk.

(** The array as [parseInput] fills it, up to its closing NULL. *)
Definition args_of (toks : list string) : list (option string) :=
  args_then toks [].

Module ChildMonad.

(** A computation in the child either goes on with a value or stops the
    process. *)
Definition M (A : Type) : Type := child -> (A + child_end) * child.

Definition ret {A} (a : A) : M A := fun c => (inl a, c).

Definition bind {A B} (m : M A) (k : A -> M B) : M B :=
  fun c => match m c with
           | (inl a, c') => k a c'
           | (inr e, c') => (inr e, c')
           end.

Definition stop {A} (e : child_end) : M A := fun c => (inr e, c).

Definition log (e : syscall) : M unit :=
  fun c => (inl tt, mkChild (args c) (in_redir c) (out_redir c) (nopen c)
                            (trace c ++ [e])).

Definition get_arg (i : nat) : M (option string) :=
  fun c => (inl (nth i (args c) None), c).

Definition get_args : M (list (option string)) := fun c => (inl (args c), c).

Definition set_arg (i : nat) (v : option string) : M unit :=
  fun c => (inl tt, mkChild (store i v (args c)) (in_redir c) (out_redir c)
                            (nopen c) (trace c)).

Definition get_in_redir : M Z := fun c => (inl (in_redir c), c).
Definition get_out_redir : M Z := fun c => (inl (out_redir c), c).

Definition set_in_redir (v : Z) : M unit :=
  fun c => (inl tt, mkChild (args c) v (out_redir c) (nopen c) (trace c)).

Definition set_out_redir (v : Z) : M unit :=
  fun c => (inl tt, mkChild (args c) (in_redir c) v (nopen c) (trace c)).

Definition tick_open : M nat :=
  fun c => (inl (nopen c), mkChild (args c) (in_redir c) (out_redir c)
                                   (S (nopen c)) (trace c)).

End ChildMonad.
Import ChildMonad.

Notation "x <- m ;; k" := (bind m (fun x => k))
  (at level 61, m at next level, right associativity).
Notation "m ;;; k" := (bind m (fun _ => k))
  (at level 61, right associativity).

Section Child.

(** The kernel as the child sees it: what the [n]-th call of [open]
    returns for its arguments ([-1] on failure), and whether [execvp]
    finds something to run. *)
Variable open_ret : nat -> option string -> Z -> Z.
Variable exec_ok : string -> list string -> bool.

Definition signal (signo : Z) (d : disposition) : M unit :=
  log (SysSignal signo d).

Definition open (path : option string) (flags : Z) (mode : option Z) : M Z :=
  n <- tick_open ;;
  let r := open_ret n path flags in
  log (SysOpen path flags mode r) ;;;
  ret r.

Definition dup2 (oldfd newfd : Z) : M unit := log (SysDup2 oldfd newfd).
Definition close (fd : Z) : M unit := log (SysClose fd).
Definition perror (tag : string) : M unit := log (SysPerror tag).

Definition exit {A} (code : Z) : M A :=
  log (SysExit code) ;;; stop (Exited code).

(** [execvp(file, argv)] comes back only to report failure. *)
Definition execvp (file : option string) (a : list (option string)) : M Z :=
  log (SysExecvp file (argv_of a)) ;;;
  match file with
  | None => stop Faulted
  | Some f => if exec_ok f (argv_of a) then stop (Executed f (argv_of a))
              else ret (-1)
  end.

(** The body of the redirection loop at index [i], where [tok] is the
    non-NULL [args[i]]. *)
Definition redirect_body (i : nat) (tok : string) : M unit :=
  if streq tok "<" then
    path <- get_arg (i + 1) ;;
    fd <- open path O_RDONLY None ;;
    set_in_redir fd ;;;
    (if fd =? -1 then perror "smallsh" ;;; exit EXIT_FAILURE else ret tt) ;;;
    dup2 fd STDIN_FILENO ;;;
    close fd ;;;
    set_arg i None
  else if streq tok ">" then
    path <- get_arg (i + 1) ;;
    fd <- open path (Z.lor (Z.lor O_WRONLY O_CREAT) O_TRUNC) (Some MODE_0644) ;;
    set_out_redir fd ;;;
    (if fd =? -1 then perror "smallsh" ;;; exit EXIT_FAILURE else ret tt) ;;;
    dup2 fd STDOUT_FILENO ;;;
    close fd ;;;
    set_arg i None
  else ret tt.

(** [for (int i = 0; args[i] != NULL; i++) ...], with [fuel] bounding the
    number of turns; [false] reports that the bound was hit first. *)
Fixpoint redirect_loop (fuel : nat) (i : nat) : M bool :=
  match fuel with
  | O => ret false
  | S fuel' =>
      a <- get_arg i ;;
      match a with
      | None => ret true
      | Some tok => redirect_body i tok ;;; redirect_loop fuel' (S i)
      end
  end.

(** The [/dev/null] defaults of a background child. *)
Definition background_defaults : M unit :=
  inr_ <- get_in_redir ;;
  (if inr_ =? -1 then
     devNullIn <- open (Some "/dev/null") O_RDONLY None ;;
     (if devNullIn =? -1 then perror "smallsh" ;;; exit EXIT_FAILURE
      else ret tt) ;;;
     dup2 devNullIn STDIN_FILENO ;;;
     close devNullIn
   else ret tt) ;;;
  outr <- get_out_redir ;;
  (if outr =? -1 then
     devNullOut <- open (Some "/dev/null") O_WRONLY None ;;
     (if devNullOut =? -1 then perror "smallsh" ;;; exit EXIT_FAILURE
      else ret tt) ;;;
     dup2 devNullOut STDOUT_FILENO ;;;
     close devNullOut
   else ret tt).

(** The branch [pid == 0] of [executeCommand]. The result [inl] would be
    a child that falls out of the branch and returns to [main]. *)
Definition child_branch (is_background : bool) : M bool :=
  (if is_background then
     signal SIGINT SIG_IGN ;;; signal SIGTSTP SIG_IGN
   else
     signal SIGINT SIG_DFL ;;; signal SIGTSTP SIG_IGN) ;;;
  a <- get_args ;;
  done <- redirect_loop (List.length a) 0 ;;
  (if is_background then background_defaults else ret tt) ;;;
  a0 <- get_arg 0 ;;
  a' <- get_args ;;
  r <- execvp a0 a' ;;
  (if r =? -1 then perror "smallsh" ;;; exit EXIT_FAILURE else ret tt) ;;;
  ret done.

(** The child of an invocation: its locals start as the source
    initialises them ([in_redir = -1, out_redir = -1]). *)
Definition fresh_child (a : list (option string)) : child :=
  mkChild a (-1) (-1) 0 [].

Definition run_child (a : list (option string)) (is_background : bool)
  : (bool + child_end) * child :=
  child_branch is_background (fresh_child a).

End Child.

(** ** The parent side: wait, built-ins, parsing, expansion, the loop *)

(** What the operating system answers during one turn of the loop of
    [main]. *)
Record env := mkEnv {
  reaped : list (Z * Z);      (* the positive results of
                                 waitpid(-1, &status, WNOHANG), in order,
                                 each with the status it stored *)
  fgets_ret : option string;  (* the buffer after fgets; None for NULL *)
  getpid : Z;
  fork_ret : Z;
  wait_reports : list Z;      (* the statuses that the successive calls
                                 waitpid(pid, &status, WUNTRACED) store *)
  getenv_HOME : option string;
  chdir_ret : option string -> Z;
  env_open_ret : nat -> option string -> Z -> Z;
  env_exec_ok : string -> list string -> bool
}.

(** How a turn of the loop, or a call inside it, ends. *)
Inductive outcome :=
| Continue (s : shell)        (* back to the top of the loop *)
| ExitShell (code : Z) (s : shell)
| Blocked (s : shell)         (* the foreground wait never ends *)
| Undefined (s : shell)       (* the C program has no defined behaviour *)
| InChild (r : (bool + child_end) * child) (s : shell).

(** [do { waitpid(pid, &status, WUNTRACED); }
     while (!WIFEXITED(status) && !WIFSIGNALED(status));]
    The result is the final [status]; [None] when the reports run out
    before a terminal one, that is, when the last call never returns. *)
Fixpoint foreground_wait (pid : Z) (reports : list Z) (s : shell)
  : option Z * shell :=
  match reports with
  | [] => (None, s)
  | status :: rest =>
      let s' := emit (EvWaitpid pid status) s in
      if negb (WIFEXITED status) && negb (WIFSIGNALED status)
      then foreground_wait pid rest s'
      else (Some status, s')
  end.

Definition executeCommand (e : env) (a : list (option string))
    (is_background : bool) (s : shell) : outcome :=
  let pid := fork_ret e in
  let s := emit (EvFork pid) s in
  if pid =? 0 then
    InChild (run_child (env_open_ret e) (env_exec_ok e) a is_background) s
  else if pid <? 0 then
    Continue (emit (EvPerror "smallsh") s)
  else if negb is_background then
    match foreground_wait pid (wait_reports e) s with
    | (Some status, s') => Continue (set_last_status status s')
    | (None, s') => Blocked s'
    end
  else
    Continue (emit (EvPrintf ("Background pid is " +++ fmt_d pid +++ nl)) s).


Definition changeDirectory (e : env) (path : option string) (s : shell) : shell :=
  match path with
  | Some p =>
      if streq p "~" then
        emit (EvChdir (getenv_HOME e) (chdir_ret e (getenv_HOME e))) s
      else
        let r := chdir_ret e (Some p) in
        let s := emit (EvChdir (Some p) r) s in
        if negb (r =? 0) then emit (EvPerror "cd") s else s
  | None =>
      emit (EvChdir (getenv_HOME e) (chdir_ret e (getenv_HOME e))) s
  end.

Definition printStatus (s : shell) : shell :=
  if WIFEXITED (last_status s) then
    emit (EvPrintf ("exit value " +++ fmt_d (WEXITSTATUS (last_status s)) +++ nl)) s
  else
    emit (EvPrintf ("terminated by signal " +++ fmt_d (WTERMSIG (last_status s)) +++ nl)) s.

(** The value [executeBuiltInCommand] returns, or the way it does not. *)
Inductive builtin_result :=
| BReturn (r : Z) (s : shell)
| BExit (code : Z) (s : shell)
| BUndefined (s : shell).       (* strcmp applied to NULL *)

(** [exit(0)] *)
Definition exitShell (s : shell) : builtin_result := BExit 0 s.

Definition executeBuiltInCommand (e : env) (a : list (option string))
    (arg_count : nat) (s : shell) : builtin_result :=
  match nth 0 a None with
  | None => BUndefined s
  | Some a0 =>
      if streq a0 "exit" then exitShell s
      else if streq a0 "cd" then BReturn 1 (changeDirectory e (nth 1 a None) s)
      else if streq a0 "status" then BReturn 1 (printStatus s)
      else BReturn 0 s
  end.

(** The tokens [strtok(input, " ")] and its continuations hand out: the
    maximal runs of characters other than a space. [cur] is the token
    being read, if one was begun. *)
Fixpoint strtok_all (s : string) (cur : option string) : list string :=
  match s with
  | EmptyString => match cur with Some t => [t] | None => [] end
  | String c rest =>
      if Ascii.eqb c " " then
        match cur with
        | Some t => t :: strtok_all rest None
        | None => strtok_all rest None
        end
      else
        strtok_all rest
          (Some (match cur with Some t => t | None => EmptyString end
                 +++ String c EmptyString))
  end.

(** [parseInput]: the array and [arg_count]; [None] when the tokens and the
    closing NULL do not fit the [MAX_ARGS] cells of [args]. *)
Definition parseInput (input : string) : option (list (option string) * nat) :=
  let toks := strtok_all input None in
  if (List.length toks <? MAX_ARGS)%nat
  then Some (args_of toks, List.length toks)
  else None.

(** [strcpy(dst, src)] and [strcat(dst, src)] into a buffer of [cap] bytes:
    [None] when the text and its closing NUL do not fit. *)
Definition strcpy (cap : nat) (src : string) : option string :=
  if (String.length src <? cap)%nat then Some src else None.

Definition strcat (cap : nat) (dst src : string) : option string :=
  if (String.length dst + String.length src <? cap)%nat
  then Some (dst +++ src) else None.

Inductive expansion :=
| Expanded (input : string)
| Overflow          (* a copy ran past the end of its buffer *)
| Unfinished.       (* the bound on the number of turns was hit *)

(** [sprintf(pid_str, "%d", pid)] into [char pid_str[10]]. *)
Definition sprintf_pid (pid : Z) : option string := strcpy 10 (fmt_d pid).

(** [while ((found = strstr(input, "$$")) != NULL) ...] *)
Fixpoint expandPID_loop (fuel : nat) (pid_str input : string) : expansion :=
  match fuel with
  | O => Unfinished
  | S fuel' =>
      match strstr input "$$" with
      | None => Expanded input
      | Some found =>
          let rest := skipn_str (found + String.length "$$") input in
          let input := firstn_str found input in
          match strcpy MAX_LENGTH input with
          | None => Overflow
          | Some temp =>
              match strcat MAX_LENGTH temp pid_str with
              | None => Overflow
              | Some temp =>
                  match strcat MAX_LENGTH temp rest with
                  | None => Overflow
                  | Some temp =>
                      match strcpy MAX_LENGTH temp with
                      | None => Overflow
                      | Some input => expandPID_loop fuel' pid_str input
                      end
                  end
              end
          end
      end
  end.

(** [expandPID]: every turn removes one pair of dollars, so as many turns
    as the line has characters, and one more to notice the end, are
    enough. *)
Definition expandPID (pid : Z) (input : string) : expansion :=
  match sprintf_pid pid with
  | None => Overflow
  | Some pid_str => expandPID_loop (S (String.length input)) pid_str input
  end.

(** The reaping loop at the top of [main]'s loop. *)
Fixpoint reap (finished : list (Z * Z)) (s : shell) : shell :=
  match finished with
  | [] => s
  | (finished_pid, status) :: rest =>
      let s := emit (EvPrintf ("Background pid " +++ fmt_d finished_pid
                               +++ " is done: ")) s in
      let s :=
        if WIFEXITED status then
          emit (EvPrintf ("exit value " +++ fmt_d (WEXITSTATUS status) +++ nl)) s
        else if WIFSIGNALED status then
          emit (EvPrintf ("terminated by signal " +++ fmt_d (WTERMSIG status)
                          +++ nl)) s
        else s in
      reap rest s
  end.

Definition prompt (s : shell) : shell := emit EvFflush (emit (EvPrintf ": ") s).

(** The test [strlen(input) == 0 || input[0] == '#']. *)
Definition blank_or_comment (input : string) : bool :=
  match input with
  | EmptyString => true
  | String c _ => Ascii.eqb c "#"
  end.

(** The detection of a closing [&]: the flag, the array and the count
    after it. *)
Definition background_marker (a : list (option string)) (arg_count : nat)
  : bool * list (option string) * nat :=
  match arg_count with
  | O => (false, a, arg_count)
  | S k =>
      match nth k a None with
      | Some t => if streq t "&" then (true, store k None a, k)
                  else (false, a, arg_count)
      | None => (false, a, arg_count)
      end
  end.

(** One turn of [while (should_run)]. *)
Definition main_iteration (e : env) (s : shell) : outcome :=
  let s := reap (reaped e) s in
  let s := prompt s in
  match fgets_ret e with
  | None => Continue (emit (EvStderr ("Error reading input." +++ nl)) s)
  | Some raw =>
      let input := chomp raw in
      if blank_or_comment input then Continue s
      else
        match expandPID (getpid e) input with
        | Overflow | Unfinished => Undefined s
        | Expanded input =>
            match parseInput input with
            | None => Undefined s
            | Some (a, arg_count) =>
                let '(is_background, a, arg_count) :=
                  background_marker a arg_count in
                match executeBuiltInCommand e a arg_count s with
                | BUndefined s => Undefined s
                | BExit code s => ExitShell code s
                | BReturn r s =>
                    if negb (r =? 0) then Continue s
                    else executeCommand e a is_background s
                end
            end
        end
  end.

(** The steps of the shell process: a turn of the loop, or a signal
    delivered between two turns. *)
Inductive step_label :=
| Turn (e : env)
| DeliverSIGINT
| DeliverSIGTSTP.

Definition step (l : step_label) (s : shell) : outcome :=
  match l with
  | Turn e => main_iteration e s
  | DeliverSIGINT => Continue (handleSIGINT s)
  | DeliverSIGTSTP => Continue (handleSIGTSTP s)
  end.

(** The shell state an outcome leaves behind in the shell process. *)
Definition outcome_shell (o : outcome) : shell :=
  match o with
  | Continue s | ExitShell _ s | Blocked s | Undefined s | InChild _ s => s
  end.

(** A run of the shell from a state: the states it passes through while it
    keeps coming back to the top of the loop, and the state in which it
    stops doing so, if it does. *)
Fixpoint run (ls : list step_label) (s : shell) : list shell :=
  match ls with
  | [] => [s]
  | l :: rest =>
      s :: match step l s with
           | Continue s' => run rest s'
           | o => [outcome_shell o]
           end
  end.

(** ** Vocabulary of the statements *)

(** The text [status] prints for a wait status. *)
Definition status_text (st : Z) : string :=
  if WIFEXITED st
  then "exit value " +++ fmt_d (WEXITSTATUS st) +++ nl
  else "terminated by signal " +++ fmt_d (WTERMSIG st) +++ nl.

Definition is_fork (ev : event) : bool :=
  match ev with EvFork _ => true | _ => false end.

Definition is_waitpid (ev : event) : bool :=
  match ev with EvWaitpid _ _ => true | _ => false end.

Definition is_chdir (ev : event) : bool :=
  match ev with EvChdir _ _ => true | _ => false end.

(** An event that only the launch of a program or a built-in produces. *)
Definition is_launch (ev : event) : bool :=
  is_fork ev || is_waitpid ev || is_chdir ev.

(** A line as the loop sees it after the newline is cut: empty, or a
    comment. *)
Definition blank_line (input : string) : Prop := input = EmptyString.
Definition comment_line (input : string) : Prop :=
  exists rest, input = String "#" rest.

Definition set_mode (b : bool) (s : shell) : shell :=
  mkShell (last_status s) b (out s).

Definition outcome_set_mode (b : bool) (o : outcome) : outcome :=
  match o with
  | Continue s => Continue (set_mode b s)
  | ExitShell c s => ExitShell c (set_mode b s)
  | Blocked s => Blocked (set_mode b s)
  | Undefined s => Undefined (set_mode b s)
  | InChild r s => InChild r (set_mode b s)
  end.

(** The mark a completed foreground wait leaves between two shell states:
    [fork] gave a child, the new [last_status] is a terminal status among
    the child's reports, and the last thing the shell did was the
    [waitpid] on that child that stored it. *)
Definition written_by_foreground_wait (e : env) (s s' : shell) : Prop :=
  0 < fork_ret e
  /\ terminal (last_status s') = true
  /\ In (last_status s') (wait_reports e)
  /\ exists evs, out s' = out s ++ evs
                          ++ [EvWaitpid (fork_ret e) (last_status s')].

(** ** Sample environments *)

(** A turn in which the line [line] is read, the shell has pid 4567,
    [fork] returns [pid] and the child's wait reports are [reports]; every
    [open] gives descriptor 3 and every [execvp] succeeds. *)
Definition env_line (line : string) (pid : Z) (reports : list Z) : env :=
  mkEnv [] (Some (line +++ nl)) 4567 pid reports (Some "/home/me")
        (fun _ => 0) (fun _ _ _ => 3) (fun _ _ => true).

(** An environment in which HOME is unset and every [chdir] fails. *)
Definition env_no_home : env :=
  mkEnv [] (Some ("cd" +++ nl)) 4567 4568 [] None (fun _ => -1)
        (fun _ _ _ => 3) (fun _ _ => true).

(** A turn that finds two finished background children first. *)
Definition env_reaping (line : string) : env :=
  mkEnv [(4570, W_EXITCODE 3 0); (4571, 15)] (Some (line +++ nl)) 4567 4572 []
        (Some "/home/me") (fun _ => 0) (fun _ _ _ => 3) (fun _ _ => true).

(** A run of two turns: a foreground [sleep 100] that is stopped once and
    then killed by signal 9, and a blank line. *)
Definition run_killed : list step_label :=
  [Turn (env_line "sleep 100" 4568 [W_STOPCODE 19; 9]); Turn (env_line "" 4569 [])].

(** ** Vocabulary for the child's trace *)

Definition is_op (t : string) : bool := streq t "<" || streq t ">".

(** The flags of the output redirection. *)
Definition O_OUTPUT : Z := Z.lor (Z.lor O_WRONLY O_CREAT) O_TRUNC.

(** The three calls that rebind a standard stream to a path. *)
Definition redirect_in (path : option string) (fd : Z) : list syscall :=
  [SysOpen path O_RDONLY None fd; SysDup2 fd STDIN_FILENO; SysClose fd].

Definition redirect_out (path : option string) (fd : Z) : list syscall :=
  [SysOpen path O_OUTPUT (Some MODE_0644) fd; SysDup2 fd STDOUT_FILENO;
   SysClose fd].

Definition devnull_in (fd : Z) : list syscall :=
  [SysOpen (Some "/dev/null") O_RDONLY None fd; SysDup2 fd STDIN_FILENO;
   SysClose fd].

Definition devnull_out (fd : Z) : list syscall :=
  [SysOpen (Some "/dev/null") O_WRONLY None fd; SysDup2 fd STDOUT_FILENO;
   SysClose fd].

(** The end of a child whose [open] failed. *)
Definition open_failure (path : option string) (flags : Z) (mode : option Z)
  : list syscall :=
  [SysOpen path flags mode (-1); SysPerror "smallsh"; SysExit EXIT_FAILURE].

(** The signal profile a child installs first. *)
Definition signals (is_background : bool) : list syscall :=
  if is_background
  then [SysSignal SIGINT SIG_IGN; SysSignal SIGTSTP SIG_IGN]
  else [SysSignal SIGINT SIG_DFL; SysSignal SIGTSTP SIG_IGN].

(** [resolution toks evs ok]: [evs] are the calls of a left-to-right scan of
    [toks] that serves every [<] and [>] with the token after it (NULL
    when there is none) and ends at the first [open] that fails; [ok] tells
    whether the scan reached the end of the tokens. *)
Inductive resolution : list string -> list syscall -> bool -> Prop :=
| rs_end : resolution [] [] true
| rs_word t rest evs ok :
    is_op t = false ->
    resolution rest evs ok ->
    resolution (t :: rest) evs ok
| rs_in rest fd evs ok :
    fd <> -1 ->
    resolution rest evs ok ->
    resolution ("<" :: rest) (redirect_in (hd_error rest) fd ++ evs) ok
| rs_in_fails rest :
    resolution ("<" :: rest) (open_failure (hd_error rest) O_RDONLY None) false
| rs_out rest fd evs ok :
    fd <> -1 ->
    resolution rest evs ok ->
    resolution (">" :: rest) (redirect_out (hd_error rest) fd ++ evs) ok
| rs_out_fails rest :
    resolution (">" :: rest)
               (open_failure (hd_error rest) O_OUTPUT (Some MODE_0644)) false.

(** The cell of [args] a token leaves behind after the scan. *)
Definition cell (t : string) : option string :=
  if is_op t then None else Some t.

(** The number of tokens before the first operator. *)
Fixpoint words_before_op (toks : list string) : nat :=
  match toks with
  | [] => O
  | t :: rest => if is_op t then O else S (words_before_op rest)
  end.

(** [served tr path flags mode target]: somewhere in [tr] the path is
    opened with these flags and mode, the descriptor obtained is
    duplicated onto [target] and then closed, in three calls in a row. *)
Definition served (tr : list syscall) (path : option string) (flags : Z)
    (mode : option Z) (target : Z) : Prop :=
  exists pre fd post,
    fd <> -1
    /\ tr = pre ++ [SysOpen path flags mode fd; SysDup2 fd target; SysClose fd]
               ++ post.

(** [died_at_open r tr]: the child ended by [exit(EXIT_FAILURE)] right after
    reporting a failed [open]. *)
Definition died_at_open (r : bool + child_end) (tr : list syscall) : Prop :=
  r = inr (Exited EXIT_FAILURE)
  /\ exists pre path flags mode, tr = pre ++ open_failure path flags mode.

Definition is_execvp (c : syscall) : bool :=
  match c with SysExecvp _ _ => true | _ => false end.

(** The calls of a redirection: [open], [dup2], [close]. *)
Definition is_redirection_call (c : syscall) : bool :=
  match c with
  | SysOpen _ _ _ _ | SysDup2 _ _ | SysClose _ => true
  | _ => false
  end.

(** Whether a token list holds the operator [op]. *)
Definition mentions (op : string) (toks : list string) : bool :=
  existsb (streq op) toks.

(** The calls of a default binding: none when it is not needed, otherwise
    the three calls [mk fd] for a descriptor that [open] really gave. *)
Definition default_part (need : bool) (mk : Z -> list syscall)
    (evs : list syscall) : Prop :=
  if need then exists fd, fd <> -1 /\ evs = mk fd else evs = [].

(** The calls that end a child whose [execvp] came back. *)
Definition exec_failure : list syscall :=
  [SysPerror "smallsh"; SysExit EXIT_FAILURE].

(** An [open] that returned [-1]. *)
Definition open_failed (c : syscall) : bool :=
  match c with SysOpen _ _ _ r => r =? -1 | _ => false end.

(** A call of a redirection that went well: [dup2], [close], or an [open]
    that gave a descriptor. *)
Definition rebinding_call (c : syscall) : bool :=
  is_redirection_call c && negb (open_failed c).

Definition is_signal_call (c : syscall) : bool :=
  match c with SysSignal _ _ => true | _ => false end.

(** A call that neither fails nor ends the child: a signal setting or a
    call of a redirection that went well. *)
Definition quiet_call (c : syscall) : bool :=
  rebinding_call c || is_signal_call c.

(** ** The descriptor table behind a trace *)

(** What a descriptor is bound to: the path it was opened on and the
    flags. *)
Definition fd_table : Type := Z -> option (option string * Z).

Definition fd_set (t : fd_table) (fd : Z) (v : option (option string * Z))
  : fd_table :=
  fun k => if k =? fd then v else t k.

(** The effect of one call on the table: a successful [open] binds the
    descriptor it returns, [dup2] makes the new descriptor a copy of the
    old one when that one is open, [close] unbinds. *)
Definition kernel_step (t : fd_table) (c : syscall) : fd_table :=
  match c with
  | SysOpen path flags _ r =>
      if r =? -1 then t else fd_set t r (Some (path, flags))
  | SysDup2 oldfd newfd =>
      match t oldfd with
      | Some d => fd_set t newfd (Some d)
      | None => t
      end
  | SysClose fd => fd_set t fd None
  | _ => t
  end.

Definition fds_after (tr : list syscall) (t : fd_table) : fd_table :=
  fold_left kernel_step tr t.

(** An [open] of a process whose descriptors 0, 1 and 2 are in use gives
    a descriptor above them, or fails. *)
Definition above_std (c : syscall) : bool :=
  match c with
  | SysOpen _ _ _ r => (r =? -1) || (2 <? r)
  | _ => true
  end.

(** ** Sample kernels *)

(** Every [open] gives descriptor 3 and every [execvp] succeeds. *)
Definition open_always : nat -> option string -> Z -> Z := fun _ _ _ => 3.
Definition exec_always : string -> list string -> bool := fun _ _ => true.

(** As [open_always], but the path [missing] cannot be opened. *)
Definition open_but_missing : nat -> option string -> Z -> Z :=
  fun _ path _ =>
    match path with
    | Some p => if streq p "missing" then -1 else 3
    | None => -1
    end.

(** ** Vocabulary for the expansion of [$$] *)

Definition is_dollar (c : ascii) : bool := Ascii.eqb c "$".

Definition hd_dollar (s : string) : bool :=
  match s with
  | String c _ => is_dollar c
  | EmptyString => false
  end.

Fixpoint count_dollar (s : string) : nat :=
  match s with
  | EmptyString => O
  | String c t => if is_dollar c then S (count_dollar t) else count_dollar t
  end.

(** The expansion in the words of the specification: reading the line from
    the left, each pair of dollars becomes [pid_str] and every other
    character stays. *)
Fixpoint spec_expand (pid_str s : string) : string :=
  match s with
  | EmptyString => EmptyString
  | String c t =>
      match t with
      | String c' t' =>
          if is_dollar c && is_dollar c'
          then pid_str +++ spec_expand pid_str t'
          else String c (spec_expand pid_str t)
      | EmptyString => String c EmptyString
      end
  end.

(** [n] copies of [s], end to end. *)
Fixpoint copies (n : nat) (s : string) : string :=
  match n with
  | O => EmptyString
  | S n' => s +++ copies n' s
  end.

(** A line of 2046 characters: 1023 times [$$]. With its newline it fills
    the 2047 characters [fgets] can read into [input]. *)
Definition dollars_line : string := copies 1023 "$$".

(** The turn in which [dollars_line] is read by the shell of pid 4567. *)
Definition env_dollars : env :=
  mkEnv [] (Some (dollars_line +++ nl)) 4567 4568 [0] (Some "/home/me")
        (fun _ => 0) open_always exec_always.

(** ** Vocabulary for the tokens of a line *)

Definition is_space (c : ascii) : bool := Ascii.eqb c " ".

Fixpoint has_space (s : string) : bool :=
  match s with
  | EmptyString => false
  | String c t => is_space c || has_space t
  end.

(** The line without its spaces. *)
Fixpoint remove_spaces (s : string) : string :=
  match s with
  | EmptyString => EmptyString
  | String c t => if is_space c then remove_spaces t
                  else String c (remove_spaces t)
  end.

(** The strings of a list, end to end. *)
Definition glue (l : list string) : string :=
  fold_right String.append EmptyString l.

(** A token as [strtok] can hand one out: not empty, no space in it. *)
Definition token (t : string) : Prop :=
  t <> EmptyString /\ has_space t = false.

(** Tokens written on one line, a single space between two of them. *)
Fixpoint join_spaces (toks : list string) : string :=
  match toks with
  | [] => EmptyString
  | [t] => t
  | t :: rest => t +++ " " +++ join_spaces rest
  end.

(** The tokens a turn of the loop gets from its line, when it gets as far
    as [parseInput]: the line was read, is neither blank nor a comment, and
    [expandPID] stayed inside its buffers. *)
Definition line_tokens (e : env) : option (list string) :=
  match fgets_ret e with
  | None => None
  | Some raw =>
      let input := chomp raw in
      if blank_or_comment input then None
      else match expandPID (getpid e) input with
           | Expanded input => Some (strtok_all input None)
           | _ => None
           end
  end.

(** The shell state at the point where a turn reads its line. *)
Definition at_prompt (e : env) (s : shell) : shell :=
  prompt (reap (reaped e) s).



(** An event of process creation or of waiting for a child. *)
Definition is_process_call (ev : event) : bool :=
  is_fork ev || is_waitpid ev.

(** ** Vocabulary for the child's streams *)

(** The path the last operator [op] of a token list is followed by (NULL
    when nothing follows it); [None] when the list holds no [op]. *)
Fixpoint last_redirect (op : string) (toks : list string)
  : option (option string) :=
  match toks with
  | [] => None
  | t :: rest =>
      match last_redirect op rest with
      | Some path => Some path
      | None => if streq t op then Some (hd_error rest) else None
      end
  end.

(** An [open] of the trace returned what the kernel [open_ret] answers to
    one of its calls with this path and these flags. *)
Definition from_kernel (open_ret : nat -> option string -> Z -> Z)
    (x : syscall) : Prop :=
  match x with
  | SysOpen path flags _ r => exists n, r = open_ret n path flags
  | _ => True
  end.

(** A computation of the child that adds to the trace only answers of the
    kernel. *)
Definition keeps_kernel (open_ret : nat -> option string -> Z -> Z)
    {A} (m : M A) : Prop :=
  forall c, Forall (from_kernel open_ret) (trace c) ->
            Forall (from_kernel open_ret) (trace (snd (m c))).

(** A kernel that takes every path but NULL. *)
Definition open_rejects_null : nat -> option string -> Z -> Z :=
  fun _ path _ => match path with Some _ => 3 | None => -1 end.

(** ** Vocabulary for runs and reports *)

(** The two [printf] of the reaping loop for one finished child. *)
Definition report (finished : Z * Z) : list event :=
  [EvPrintf ("Background pid " +++ fmt_d (fst finished) +++ " is done: ");
   EvPrintf (status_text (snd finished))].

(** The state after a list of steps, when none of them left the loop. *)
Fixpoint after (ls : list step_label) (s : shell) : option shell :=
  match ls with
  | [] => Some s
  | l :: rest =>
      match step l s with
      | Continue s' => after rest s'
      | _ => None
      end
  end.

Definition is_tstp (l : step_label) : bool :=
  match l with DeliverSIGTSTP => true | _ => false end.

(** The directory argument of a [cd] line with the tokens [rest] after the
    command word: the first of them, unless it is the closing [&]. *)
Definition cd_argument (rest : list string) : option string :=
  match rest with
  | [] => None
  | [x] => if streq x "&" then None else Some x
  | p :: _ => Some p
  end.

(** * Properties *)

(** ** Cells of an array *)

Lemma nth_cells {A} (pre : list A) (x : A) (post : list A) (d : A) :
  nth (List.length pre) (pre ++ x :: post) d = x.
Proof. induction pre as [| y pre IH]; simpl; auto. Qed.

Lemma nth_after_cell {A} (pre : list A) (x : A) (post : list A) (d : A) :
  nth (List.length pre + 1) (pre ++ x :: post) d = nth 0 post d.
Proof. induction pre as [| z pre IH]; simpl; auto. Qed.

Lemma store_cells {A} (pre : list A) (x v : A) (post : list A) :
  store (List.length pre) v (pre ++ x :: post) = pre ++ v :: post.
Proof. induction pre as [| y pre IH]; simpl; [| rewrite IH]; reflexivity. Qed.

Lemma cells_snoc {A} (pre : list A) (x : A) (post : list A) :
  pre ++ x :: post = (pre ++ [x]) ++ post.
Proof. rewrite <- app_assoc. reflexivity. Qed.

Lemma length_snoc {A} (pre : list A) (x : A) :
  List.length (pre ++ [x]) = S (List.length pre).
Proof. rewrite length_app. simpl. lia. Qed.

(** ** Wait statuses *)

Lemma WTERMSIG_range (s : Z) : 0 <= WTERMSIG s <= 127.
Proof.
  unfold WTERMSIG. change (Z.land s 127) with (Z.land s (Z.ones 7)).
  rewrite Z.land_ones by lia. change (2 ^ 7) with 128.
  pose proof (Z.mod_pos_bound s 128 ltac:(lia)). lia.
Qed.

Lemma WIFSIGNALED_spec (s : Z) :
  WIFSIGNALED s = true <-> 1 <= WTERMSIG s <= 126.
Proof.
  unfold WIFSIGNALED. fold (WTERMSIG s).
  pose proof (WTERMSIG_range s) as R.
  unfold to_schar. rewrite Z.ltb_lt.
  destruct (Z.eq_dec (WTERMSIG s) 127) as [E | NE].
  - rewrite E. change (Z.shiftr _ 1) with (-64). lia.
  - rewrite Z.mod_small by lia.
    destruct (Z.ltb_spec (WTERMSIG s + 1) 128); [| lia].
    rewrite Z.shiftr_div_pow2 by lia. change (2 ^ 1) with 2.
    split; intro H'.
    + assert (2 <= WTERMSIG s + 1) by (apply Z.nlt_ge; intro; assert (WTERMSIG s + 1 = 0 \/ WTERMSIG s + 1 = 1) as [X|X] by lia; rewrite X in H'; cbv in H'; discriminate).
      lia.
    + apply Z.div_str_pos. lia.
Qed.

Lemma stopped_not_terminal (s : Z) : WIFSTOPPED s = true -> terminal s = false.
Proof.
  unfold WIFSTOPPED. rewrite Z.eqb_eq. intro H.
  assert (T : WTERMSIG s = 127).
  { unfold WTERMSIG. change 127 with (Z.land 255 127) at 1.
    rewrite Z.land_assoc, H. reflexivity. }
  unfold terminal, WIFEXITED. rewrite T. simpl.
  destruct (WIFSIGNALED s) eqn:E; [| reflexivity].
  apply WIFSIGNALED_spec in E. lia.
Qed.

Lemma terminal_not_stopped (s : Z) : terminal s = true -> WIFSTOPPED s = false.
Proof.
  intro H. destruct (WIFSTOPPED s) eqn:E; [| reflexivity].
  apply stopped_not_terminal in E. congruence.
Qed.

Lemma terminal_else_signaled (s : Z) :
  terminal s = true -> WIFEXITED s = false -> WIFSIGNALED s = true.
Proof. unfold terminal. intros H E. rewrite E in H. exact H. Qed.

(** ** Frame lemmas on the shell state *)

Lemma last_status_emit ev s : last_status (emit ev s) = last_status s.
Proof. reflexivity. Qed.

Lemma mode_emit ev s : is_foreground_only (emit ev s) = is_foreground_only s.
Proof. reflexivity. Qed.

Lemma out_emit ev s : out (emit ev s) = out s ++ [ev].
Proof. reflexivity. Qed.

Lemma last_status_reap finished s : last_status (reap finished s) = last_status s.
Proof.
  revert s. induction finished as [| [p st] rest IH]; intro s; simpl.
  - reflexivity.
  - rewrite IH. destruct (WIFEXITED st); [reflexivity |].
    destruct (WIFSIGNALED st); reflexivity.
Qed.

Lemma mode_reap finished s :
  is_foreground_only (reap finished s) = is_foreground_only s.
Proof.
  revert s. induction finished as [| [p st] rest IH]; intro s; simpl.
  - reflexivity.
  - rewrite IH. destruct (WIFEXITED st); [reflexivity |].
    destruct (WIFSIGNALED st); reflexivity.
Qed.

Lemma reap_no_launch finished s :
  exists evs, out (reap finished s) = out s ++ evs
              /\ forallb (fun ev => negb (is_launch ev)) evs = true.
Proof.
  revert s. induction finished as [| [p st] rest IH]; intro s; simpl.
  - exists []. rewrite app_nil_r. split; reflexivity.
  - match goal with |- context [reap rest ?x] => destruct (IH x) as (evs & E & F) end.
    rewrite E.
    destruct (WIFEXITED st); [| destruct (WIFSIGNALED st)]; simpl;
      rewrite <- ?app_assoc; simpl; eexists; (split; [reflexivity |]); simpl; exact F.
Qed.

(** ** The terminal-stop handler *)

Lemma banners_differ : entering_banner <> exiting_banner.
Proof. discriminate. Qed.

(** C6. Each delivery of the terminal-stop signal flips the mode flag, two
    deliveries in a row give the mode back, and a delivery adds to the
    output exactly one [write] on standard output whose bytes are the whole
    of one of the two banners: the entering banner when the new mode is
    foreground-only, the exiting banner otherwise. Nothing goes through
    [printf]. *)
Theorem handleSIGTSTP_toggles_and_writes_one_banner (s : shell) :
  is_foreground_only (handleSIGTSTP s) = negb (is_foreground_only s)
  /\ is_foreground_only (handleSIGTSTP (handleSIGTSTP s)) = is_foreground_only s
  /\ last_status (handleSIGTSTP s) = last_status s
  /\ out (handleSIGTSTP s)
     = out s ++ [EvWrite STDOUT_FILENO
                   (if is_foreground_only (handleSIGTSTP s)
                    then entering_banner else exiting_banner)]
  /\ entering_banner <> exiting_banner.
Proof.
  unfold handleSIGTSTP. destruct s as [ls m o].
  destruct m; simpl; repeat split; try reflexivity; apply banners_differ.
Qed.

(** ** The built-in [cd] *)

(** C10. [cd] with no argument or with [~] calls [chdir] on the value of
    HOME and looks at nothing: whatever [chdir] returns (and whether HOME is
    set or not), the only trace is the call itself, no [perror], and the
    dispatcher returns 1 so the loop goes on. With any other path a failed
    [chdir] is followed by [perror("cd")]. *)
Theorem cd_home_failure_is_silent (e : env) (s : shell) :
  (forall path, path = None \/ path = Some "~" ->
     changeDirectory e path s
     = emit (EvChdir (getenv_HOME e) (chdir_ret e (getenv_HOME e))) s)
  /\ (forall toks, toks = ["cd"] \/ toks = ["cd"; "~"] ->
        executeBuiltInCommand e (args_of toks) (List.length toks) s
        = BReturn 1 (emit (EvChdir (getenv_HOME e) (chdir_ret e (getenv_HOME e))) s))
  /\ (forall p, p <> "~" -> chdir_ret e (Some p) <> 0 ->
        changeDirectory e (Some p) s
        = emit (EvPerror "cd") (emit (EvChdir (Some p) (chdir_ret e (Some p))) s)).
Proof.
  repeat split.
  - intros path [-> | ->]; reflexivity.
  - intros toks [-> | ->]; reflexivity.
  - intros p Hp Hr. unfold changeDirectory.
    destruct (streq p "~") eqn:E.
    + apply String.eqb_eq in E. contradiction.
    + destruct (Z.eqb_spec (chdir_ret e (Some p)) 0); [contradiction | reflexivity].
Qed.

Lemma cd_home_failure_is_silent_witness :
  changeDirectory env_no_home None initial_shell
  = mkShell 0 false [EvChdir None (-1)]
  /\ executeBuiltInCommand env_no_home (args_of ["cd"; "~"]) 2 initial_shell
     = BReturn 1 (mkShell 0 false [EvChdir None (-1)])
  /\ changeDirectory env_no_home (Some "/nowhere") initial_shell
     = mkShell 0 false [EvChdir (Some "/nowhere") (-1); EvPerror "cd"].
Proof.
  destruct (cd_home_failure_is_silent env_no_home initial_shell) as (H1 & H2 & H3).
  split; [| split].
  - rewrite (H1 None (or_introl eq_refl)). reflexivity.
  - refine (eq_trans (H2 ["cd"; "~"] (or_intror eq_refl)) _). reflexivity.
  - rewrite (H3 "/nowhere"); [reflexivity | discriminate | simpl; lia].
Defined.

(** ** The foreground wait *)

Lemma foreground_wait_skips pid stops reports s :
  Forall (fun st => terminal st = false) stops ->
  foreground_wait pid (stops ++ reports) s
  = foreground_wait pid reports
      (mkShell (last_status s) (is_foreground_only s)
               (out s ++ map (EvWaitpid pid) stops)).
Proof.
  intro H. revert s. induction H as [| st stops Hst _ IH]; intro s; simpl.
  - rewrite app_nil_r. destruct s; reflexivity.
  - unfold terminal in Hst. apply orb_false_iff in Hst. destruct Hst as [-> ->].
    simpl. rewrite IH. simpl. rewrite <- app_assoc. reflexivity.
Qed.

Lemma foreground_wait_frame pid reports s :
  last_status (snd (foreground_wait pid reports s)) = last_status s
  /\ is_foreground_only (snd (foreground_wait pid reports s))
     = is_foreground_only s.
Proof.
  revert s. induction reports as [| st rest IH]; intro s; simpl; [auto |].
  destruct (negb (WIFEXITED st) && negb (WIFSIGNALED st)); [| auto].
  destruct (IH (emit (EvWaitpid pid st) s)) as [-> ->]. auto.
Qed.

Lemma foreground_wait_result pid reports s t s' :
  foreground_wait pid reports s = (Some t, s') ->
  terminal t = true /\ In t reports
  /\ exists evs, out s' = out s ++ evs ++ [EvWaitpid pid t].
Proof.
  revert s. induction reports as [| st rest IH]; intro s; simpl; [discriminate |].
  destruct (WIFEXITED st) eqn:E1; simpl.
  - intro H; inversion H; subst; clear H. unfold terminal. rewrite E1.
    repeat split; auto. exists []. reflexivity.
  - destruct (WIFSIGNALED st) eqn:E2; simpl.
    + intro H; inversion H; subst; clear H. unfold terminal. rewrite E1, E2.
      repeat split; auto. exists []. reflexivity.
    + intro H. apply IH in H. destruct H as (T & I & evs & O).
      repeat split; auto. simpl in O.
      exists (EvWaitpid pid st :: evs). rewrite O, <- app_assoc. reflexivity.
Qed.

Lemma foreground_wait_blocked pid reports s :
  Forall (fun st => terminal st = false) reports ->
  foreground_wait pid reports s
  = (None, mkShell (last_status s) (is_foreground_only s)
                   (out s ++ map (EvWaitpid pid) reports)).
Proof.
  intro H. rewrite <- (app_nil_r reports) at 1.
  rewrite foreground_wait_skips by exact H. reflexivity.
Qed.

Lemma stopped_all_not_terminal stops :
  Forall (fun st => WIFSTOPPED st = true) stops ->
  Forall (fun st => terminal st = false) stops.
Proof.
  intro H. eapply Forall_impl; [| exact H].
  intros st. apply stopped_not_terminal.
Qed.

(** *** The closing [&] *)

Lemma args_of_snoc init x :
  args_of (init ++ [x]) = map Some init ++ Some x :: [None].
Proof.
  unfold args_of, args_then. rewrite map_app, <- app_assoc. reflexivity.
Qed.

(** A line whose last token is [&] is marked background, the cell of the
    [&] becomes NULL and the count drops by one. *)
Lemma background_marker_amp init :
  background_marker (args_of (init ++ ["&"])) (List.length (init ++ ["&"]))
  = (true, args_then init [None], List.length init).
Proof.
  rewrite length_app, Nat.add_1_r, args_of_snoc. unfold background_marker.
  rewrite <- (length_map Some init) at 1.
  rewrite nth_cells. simpl streq. cbv iota.
  rewrite <- (length_map Some init) at 1.
  rewrite store_cells. reflexivity.
Qed.

(** A line whose last token is not [&] is not marked, and nothing
    changes. *)
Lemma background_marker_plain toks :
  last toks EmptyString <> "&" ->
  background_marker (args_of toks) (List.length toks)
  = (false, args_of toks, List.length toks).
Proof.
  induction toks as [| x init _] using rev_ind; [reflexivity |].
  rewrite last_last. intro Hx.
  rewrite length_app, Nat.add_1_r, args_of_snoc. unfold background_marker.
  rewrite <- (length_map Some init) at 1.
  rewrite nth_cells.
  destruct (streq x "&") eqn:E; [apply String.eqb_eq in E; contradiction |].
  reflexivity.
Qed.

(** C1. A line whose last token is not [&] is launched with
    [is_background] false. A foreground launch ([is_background] false,
    [fork] gave the child's pid) waits on that pid: the reports of a
    stopped child are read and passed over, the first report of an exit or
    of a death by signal ends the wait, that status is stored raw in
    [last_status], and the [status] built-in run next prints the text of
    exactly that status. While only stop reports arrive the call does not
    come back. *)
Theorem foreground_wait_until_termination (e : env) (a : list (option string))
    (s : shell) :
  (forall toks,
     last toks EmptyString <> "&" ->
     background_marker (args_of toks) (List.length toks)
     = (false, args_of toks, List.length toks))
  /\ (forall stops t rest,
     0 < fork_ret e ->
     wait_reports e = stops ++ t :: rest ->
     Forall (fun st => WIFSTOPPED st = true) stops ->
     terminal t = true ->
     exists s',
       executeCommand e a false s = Continue s'
       /\ last_status s' = t
       /\ is_foreground_only s' = is_foreground_only s
       /\ out s' = out s ++ EvFork (fork_ret e)
                     :: map (EvWaitpid (fork_ret e)) (stops ++ [t])
       /\ forall e2,
            executeBuiltInCommand e2 (args_of ["status"]) 1 s'
            = BReturn 1 (emit (EvPrintf (status_text t)) s'))
  /\ (0 < fork_ret e ->
      Forall (fun st => WIFSTOPPED st = true) (wait_reports e) ->
      executeCommand e a false s
      = Blocked (mkShell (last_status s) (is_foreground_only s)
                         (out s ++ EvFork (fork_ret e)
                            :: map (EvWaitpid (fork_ret e)) (wait_reports e)))).
Proof.
  split; [exact background_marker_plain |].
  split.
  - intros stops t rest Hpid Hrep Hstops Ht.
    unfold executeCommand.
    destruct (Z.eqb_spec (fork_ret e) 0); [lia |].
    destruct (Z.ltb_spec (fork_ret e) 0); [lia |].
    simpl negb. cbv iota.
    rewrite Hrep, foreground_wait_skips by (apply stopped_all_not_terminal; exact Hstops).
    simpl. unfold terminal in Ht.
    assert (C : negb (WIFEXITED t) && negb (WIFSIGNALED t) = false)
      by (destruct (WIFEXITED t), (WIFSIGNALED t); simpl in *; congruence).
    rewrite C. eexists. split; [reflexivity |].
    repeat split.
    + simpl. rewrite map_app. simpl. rewrite <- !app_assoc. reflexivity.
    + intro e2. unfold executeBuiltInCommand, printStatus, status_text. simpl.
      destruct (WIFEXITED t); reflexivity.
  - intros Hpid Hall. unfold executeCommand.
    destruct (Z.eqb_spec (fork_ret e) 0); [lia |].
    destruct (Z.ltb_spec (fork_ret e) 0); [lia |].
    simpl negb. cbv iota.
    rewrite foreground_wait_blocked by (apply stopped_all_not_terminal; exact Hall).
    simpl. rewrite <- app_assoc. reflexivity.
Qed.

Lemma foreground_wait_until_termination_witness :
  (exists s',
     executeCommand (env_line "sleep 5" 4568 [W_STOPCODE 19; W_STOPCODE 19; 9])
                    (args_of ["sleep"; "5"]) false initial_shell
     = Continue s'
     /\ last_status s' = 9
     /\ out s' = [EvFork 4568; EvWaitpid 4568 (W_STOPCODE 19);
                  EvWaitpid 4568 (W_STOPCODE 19); EvWaitpid 4568 9]
     /\ executeBuiltInCommand env_no_home (args_of ["status"]) 1 s'
        = BReturn 1 (emit (EvPrintf ("terminated by signal 9" +++ nl)) s'))
  /\ executeCommand (env_line "sleep 5" 4568 [W_STOPCODE 19])
                    (args_of ["sleep"; "5"]) false initial_shell
     = Blocked (mkShell 0 false [EvFork 4568; EvWaitpid 4568 (W_STOPCODE 19)]).
Proof.
  split.
  - destruct (foreground_wait_until_termination
                (env_line "sleep 5" 4568 [W_STOPCODE 19; W_STOPCODE 19; 9])
                (args_of ["sleep"; "5"]) initial_shell) as (_ & H & _).
    destruct (H [W_STOPCODE 19; W_STOPCODE 19] 9 [])
      as (s' & E & L & _ & O & P).
    + reflexivity.
    + reflexivity.
    + repeat constructor.
    + reflexivity.
    + exists s'. repeat split; [exact E | exact L | exact O | exact (P env_no_home)].
  - destruct (foreground_wait_until_termination
                (env_line "sleep 5" 4568 [W_STOPCODE 19])
                (args_of ["sleep"; "5"]) initial_shell) as (_ & _ & H).
    rewrite H; [reflexivity | reflexivity | repeat constructor].
Defined.

(** ** One turn of the loop and the status word *)

Lemma changeDirectory_frame e path s :
  last_status (changeDirectory e path s) = last_status s
  /\ is_foreground_only (changeDirectory e path s) = is_foreground_only s.
Proof.
  unfold changeDirectory. destruct path as [p |]; [| split; reflexivity].
  destruct (streq p "~"); [split; reflexivity |].
  destruct (negb (chdir_ret e (Some p) =? 0)); split; reflexivity.
Qed.

Lemma printStatus_frame s :
  last_status (printStatus s) = last_status s
  /\ is_foreground_only (printStatus s) = is_foreground_only s
  /\ out (printStatus s) = out s ++ [EvPrintf (status_text (last_status s))].
Proof.
  unfold printStatus, status_text.
  destruct (WIFEXITED (last_status s)); repeat split; reflexivity.
Qed.

Lemma executeBuiltInCommand_last_status e a n s :
  match executeBuiltInCommand e a n s with
  | BReturn r s' => last_status s' = last_status s /\ (r = 0 -> s' = s)
  | BExit _ s' | BUndefined s' => s' = s
  end.
Proof.
  unfold executeBuiltInCommand, exitShell.
  destruct (nth 0 a None) as [a0 |]; [| reflexivity].
  destruct (streq a0 "exit"); [reflexivity |].
  destruct (streq a0 "cd").
  { split; [apply changeDirectory_frame | discriminate]. }
  destruct (streq a0 "status").
  { split; [apply printStatus_frame | discriminate]. }
  split; reflexivity.
Qed.

Lemma executeCommand_last_status e a bg s :
  let o := executeCommand e a bg s in
  last_status (outcome_shell o) = last_status s
  \/ (bg = false /\ o = Continue (outcome_shell o)
      /\ written_by_foreground_wait e s (outcome_shell o)).
Proof.
  unfold executeCommand.
  destruct (Z.eqb_spec (fork_ret e) 0); [left; reflexivity |].
  destruct (Z.ltb_spec (fork_ret e) 0); [left; reflexivity |].
  destruct bg; simpl negb; cbv iota; [left; reflexivity |].
  pose proof (foreground_wait_frame (fork_ret e) (wait_reports e)
                (emit (EvFork (fork_ret e)) s)) as [L Mo].
  destruct (foreground_wait (fork_ret e) (wait_reports e) (emit (EvFork (fork_ret e)) s))
    as [[t |] s'] eqn:W; [| left; exact L].
  apply foreground_wait_result in W. destruct W as (T & I & evs & O).
  right. unfold written_by_foreground_wait. simpl.
  repeat split; auto; try lia.
  exists (EvFork (fork_ret e) :: evs). rewrite O. simpl.
  rewrite <- app_assoc. reflexivity.
Qed.

Lemma prompt_reap_frame e s :
  last_status (prompt (reap (reaped e) s)) = last_status s
  /\ is_foreground_only (prompt (reap (reaped e) s)) = is_foreground_only s
  /\ exists evs, out (prompt (reap (reaped e) s)) = out s ++ evs
                 /\ forallb (fun ev => negb (is_launch ev)) evs = true.
Proof.
  unfold prompt. simpl. rewrite last_status_reap, mode_reap.
  repeat split.
  destruct (reap_no_launch (reaped e) s) as (evs & E & F).
  exists (evs ++ [EvPrintf ": "; EvFflush]). rewrite E, <- !app_assoc. simpl.
  split; [reflexivity |]. rewrite forallb_app, F. reflexivity.
Qed.

Lemma main_iteration_last_status e s :
  let o := main_iteration e s in
  last_status (outcome_shell o) = last_status s
  \/ (o = Continue (outcome_shell o)
      /\ written_by_foreground_wait e s (outcome_shell o)).
Proof.
  unfold main_iteration.
  destruct (prompt_reap_frame e s) as (L0 & _ & evs0 & O0 & _).
  set (s0 := prompt (reap (reaped e) s)) in *.
  destruct (fgets_ret e) as [raw |]; [| left; exact L0].
  destruct (blank_or_comment (chomp raw)); [left; exact L0 |].
  destruct (expandPID (getpid e) (chomp raw)) as [input | |]; try (left; exact L0).
  destruct (parseInput input) as [[a n] |]; [| left; exact L0].
  destruct (background_marker a n) as [[bg a'] n'].
  pose proof (executeBuiltInCommand_last_status e a' n' s0) as B.
  destruct (executeBuiltInCommand e a' n' s0) as [r s1 | c s1 | s1].
  - destruct B as [B1 B2].
    destruct (Z.eqb_spec r 0) as [-> | NE]; simpl negb; cbv iota.
    + rewrite (B2 eq_refl).
      destruct (executeCommand_last_status e a' bg s0) as [H | (Hb & Hc & W)].
      * left. rewrite H. exact L0.
      * right. split; [exact Hc |].
        destruct W as (Hp & Ht & Hi & evs & Ho).
        repeat split; auto.
        exists (evs0 ++ evs). rewrite Ho, O0, <- !app_assoc. reflexivity.
    + left. simpl. rewrite B1. exact L0.
  - left. simpl. rewrite B. exact L0.
  - left. simpl. rewrite B. exact L0.
Qed.

Lemma step_last_status l s :
  let o := step l s in
  last_status (outcome_shell o) = last_status s
  \/ exists e, l = Turn e /\ o = Continue (outcome_shell o)
               /\ written_by_foreground_wait e s (outcome_shell o).
Proof.
  destruct l as [e | |]; simpl.
  - destruct (main_iteration_last_status e s) as [H | [H1 H2]].
    + left. exact H.
    + right. exists e. auto.
  - left. reflexivity.
  - left. unfold handleSIGTSTP. simpl.
    destruct (negb (is_foreground_only s)); reflexivity.
Qed.

(** C5. [last_status] starts as the encoding of "exited 0"; the reaping
    loop never changes it, whatever children it finds; and over any step of
    the shell (a turn of the loop or a signal) it either keeps its value or
    the step was a turn whose foreground wait came back, the new value
    being the status stored by the last [waitpid] on the forked child. *)
Theorem last_status_written_only_by_foreground_wait :
  last_status initial_shell = 0
  /\ WIFEXITED 0 = true /\ WEXITSTATUS 0 = 0
  /\ (forall finished s, last_status (reap finished s) = last_status s)
  /\ (forall e a s,
        last_status (outcome_shell (executeCommand e a true s)) = last_status s)
  /\ (forall l s,
        last_status (outcome_shell (step l s)) = last_status s
        \/ exists e, l = Turn e
                     /\ step l s = Continue (outcome_shell (step l s))
                     /\ written_by_foreground_wait e s (outcome_shell (step l s))).
Proof.
  split; [reflexivity |]. split; [reflexivity |]. split; [reflexivity |].
  split; [exact last_status_reap |]. split.
  - intros e a s.
    destruct (executeCommand_last_status e a true s) as [H | (Hb & _)];
      [exact H | discriminate].
  - intros l s. exact (step_last_status l s).
Qed.

(** ** The status word is always a terminal one *)

Lemma run_terminal ls :
  forall s, terminal (last_status s) = true ->
            Forall (fun s' => terminal (last_status s') = true) (run ls s).
Proof.
  induction ls as [| l rest IH]; intros s H; simpl.
  - constructor; [exact H | constructor].
  - constructor; [exact H |].
    assert (T : terminal (last_status (outcome_shell (step l s))) = true).
    { destruct (step_last_status l s) as [E | (e & _ & _ & W)].
      - rewrite E. exact H.
      - destruct W as (_ & T & _). exact T. }
    destruct (step l s) as [s' | c s' | s' | s' | r s']; simpl in T;
      try (constructor; [exact T | constructor]).
    apply IH. exact T.
Qed.

(** C9. In every state a run of the shell passes through, [last_status]
    encodes an exit or a death by signal and never a stop; so when
    [printStatus] takes its else branch the status is that of a process
    killed by a signal, and the number printed is that signal, between 1
    and 126. *)
Theorem last_status_never_stopped (ls : list step_label) :
  Forall (fun s =>
            terminal (last_status s) = true
            /\ WIFSTOPPED (last_status s) = false
            /\ (WIFEXITED (last_status s) = false ->
                WIFSIGNALED (last_status s) = true
                /\ 1 <= WTERMSIG (last_status s) <= 126
                /\ printStatus s
                   = emit (EvPrintf ("terminated by signal "
                                     +++ fmt_d (WTERMSIG (last_status s)) +++ nl)) s))
         (run ls initial_shell).
Proof.
  eapply Forall_impl; [| apply run_terminal; reflexivity].
  intros s T. split; [exact T |]. split; [apply terminal_not_stopped; exact T |].
  intro E. pose proof (terminal_else_signaled _ T E) as Sg.
  split; [exact Sg |]. split; [apply WIFSIGNALED_spec; exact Sg |].
  unfold printStatus. rewrite E. reflexivity.
Qed.

Lemma last_status_never_stopped_witness :
  exists s, nth_error (run run_killed initial_shell) 1 = Some s
            /\ last_status s = 9
            /\ WIFSIGNALED (last_status s) = true
            /\ printStatus s
               = emit (EvPrintf ("terminated by signal 9" +++ nl)) s.
Proof.
  pose proof (last_status_never_stopped run_killed) as H.
  rewrite Forall_forall in H.
  eexists. split; [reflexivity |].
  match goal with |- last_status ?s = _ /\ _ =>
    assert (I : In s (run run_killed initial_shell)) by (right; left; reflexivity);
    destruct (H s I) as (_ & _ & K)
  end.
  destruct (K eq_refl) as (Sg & _ & P).
  split; [reflexivity |]. split; [exact Sg | exact P].
Defined.

(** ** Blank lines and comments *)

Lemma blank_or_comment_spec input :
  blank_or_comment input = true <-> blank_line input \/ comment_line input.
Proof.
  unfold blank_line, comment_line. destruct input as [| c rest]; simpl.
  - split; auto.
  - split.
    + intro H. apply Ascii.eqb_eq in H. subst. right. eexists. reflexivity.
    + intros [H | [r H]]; [discriminate |]. inversion H. reflexivity.
Qed.

(** C8. When the line read is empty or begins with [#], the turn is the
    reaping loop and the prompt and nothing else: it goes back to the top
    of the loop with [last_status] and the mode as they were, and what it
    added to the output holds no [fork], no [waitpid] and no [chdir]; no
    built-in ran and nothing was launched, whatever the rest of the
    environment offers. *)
Theorem blank_or_comment_is_noop (e : env) (s : shell) (raw : string) :
  fgets_ret e = Some raw ->
  blank_line (chomp raw) \/ comment_line (chomp raw) ->
  main_iteration e s = Continue (prompt (reap (reaped e) s))
  /\ last_status (prompt (reap (reaped e) s)) = last_status s
  /\ is_foreground_only (prompt (reap (reaped e) s)) = is_foreground_only s
  /\ exists evs, out (prompt (reap (reaped e) s)) = out s ++ evs
                 /\ forallb (fun ev => negb (is_launch ev)) evs = true.
Proof.
  intros Hraw Hline. apply blank_or_comment_spec in Hline.
  split.
  - unfold main_iteration. rewrite Hraw, Hline. reflexivity.
  - apply prompt_reap_frame.
Qed.

Lemma blank_or_comment_is_noop_witness :
  main_iteration (env_reaping "# exit") (mkShell 9 true [])
  = Continue (mkShell 9 true
                [EvPrintf "Background pid 4570 is done: ";
                 EvPrintf ("exit value 3" +++ nl);
                 EvPrintf "Background pid 4571 is done: ";
                 EvPrintf ("terminated by signal 15" +++ nl);
                 EvPrintf ": "; EvFflush])
  /\ main_iteration (env_line "" 4568 [0]) initial_shell
     = Continue (mkShell 0 false [EvPrintf ": "; EvFflush]).
Proof.
  split.
  - destruct (blank_or_comment_is_noop (env_reaping "# exit") (mkShell 9 true [])
                ("# exit" +++ nl)) as [H _].
    + reflexivity.
    + right. exists " exit". reflexivity.
    + rewrite H. reflexivity.
  - destruct (blank_or_comment_is_noop (env_line "" 4568 [0]) initial_shell nl)
      as [H _].
    + reflexivity.
    + left. reflexivity.
    + rewrite H. reflexivity.
Defined.

(** ** The mode flag and the launch path *)

Lemma emit_set_mode b ev s : emit ev (set_mode b s) = set_mode b (emit ev s).
Proof. reflexivity. Qed.

Lemma reap_set_mode b finished s :
  reap finished (set_mode b s) = set_mode b (reap finished s).
Proof.
  revert s. induction finished as [| [p st] rest IH]; intro s; simpl.
  - reflexivity.
  - destruct (WIFEXITED st); [| destruct (WIFSIGNALED st)];
      rewrite ?emit_set_mode; apply IH.
Qed.

Lemma foreground_wait_set_mode b pid reports s :
  foreground_wait pid reports (set_mode b s)
  = (fst (foreground_wait pid reports s),
     set_mode b (snd (foreground_wait pid reports s))).
Proof.
  revert s. induction reports as [| st rest IH]; intro s; simpl.
  - reflexivity.
  - destruct (negb (WIFEXITED st) && negb (WIFSIGNALED st)).
    + rewrite emit_set_mode. apply IH.
    + reflexivity.
Qed.

Lemma executeCommand_set_mode b e a bg s :
  executeCommand e a bg (set_mode b s)
  = outcome_set_mode b (executeCommand e a bg s).
Proof.
  unfold executeCommand.
  destruct (fork_ret e =? 0); [reflexivity |].
  destruct (fork_ret e <? 0); [reflexivity |].
  destruct (negb bg); [| reflexivity].
  change (emit (EvFork (fork_ret e)) (set_mode b s))
    with (set_mode b (emit (EvFork (fork_ret e)) s)).
  rewrite foreground_wait_set_mode.
  destruct (foreground_wait (fork_ret e) (wait_reports e)
              (emit (EvFork (fork_ret e)) s)) as [[t |] s']; reflexivity.
Qed.

Lemma executeBuiltInCommand_set_mode b e a n s :
  executeBuiltInCommand e a n (set_mode b s)
  = match executeBuiltInCommand e a n s with
    | BReturn r s' => BReturn r (set_mode b s')
    | BExit c s' => BExit c (set_mode b s')
    | BUndefined s' => BUndefined (set_mode b s')
    end.
Proof.
  unfold executeBuiltInCommand, exitShell.
  destruct (nth 0 a None) as [a0 |]; [| reflexivity].
  destruct (streq a0 "exit"); [reflexivity |].
  destruct (streq a0 "cd").
  { unfold changeDirectory. destruct (nth 1 a None) as [p |]; [| reflexivity].
    destruct (streq p "~"); [reflexivity |].
    simpl. destruct (negb (chdir_ret e (Some p) =? 0)); reflexivity. }
  destruct (streq a0 "status").
  { unfold printStatus. simpl. destruct (WIFEXITED (last_status s)); reflexivity. }
  reflexivity.
Qed.

Lemma main_iteration_ignores_mode b e s :
  main_iteration e (set_mode b s) = outcome_set_mode b (main_iteration e s).
Proof.
  unfold main_iteration. rewrite reap_set_mode.
  change (prompt (set_mode b (reap (reaped e) s)))
    with (set_mode b (prompt (reap (reaped e) s))).
  set (s0 := prompt (reap (reaped e) s)).
  destruct (fgets_ret e) as [raw |]; [| reflexivity].
  destruct (blank_or_comment (chomp raw)); [reflexivity |].
  destruct (expandPID (getpid e) (chomp raw)) as [input | |]; try reflexivity.
  destruct (parseInput input) as [[a n] |]; [| reflexivity].
  destruct (background_marker a n) as [[bg a'] n'].
  rewrite executeBuiltInCommand_set_mode.
  destruct (executeBuiltInCommand e a' n' s0) as [r s1 | c s1 | s1]; try reflexivity.
  destruct (negb (r =? 0)); [reflexivity |].
  apply executeCommand_set_mode.
Qed.

(** C2 (the code does not do this). The turn of the loop never reads the
    mode flag: setting the flag changes the outcome of a turn in the flag
    alone. After one terminal-stop signal the shell is in foreground-only
    mode, by its own banner; the line [sleep 5 &] is then still launched in
    the background: the parent prints the background pid and waits for
    nothing, and the child takes the background signal profile and the
    [/dev/null] defaults. *)
Theorem background_request_not_demoted :
  (forall b e s,
     main_iteration e (set_mode b s) = outcome_set_mode b (main_iteration e s))
  /\ is_foreground_only (handleSIGTSTP initial_shell) = true
  /\ main_iteration (env_line "sleep 5 &" 4568 [0]) (handleSIGTSTP initial_shell)
     = Continue (mkShell 0 true
                   [EvWrite STDOUT_FILENO entering_banner;
                    EvPrintf ": "; EvFflush; EvFork 4568;
                    EvPrintf ("Background pid is 4568" +++ nl)])
  /\ main_iteration (env_line "sleep 5 &" 0 []) (handleSIGTSTP initial_shell)
     = InChild (inr (Executed "sleep" ["sleep"; "5"]),
                mkChild [Some "sleep"; Some "5"; None; None] (-1) (-1) 2
                  [SysSignal SIGINT SIG_IGN; SysSignal SIGTSTP SIG_IGN;
                   SysOpen (Some "/dev/null") O_RDONLY None 3;
                   SysDup2 3 STDIN_FILENO; SysClose 3;
                   SysOpen (Some "/dev/null") O_WRONLY None 3;
                   SysDup2 3 STDOUT_FILENO; SysClose 3;
                   SysExecvp (Some "sleep") ["sleep"; "5"]])
               (mkShell 0 true
                  [EvWrite STDOUT_FILENO entering_banner;
                   EvPrintf ": "; EvFflush; EvFork 0]).
Proof.
  split; [exact main_iteration_ignores_mode |].
  split; [reflexivity |]. split; vm_compute; reflexivity.
Qed.

(** ** The child: redirection *)

Lemma next_cell (rest : list string) (junk : list (option string)) :
  nth 0 (map Some rest ++ None :: junk) None = hd_error rest.
Proof. destruct rest; reflexivity. Qed.

(** *** What a resolution is made of *)

Lemma resolution_calls toks evs ok :
  resolution toks evs ok ->
  exists pre tail,
    evs = pre ++ tail
    /\ Forall (fun c => rebinding_call c = true) pre
    /\ if ok then tail = []
       else exists path flags mode, tail = open_failure path flags mode.
Proof.
  induction 1 as [| t rest evs ok Hw _ IH
                  | rest fd evs ok Hfd _ IH | rest
                  | rest fd evs ok Hfd _ IH | rest].
  - exists [], []. repeat split. constructor.
  - exact IH.
  - destruct IH as (pre & tail & -> & F & T).
    exists (redirect_in (hd_error rest) fd ++ pre), tail.
    split; [rewrite <- app_assoc; reflexivity |]. split; [| exact T].
    apply Forall_app. split; [| exact F].
    unfold redirect_in, rebinding_call. apply Z.eqb_neq in Hfd.
    repeat constructor; simpl; rewrite ?Hfd; reflexivity.
  - exists [], (open_failure (hd_error rest) O_RDONLY None).
    repeat split; [constructor | eauto].
  - destruct IH as (pre & tail & -> & F & T).
    exists (redirect_out (hd_error rest) fd ++ pre), tail.
    split; [rewrite <- app_assoc; reflexivity |]. split; [| exact T].
    apply Forall_app. split; [| exact F].
    unfold redirect_out, rebinding_call. apply Z.eqb_neq in Hfd.
    repeat constructor; simpl; rewrite ?Hfd; reflexivity.
  - exists [], (open_failure (hd_error rest) O_OUTPUT (Some MODE_0644)).
    repeat split; [constructor | eauto].
Qed.

Lemma served_app tr pre post path flags mode target :
  served tr path flags mode target ->
  served (pre ++ tr ++ post) path flags mode target.
Proof.
  intros (p & fd & q & Hfd & ->).
  exists (pre ++ p), fd, (q ++ post). split; [exact Hfd |].
  rewrite <- !app_assoc. reflexivity.
Qed.

Lemma resolution_serves toks evs ok :
  resolution toks evs ok -> ok = true ->
  forall i path,
    nth_error toks (S i) = Some path ->
    (nth_error toks i = Some "<" ->
     served evs (Some path) O_RDONLY None STDIN_FILENO)
    /\ (nth_error toks i = Some ">" ->
        served evs (Some path) O_OUTPUT (Some MODE_0644) STDOUT_FILENO).
Proof.
  induction 1 as [| t rest evs ok Hw _ IH
                  | rest fd evs ok Hfd _ IH | rest
                  | rest fd evs ok Hfd _ IH | rest];
    intros Hok i path Hp; try discriminate.
  - destruct i as [| i].
    + simpl. unfold is_op, streq in Hw. apply orb_false_iff in Hw.
      destruct Hw as [W1 W2]. apply String.eqb_neq in W1, W2.
      split; intro H; inversion H; congruence.
    + simpl in Hp |- *. apply IH; assumption.
  - destruct i as [| i].
    + simpl in Hp |- *. split; [| discriminate]. intros _.
      assert (E : hd_error rest = Some path) by (destruct rest; [discriminate | exact Hp]).
      rewrite E. exists [], fd, evs. split; [exact Hfd | reflexivity].
    + simpl in Hp. destruct (IH Hok i path Hp) as [I1 I2].
      split; intro H; [apply I1 in H | apply I2 in H];
        apply (served_app _ (redirect_in (hd_error rest) fd) []) in H;
        rewrite app_nil_r in H; exact H.
  - destruct i as [| i].
    + simpl in Hp |- *. split; [discriminate |]. intros _.
      assert (E : hd_error rest = Some path) by (destruct rest; [discriminate | exact Hp]).
      rewrite E. exists [], fd, evs. split; [exact Hfd | reflexivity].
    + simpl in Hp. destruct (IH Hok i path Hp) as [I1 I2].
      split; intro H; [apply I1 in H | apply I2 in H];
        apply (served_app _ (redirect_out (hd_error rest) fd) []) in H;
        rewrite app_nil_r in H; exact H.
Qed.

(** *** What is left of the array *)

Lemma argv_cells toks junk :
  argv_of (map cell toks ++ None :: junk) = firstn (words_before_op toks) toks.
Proof.
  induction toks as [| t rest IH]; simpl; [reflexivity |].
  unfold cell at 1. destruct (is_op t); simpl; [reflexivity |].
  rewrite IH. reflexivity.
Qed.

Lemma words_before_op_le toks i t :
  nth_error toks i = Some t -> is_op t = true ->
  (words_before_op toks <= i)%nat.
Proof.
  revert i. induction toks as [| u rest IH]; intros i Hn Ho.
  - destruct i; discriminate.
  - simpl. destruct (is_op u) eqn:E; [lia |].
    destruct i as [| i]; simpl in Hn.
    + inversion Hn; subst. congruence.
    + apply IH in Hn; [lia | exact Ho].
Qed.

Lemma words_before_op_words toks t :
  In t (firstn (words_before_op toks) toks) -> is_op t = false.
Proof.
  induction toks as [| u rest IH]; simpl; [tauto |].
  destruct (is_op u) eqn:E; simpl; [tauto |].
  intros [-> | H]; [exact E | apply IH; exact H].
Qed.

Lemma length_words_before_op toks :
  List.length (firstn (words_before_op toks) toks) = words_before_op toks.
Proof.
  induction toks as [| u rest IH]; simpl; [reflexivity |].
  destruct (is_op u); simpl; [reflexivity | rewrite IH; reflexivity].
Qed.

(** *** Where a failed [open] and an [execvp] can stand in a trace *)

Lemma quiet_signals bg : Forall (fun c => quiet_call c = true) (signals bg).
Proof. destruct bg; repeat constructor. Qed.

Lemma quiet_rebinding evs :
  Forall (fun c => rebinding_call c = true) evs ->
  Forall (fun c => quiet_call c = true) evs.
Proof.
  apply Forall_impl. intros c H. unfold quiet_call. rewrite H. reflexivity.
Qed.

Lemma quiet_default need mk evs :
  (forall fd, fd <> -1 -> Forall (fun c => quiet_call c = true) (mk fd)) ->
  default_part need mk evs ->
  Forall (fun c => quiet_call c = true) evs.
Proof.
  intros Hmk. unfold default_part. destruct need.
  - intros (fd & Hfd & ->). apply Hmk. exact Hfd.
  - intros ->. constructor.
Qed.

Lemma quiet_devnull_in fd :
  fd <> -1 -> Forall (fun c => quiet_call c = true) (devnull_in fd).
Proof.
  intro H. apply Z.eqb_neq in H.
  unfold devnull_in, quiet_call, rebinding_call.
  repeat constructor; simpl; rewrite ?H; reflexivity.
Qed.

Lemma quiet_devnull_out fd :
  fd <> -1 -> Forall (fun c => quiet_call c = true) (devnull_out fd).
Proof.
  intro H. apply Z.eqb_neq in H.
  unfold devnull_out, quiet_call, rebinding_call.
  repeat constructor; simpl; rewrite ?H; reflexivity.
Qed.

Lemma quiet_not_failed q path flags mode :
  Forall (fun c => quiet_call c = true) q ->
  ~ In (SysOpen path flags mode (-1)) q.
Proof.
  intros F I. rewrite Forall_forall in F. apply F in I. discriminate.
Qed.

Lemma quiet_not_execvp q file argv :
  Forall (fun c => quiet_call c = true) q -> ~ In (SysExecvp file argv) q.
Proof.
  intros F I. rewrite Forall_forall in F. apply F in I. discriminate.
Qed.

Lemma failed_open_is_last q p0 fl0 m0 path flags mode :
  Forall (fun c => quiet_call c = true) q ->
  In (SysOpen path flags mode (-1)) (q ++ open_failure p0 fl0 m0) ->
  open_failure p0 fl0 m0 = open_failure path flags mode.
Proof.
  intros F I. apply in_app_or in I. destruct I as [I | I].
  - exfalso. exact (quiet_not_failed _ _ _ _ F I).
  - simpl in I. destruct I as [I | [I | [I | []]]]; try discriminate.
    inversion I. reflexivity.
Qed.

Lemma no_execvp_before_failure q p0 fl0 m0 file argv :
  Forall (fun c => quiet_call c = true) q ->
  ~ In (SysExecvp file argv) (q ++ open_failure p0 fl0 m0).
Proof.
  intros F I. apply in_app_or in I. destruct I as [I | I].
  - exact (quiet_not_execvp _ _ _ F I).
  - simpl in I. destruct I as [I | [I | [I | []]]]; discriminate.
Qed.

Lemma execvp_is_unique q f a tail file argv :
  Forall (fun c => quiet_call c = true) q ->
  tail = [] \/ tail = exec_failure ->
  In (SysExecvp file argv) (q ++ SysExecvp f a :: tail) ->
  file = f /\ argv = a.
Proof.
  intros F T I. apply in_app_or in I. destruct I as [I | [I | I]].
  - exfalso. exact (quiet_not_execvp _ _ _ F I).
  - inversion I. auto.
  - exfalso. destruct T as [-> | ->]; simpl in I; [tauto |].
    destruct I as [I | [I | []]]; discriminate.
Qed.

Lemma no_failure_before_execvp q f a tail path flags mode :
  Forall (fun c => quiet_call c = true) q ->
  tail = [] \/ tail = exec_failure ->
  ~ In (SysOpen path flags mode (-1)) (q ++ SysExecvp f a :: tail).
Proof.
  intros F T I. apply in_app_or in I. destruct I as [I | [I | I]].
  - exact (quiet_not_failed _ _ _ _ F I).
  - discriminate.
  - destruct T as [-> | ->]; simpl in I; [tauto |].
    destruct I as [I | [I | []]]; discriminate.
Qed.

(** *** The descriptor table after the defaults *)

Lemma fds_after_app tr1 tr2 t :
  fds_after (tr1 ++ tr2) t = fds_after tr2 (fds_after tr1 t).
Proof. unfold fds_after. apply fold_left_app. Qed.

Lemma fds_after_devnull_in fd t :
  2 < fd ->
  fds_after (devnull_in fd) t STDIN_FILENO = Some (Some "/dev/null", O_RDONLY).
Proof.
  intro H. unfold fds_after, devnull_in, STDIN_FILENO. simpl.
  destruct (Z.eqb_spec fd (-1)); [lia |]. simpl.
  unfold fd_set at 2. rewrite Z.eqb_refl. unfold fd_set.
  destruct (Z.eqb_spec 0 fd); [lia |]. reflexivity.
Qed.

Lemma fds_after_devnull_out fd t :
  2 < fd ->
  fds_after (devnull_out fd) t STDOUT_FILENO = Some (Some "/dev/null", O_WRONLY)
  /\ fds_after (devnull_out fd) t STDIN_FILENO = t STDIN_FILENO.
Proof.
  intro H. unfold fds_after, devnull_out, STDOUT_FILENO, STDIN_FILENO. simpl.
  destruct (Z.eqb_spec fd (-1)); [lia |]. simpl.
  unfold fd_set. rewrite !Z.eqb_refl. cbv beta iota.
  destruct (Z.eqb_spec 1 fd); [lia |].
  destruct (Z.eqb_spec 0 fd); [lia |]. split; reflexivity.
Qed.

Lemma fds_after_execvp f a tail t :
  tail = [] \/ tail = exec_failure ->
  fds_after (SysExecvp f a :: tail) t = t.
Proof. intros [-> | ->]; reflexivity. Qed.

Lemma above_std_devnull_in fd rest :
  fd <> -1 -> Forall (fun c => above_std c = true) (devnull_in fd ++ rest) ->
  2 < fd.
Proof.
  intros N F. inversion F as [| x l H _]; subst. simpl in H.
  apply orb_true_iff in H. destruct H as [H | H]; [apply Z.eqb_eq in H; lia |].
  apply Z.ltb_lt in H. exact H.
Qed.

Lemma above_std_devnull_out fd rest :
  fd <> -1 -> Forall (fun c => above_std c = true) (devnull_out fd ++ rest) ->
  2 < fd.
Proof.
  intros N F. inversion F as [| x l H _]; subst. simpl in H.
  apply orb_true_iff in H. destruct H as [H | H]; [apply Z.eqb_eq in H; lia |].
  apply Z.ltb_lt in H. exact H.
Qed.

Section ChildProofs.

Variable open_ret : nat -> option string -> Z -> Z.
Variable exec_ok : string -> list string -> bool.

(** The body of the loop at a [<], in one equation. *)
Lemma redirect_body_in i c :
  redirect_body open_ret i "<" c
  = let path := nth (i + 1) (args c) None in
    let fd := open_ret (nopen c) path O_RDONLY in
    if fd =? -1 then
      (inr (Exited EXIT_FAILURE),
       mkChild (args c) fd (out_redir c) (S (nopen c))
               (trace c ++ open_failure path O_RDONLY None))
    else
      (inl tt,
       mkChild (store i None (args c)) fd (out_redir c) (S (nopen c))
               (trace c ++ redirect_in path fd)).
Proof.
  unfold redirect_body, open, bind, tick_open, log, set_in_redir, perror, exit,
    dup2, close, set_arg, get_arg, ret, stop, open_failure, redirect_in.
  simpl.
  destruct (open_ret (nopen c) (nth (i + 1) (args c) None) O_RDONLY =? -1) eqn:E;
    simpl; rewrite <- ?app_assoc; simpl.
  - apply Z.eqb_eq in E. rewrite E. reflexivity.
  - reflexivity.
Qed.

Lemma redirect_body_out i c :
  redirect_body open_ret i ">" c
  = let path := nth (i + 1) (args c) None in
    let fd := open_ret (nopen c) path O_OUTPUT in
    if fd =? -1 then
      (inr (Exited EXIT_FAILURE),
       mkChild (args c) (in_redir c) fd (S (nopen c))
               (trace c ++ open_failure path O_OUTPUT (Some MODE_0644)))
    else
      (inl tt,
       mkChild (store i None (args c)) (in_redir c) fd (S (nopen c))
               (trace c ++ redirect_out path fd)).
Proof.
  unfold redirect_body, redirect_out.
  change (Z.lor (Z.lor O_WRONLY O_CREAT) O_TRUNC) with O_OUTPUT.
  generalize O_OUTPUT as fl. intro fl.
  unfold open, bind, tick_open, log, set_out_redir, perror, exit,
    dup2, close, set_arg, get_arg, ret, stop, open_failure, redirect_out.
  simpl.
  destruct (open_ret (nopen c) (nth (i + 1) (args c) None) fl =? -1) eqn:E;
    simpl; rewrite <- ?app_assoc; simpl.
  - apply Z.eqb_eq in E. rewrite E. reflexivity.
  - reflexivity.
Qed.

Lemma redirect_body_word i t c :
  is_op t = false -> redirect_body open_ret i t c = (inl tt, c).
Proof.
  unfold is_op. intro H. apply orb_false_iff in H. destruct H as [H1 H2].
  unfold redirect_body. rewrite H1, H2. reflexivity.
Qed.

Lemma is_op_cases t : (t = "<" \/ t = ">") \/ is_op t = false.
Proof.
  unfold is_op, streq.
  destruct (String.eqb_spec t "<"); [left; left; assumption |].
  destruct (String.eqb_spec t ">"); [left; right; assumption |].
  right. reflexivity.
Qed.

Lemma redirect_loop_step fuel i c :
  redirect_loop open_ret (S fuel) i c
  = match nth i (args c) None with
    | None => (inl true, c)
    | Some tok =>
        match redirect_body open_ret i tok c with
        | (inl _, c1) => redirect_loop open_ret fuel (S i) c1
        | (inr e, c1) => (inr e, c1)
        end
    end.
Proof.
  simpl. unfold bind, get_arg, ret.
  destruct (nth i (args c) None); reflexivity.
Qed.

(** The loop over the cells of [rest], entered with the array
    [pre ++ rest ++ NULL ++ junk] at the index after [pre]: its calls are a
    resolution of [rest]; when it gets to the end every operator cell has
    become NULL and [in_redir], [out_redir] tell whether an operator of
    their kind was met. *)
Lemma redirect_loop_resolution (junk : list (option string))
    (rest : list string) :
  forall pre fuel c,
    args c = pre ++ map Some rest ++ None :: junk ->
    (List.length rest < fuel)%nat ->
    exists evs ok,
      resolution rest evs ok
      /\ match redirect_loop open_ret fuel (List.length pre) c with
         | (r, c') =>
             trace c' = trace c ++ evs
             /\ if ok then
                  r = inl true
                  /\ args c' = pre ++ map cell rest ++ None :: junk
                  /\ (in_redir c' = -1 <-> in_redir c = -1 /\ ~ In "<" rest)
                  /\ (out_redir c' = -1 <-> out_redir c = -1 /\ ~ In ">" rest)
                else r = inr (Exited EXIT_FAILURE)
         end.
Proof.
  induction rest as [| t rest IH]; intros pre fuel c Hargs Hfuel;
    (destruct fuel as [| fuel]; [simpl in Hfuel; lia |]);
    rewrite redirect_loop_step, Hargs.
  - simpl. rewrite nth_cells.
    exists [], true. split; [constructor |].
    rewrite app_nil_r. repeat split; tauto.
  - simpl map. simpl app. rewrite nth_cells.
    assert (Hf : (List.length rest < fuel)%nat) by (simpl in Hfuel; lia).
    destruct (is_op_cases t) as [[-> | ->] | Hw].
    + (* an input redirection *)
      rewrite redirect_body_in. cbv zeta.
      rewrite Hargs. simpl map. simpl app.
      rewrite nth_after_cell, next_cell, store_cells.
      set (fd := open_ret (nopen c) (hd_error rest) O_RDONLY).
      destruct (Z.eqb_spec fd (-1)) as [E | NE].
      * exists (open_failure (hd_error rest) O_RDONLY None), false.
        split; [apply rs_in_fails |]. simpl. split; reflexivity.
      * match goal with |- context [redirect_loop _ _ _ ?c2] =>
          destruct (IH (pre ++ [None]) fuel c2) as (evs & ok & R & P)
        end.
        { simpl. apply cells_snoc. }
        { exact Hf. }
        rewrite length_snoc in P.
        exists (redirect_in (hd_error rest) fd ++ evs), ok.
        split; [apply rs_in; assumption |].
        destruct (redirect_loop _ _ _ _) as [r c'].
        destruct P as [Ptr Pok]. simpl in Ptr.
        split; [rewrite Ptr, <- app_assoc; reflexivity |].
        destruct ok; [| exact Pok].
        destruct Pok as (Pr & Pa & Pi & Po). simpl in Pi, Po.
        split; [exact Pr |]. split.
        { rewrite Pa, <- app_assoc. reflexivity. }
        split.
        { split; [intro H; apply Pi in H; tauto |].
          intros [_ H]. exfalso. apply H. left. reflexivity. }
        { rewrite Po. split; intros [H1 H2]; split; auto.
          - intros [H | H]; [discriminate | auto].
          - intro H. apply H2. right. exact H. }
    + (* an output redirection *)
      rewrite redirect_body_out. cbv zeta.
      rewrite Hargs. simpl map. simpl app.
      rewrite nth_after_cell, next_cell, store_cells.
      set (fd := open_ret (nopen c) (hd_error rest) O_OUTPUT).
      destruct (Z.eqb_spec fd (-1)) as [E | NE].
      * exists (open_failure (hd_error rest) O_OUTPUT (Some MODE_0644)), false.
        split; [apply rs_out_fails |]. simpl. split; reflexivity.
      * match goal with |- context [redirect_loop _ _ _ ?c2] =>
          destruct (IH (pre ++ [None]) fuel c2) as (evs & ok & R & P)
        end.
        { simpl. apply cells_snoc. }
        { exact Hf. }
        rewrite length_snoc in P.
        exists (redirect_out (hd_error rest) fd ++ evs), ok.
        split; [apply rs_out; assumption |].
        destruct (redirect_loop _ _ _ _) as [r c'].
        destruct P as [Ptr Pok]. simpl in Ptr.
        split; [rewrite Ptr, <- app_assoc; reflexivity |].
        destruct ok; [| exact Pok].
        destruct Pok as (Pr & Pa & Pi & Po). simpl in Pi, Po.
        split; [exact Pr |]. split.
        { rewrite Pa, <- app_assoc. reflexivity. }
        split.
        { rewrite Pi. split; intros [H1 H2]; split; auto.
          - intros [H | H]; [discriminate | auto].
          - intro H. apply H2. right. exact H. }
        { split; [intro H; apply Po in H; tauto |].
          intros [_ H]. exfalso. apply H. left. reflexivity. }
    + (* any other token *)
      rewrite redirect_body_word by exact Hw.
      destruct (IH (pre ++ [Some t]) fuel c) as (evs & ok & R & P).
      { rewrite Hargs. simpl. apply cells_snoc. }
      { exact Hf. }
      rewrite length_snoc in P.
      exists evs, ok. split; [apply rs_word; assumption |].
      destruct (redirect_loop _ _ _ _) as [r c'].
      destruct P as [Ptr Pok]. split; [exact Ptr |].
      destruct ok; [| exact Pok].
      destruct Pok as (Pr & Pa & Pi & Po).
      assert (Hlt : t <> "<" /\ t <> ">").
      { unfold is_op, streq in Hw. apply orb_false_iff in Hw. destruct Hw as [W1 W2].
        apply String.eqb_neq in W1, W2. split; assumption. }
      split; [exact Pr |]. split.
      { rewrite Pa, <- app_assoc. simpl. unfold cell at 2. rewrite Hw. reflexivity. }
      split.
      { rewrite Pi. split; intros [H1 H2]; split; auto.
        - intros [H | H]; [destruct Hlt; contradiction | auto].
        - intro H. apply H2. right. exact H. }
      { rewrite Po. split; intros [H1 H2]; split; auto.
        - intros [H | H]; [destruct Hlt; contradiction | auto].
        - intro H. apply H2. right. exact H. }
Qed.

Lemma bind_inl {A B} (m : M A) (k : A -> M B) c a c' :
  m c = (inl a, c') -> bind m k c = k a c'.
Proof. unfold bind. intros ->. reflexivity. Qed.

Lemma bind_inr {A B} (m : M A) (k : A -> M B) c e c' :
  m c = (inr e, c') -> bind m k c = (inr e, c').
Proof. unfold bind. intros ->. reflexivity. Qed.

Lemma signals_stage (bg : bool) c :
  ((if bg then signal SIGINT SIG_IGN ;;; signal SIGTSTP SIG_IGN
    else signal SIGINT SIG_DFL ;;; signal SIGTSTP SIG_IGN) : M unit) c
  = (inl tt, mkChild (args c) (in_redir c) (out_redir c) (nopen c)
                     (trace c ++ signals bg)).
Proof.
  destruct bg; unfold signal, bind, log, signals; simpl;
    rewrite <- app_assoc; reflexivity.
Qed.

(** The [/dev/null] stage: it leaves [args] alone and either binds what
    has no explicit redirection, or dies at the [open] that failed. *)
Lemma background_defaults_shape c :
  match background_defaults open_ret c with
  | (r, c') =>
      args c' = args c
      /\ exists din dout,
           trace c' = trace c ++ din ++ dout
           /\ ((r = inl tt
                /\ default_part (in_redir c =? -1) devnull_in din
                /\ default_part (out_redir c =? -1) devnull_out dout)
               \/ (r = inr (Exited EXIT_FAILURE)
                   /\ in_redir c = -1
                   /\ din = open_failure (Some "/dev/null") O_RDONLY None
                   /\ dout = [])
               \/ (r = inr (Exited EXIT_FAILURE)
                   /\ out_redir c = -1
                   /\ default_part (in_redir c =? -1) devnull_in din
                   /\ dout = open_failure (Some "/dev/null") O_WRONLY None))
  end.
Proof.
  unfold background_defaults, open, bind, tick_open, log, perror, exit, dup2,
    close, get_in_redir, get_out_redir, ret, stop. simpl.
  destruct (Z.eqb_spec (in_redir c) (-1)) as [Ei | Ei]; simpl.
  - set (fd1 := open_ret (nopen c) (Some "/dev/null") O_RDONLY).
    destruct (Z.eqb_spec fd1 (-1)) as [E1 | E1]; simpl.
    + split; [reflexivity |].
      exists (open_failure (Some "/dev/null") O_RDONLY None), [].
      split; [rewrite E1, app_nil_r, <- !app_assoc; reflexivity |].
      right. left. auto.
    + destruct (Z.eqb_spec (out_redir c) (-1)) as [Eo | Eo]; simpl.
      * set (fd2 := open_ret (S (nopen c)) (Some "/dev/null") O_WRONLY).
        destruct (Z.eqb_spec fd2 (-1)) as [E2 | E2]; simpl.
        { split; [reflexivity |].
          exists (devnull_in fd1), (open_failure (Some "/dev/null") O_WRONLY None).
          split; [rewrite E2, <- !app_assoc; reflexivity |].
          right. right. repeat split; auto. exists fd1. auto. }
        { split; [reflexivity |].
          exists (devnull_in fd1), (devnull_out fd2).
          split; [rewrite <- !app_assoc; reflexivity |].
          left. repeat split; [exists fd1 | exists fd2]; auto. }
      * split; [reflexivity |].
        exists (devnull_in fd1), [].
        split; [rewrite app_nil_r, <- !app_assoc; reflexivity |].
        left. repeat split. exists fd1. auto.
  - destruct (Z.eqb_spec (out_redir c) (-1)) as [Eo | Eo]; simpl.
    + set (fd2 := open_ret (nopen c) (Some "/dev/null") O_WRONLY).
      destruct (Z.eqb_spec fd2 (-1)) as [E2 | E2]; simpl.
      * split; [reflexivity |].
        exists [], (open_failure (Some "/dev/null") O_WRONLY None).
        split; [rewrite E2, <- !app_assoc; reflexivity |].
        right. right. repeat split; auto.
      * split; [reflexivity |].
        exists [], (devnull_out fd2).
        split; [rewrite <- !app_assoc; reflexivity |].
        left. repeat split. exists fd2. auto.
    + split; [reflexivity |]. exists [], [].
      split; [rewrite app_nil_r; reflexivity |]. left. repeat split.
Qed.

(** The last stage: [execvp] on [args[0]] and the array, and the report
    and exit when it comes back. *)
Lemma exec_stage_shape (done : bool) c :
  match (a0 <- get_arg 0 ;;
         a' <- get_args ;;
         r <- execvp exec_ok a0 a' ;;
         (if r =? -1 then perror "smallsh" ;;; exit EXIT_FAILURE else ret tt) ;;;
         ret done) c with
  | (r, c') =>
      args c' = args c
      /\ exists tail,
           trace c' = trace c ++ SysExecvp (nth 0 (args c) None) (argv_of (args c))
                                 :: tail
           /\ ((tail = [] /\ r = inr Faulted /\ nth 0 (args c) None = None)
               \/ (tail = []
                   /\ exists f, nth 0 (args c) None = Some f
                                /\ r = inr (Executed f (argv_of (args c))))
               \/ (tail = exec_failure /\ r = inr (Exited EXIT_FAILURE)))
  end.
Proof.
  unfold bind, get_arg, get_args, execvp, log, perror, exit, ret, stop, bind.
  simpl.
  destruct (nth 0 (args c) None) as [f |]; simpl.
  - destruct (exec_ok f (argv_of (args c))); simpl.
    + split; [reflexivity |]. exists []. split; [reflexivity |].
      right. left. split; [reflexivity |]. exists f. auto.
    + split; [reflexivity |]. exists exec_failure.
      split; [rewrite <- !app_assoc; reflexivity |]. right. right. auto.
  - split; [reflexivity |]. exists []. split; [reflexivity |]. left. auto.
Qed.

Lemma mentions_spec op toks : mentions op toks = true <-> In op toks.
Proof.
  unfold mentions. rewrite existsb_exists. split.
  - intros (x & I & E). apply String.eqb_eq in E. subst. exact I.
  - intro I. exists op. split; [exact I | apply String.eqb_refl].
Qed.

Lemma redir_flag_spec v op toks :
  (v = -1 <-> -1 = -1 /\ ~ In op toks) ->
  (v =? -1) = negb (mentions op toks).
Proof.
  intro H. destruct (mentions op toks) eqn:E; simpl.
  - apply mentions_spec in E. apply Z.eqb_neq. intro V. apply H in V. tauto.
  - apply Z.eqb_eq. apply H. split; [reflexivity |].
    intro I. apply mentions_spec in I. congruence.
Qed.

(** The whole life of a child, stage by stage: the signal profile, the
    resolution of the explicit redirections, the [/dev/null] defaults of a
    background child, and [execvp] on what is left of the array. It ends
    at the first [open] that fails, or at [execvp]. *)
Lemma run_child_shape toks junk bg :
  exists evs ok,
    resolution toks evs ok
    /\ match run_child open_ret exec_ok (args_then toks junk) bg with
       | (r, c) =>
           (ok = false /\ r = inr (Exited EXIT_FAILURE)
            /\ trace c = signals bg ++ evs)
           \/ (ok = true /\ bg = true /\ r = inr (Exited EXIT_FAILURE)
               /\ exists din dout,
                    trace c = signals bg ++ evs ++ din ++ dout
                    /\ ((~ In "<" toks
                         /\ din = open_failure (Some "/dev/null") O_RDONLY None
                         /\ dout = [])
                        \/ (~ In ">" toks
                            /\ default_part (negb (mentions "<" toks)) devnull_in din
                            /\ dout = open_failure (Some "/dev/null") O_WRONLY None)))
           \/ (ok = true
               /\ args c = map cell toks ++ None :: junk
               /\ exists din dout tail,
                    default_part (bg && negb (mentions "<" toks)) devnull_in din
                    /\ default_part (bg && negb (mentions ">" toks)) devnull_out dout
                    /\ trace c = signals bg ++ evs ++ din ++ dout
                                 ++ SysExecvp (nth 0 (args c) None) (argv_of (args c))
                                    :: tail
                    /\ ((tail = [] /\ r = inr Faulted /\ nth 0 (args c) None = None)
                        \/ (tail = []
                            /\ exists f, nth 0 (args c) None = Some f
                                         /\ r = inr (Executed f (argv_of (args c))))
                        \/ (tail = exec_failure /\ r = inr (Exited EXIT_FAILURE))))
       end.
Proof.
  unfold run_child, child_branch.
  erewrite bind_inl by apply signals_stage.
  erewrite bind_inl by reflexivity.
  set (c1 := mkChild _ _ _ _ _).
  destruct (redirect_loop_resolution junk toks [] (List.length (args c1)) c1)
    as (evs & ok & R & P).
  { reflexivity. }
  { simpl. unfold args_then. rewrite length_app, length_map. simpl. lia. }
  exists evs, ok. split; [exact R |].
  change (List.length (@nil (option string))) with 0%nat in P.
  destruct (redirect_loop open_ret (List.length (args c1)) 0 c1) as [r2 c2] eqn:L.
  destruct P as [Ptr Pok]. simpl in Ptr.
  destruct ok.
  - destruct Pok as (-> & Pa & Pi & Po). simpl in Pa, Pi, Po.
    apply redir_flag_spec in Pi, Po.
    erewrite bind_inl by exact L.
    destruct bg.
    + pose proof (background_defaults_shape c2) as D.
      destruct (background_defaults open_ret c2) as [r3 c3] eqn:B.
      destruct D as (Da & din & dout & Dt & D).
      rewrite Pi, Po in D.
      destruct D as [(-> & Din & Dout) | [(-> & Ei & -> & ->) | (-> & Eo & Din & ->)]].
      * erewrite bind_inl by exact B.
        pose proof (exec_stage_shape true c3) as X.
        match goal with |- context [match ?t with _ => _ end] =>
          destruct t as [r c] end.
        destruct X as (Xa & tail & Xt & X).
        right. right. split; [reflexivity |].
        split; [congruence |].
        exists din, dout, tail. simpl.
        split; [exact Din |]. split; [exact Dout |].
        rewrite Xa. split; [| exact X].
        rewrite Xt, Dt, Ptr, <- !app_assoc. reflexivity.
      * erewrite bind_inr by exact B.
        right. left. repeat split.
        exists (open_failure (Some "/dev/null") O_RDONLY None), [].
        split; [rewrite Dt, Ptr, <- !app_assoc; reflexivity |].
        left. repeat split.
        intro I. apply mentions_spec in I.
        apply Z.eqb_eq in Ei. rewrite Pi, I in Ei. discriminate.
      * erewrite bind_inr by exact B.
        right. left. repeat split.
        exists din, (open_failure (Some "/dev/null") O_WRONLY None).
        split; [rewrite Dt, Ptr, <- !app_assoc; reflexivity |].
        right. repeat split; [| exact Din].
        intro I. apply mentions_spec in I.
        apply Z.eqb_eq in Eo. rewrite Po, I in Eo. discriminate.
    + erewrite bind_inl by reflexivity.
      pose proof (exec_stage_shape true c2) as X.
      match goal with |- context [match ?t with _ => _ end] =>
        destruct t as [r c] end.
      destruct X as (Xa & tail & Xt & X).
      right. right. split; [reflexivity |].
      split; [congruence |].
      exists [], [], tail. simpl.
      split; [reflexivity |]. split; [reflexivity |].
      rewrite Xa. split; [| exact X].
      rewrite Xt, Ptr. reflexivity.
  - subst r2. erewrite bind_inr by exact L.
    left. repeat split. exact Ptr.
Qed.

(** The two ways a child ends: at a failed [open], with nothing but quiet
    calls before it; or at [execvp], after the signal profile, the explicit
    redirections and the defaults, with the cells before the first
    operator as argument vector. *)
Lemma run_child_ends toks junk bg r c :
  run_child open_ret exec_ok (args_then toks junk) bg = (r, c) ->
  (r = inr (Exited EXIT_FAILURE)
   /\ exists q path flags mode,
        Forall (fun x => quiet_call x = true) q
        /\ trace c = q ++ open_failure path flags mode)
  \/ (exists evs din dout tail,
        resolution toks evs true
        /\ default_part (bg && negb (mentions "<" toks)) devnull_in din
        /\ default_part (bg && negb (mentions ">" toks)) devnull_out dout
        /\ trace c = (signals bg ++ evs ++ din ++ dout)
                     ++ SysExecvp (hd_error (firstn (words_before_op toks) toks))
                                  (firstn (words_before_op toks) toks)
                        :: tail
        /\ Forall (fun x => quiet_call x = true) (signals bg ++ evs ++ din ++ dout)
        /\ ((tail = [] /\ r = inr Faulted /\ words_before_op toks = O)
            \/ (tail = []
                /\ exists f, hd_error toks = Some f /\ is_op f = false
                             /\ r = inr (Executed f (firstn (words_before_op toks) toks)))
            \/ (tail = exec_failure /\ r = inr (Exited EXIT_FAILURE)))).
Proof.
  intro Hrun.
  destruct (run_child_shape toks junk bg) as (evs & ok & R & S).
  rewrite Hrun in S.
  pose proof (resolution_calls _ _ _ R) as (pre & rtail & Hevs & Fpre & Htail).
  destruct S as [(-> & -> & St) | [(-> & -> & -> & din & dout & St & D) | (-> & Sa & S)]].
  - left. split; [reflexivity |].
    destruct Htail as (path & flags & mode & ->).
    exists (signals bg ++ pre), path, flags, mode. split.
    + apply Forall_app. split; [apply quiet_signals | apply quiet_rebinding; exact Fpre].
    + rewrite St, Hevs, <- app_assoc. reflexivity.
  - left. split; [reflexivity |]. subst rtail. rewrite app_nil_r in Hevs. subst pre.
    destruct D as [(_ & -> & ->) | (_ & Din & ->)].
    + exists (signals true ++ evs), (Some "/dev/null"), O_RDONLY, None. split.
      * apply Forall_app. split; [apply quiet_signals | apply quiet_rebinding; exact Fpre].
      * rewrite St, app_nil_r, <- app_assoc. reflexivity.
    + exists (signals true ++ evs ++ din), (Some "/dev/null"), O_WRONLY, None. split.
      * apply Forall_app. split; [apply quiet_signals |].
        apply Forall_app. split; [apply quiet_rebinding; exact Fpre |].
        eapply quiet_default; [apply quiet_devnull_in | exact Din].
      * rewrite St, <- !app_assoc. reflexivity.
  - right. subst rtail. rewrite app_nil_r in Hevs. subst pre.
    destruct S as (din & dout & tail & Din & Dout & St & X).
    rewrite Sa, argv_cells in St, X.
    assert (H0 : nth 0 (map cell toks ++ None :: junk) None
                 = hd_error (firstn (words_before_op toks) toks)).
    { destruct toks as [| t rest]; [reflexivity |].
      simpl. unfold cell. destruct (is_op t); reflexivity. }
    rewrite H0 in St, X.
    exists evs, din, dout, tail.
    split; [exact R |]. split; [exact Din |]. split; [exact Dout |].
    split; [rewrite St, <- !app_assoc; reflexivity |].
    split.
    + apply Forall_app. split; [apply quiet_signals |].
      apply Forall_app. split; [apply quiet_rebinding; exact Fpre |].
      apply Forall_app. split.
      * eapply quiet_default; [apply quiet_devnull_in | exact Din].
      * eapply quiet_default; [apply quiet_devnull_out | exact Dout].
    + destruct X as [(-> & -> & X) | [(-> & f & Xf & ->) | (-> & ->)]].
      * left. repeat split.
        destruct toks as [| t rest]; [reflexivity |].
        simpl in X |- *. destruct (is_op t); [reflexivity | discriminate].
      * right. left. split; [reflexivity |]. exists f.
        destruct toks as [| t rest]; [discriminate |].
        simpl in Xf |- *. destruct (is_op t) eqn:E; [discriminate |].
        simpl in Xf. inversion Xf; subst. auto.
      * right. right. auto.
Qed.

Lemma open_flags_facts :
  Z.land O_RDONLY O_ACCMODE = O_RDONLY
  /\ Z.land O_RDONLY O_CREAT = 0 /\ Z.land O_RDONLY O_TRUNC = 0
  /\ Z.land O_OUTPUT O_ACCMODE = O_WRONLY
  /\ Z.land O_OUTPUT O_CREAT = O_CREAT /\ Z.land O_OUTPUT O_TRUNC = O_TRUNC
  /\ MODE_0644 = 420.
Proof. repeat split. Qed.

(** C3. In the child of any invocation: for a [<] followed by a path the
    trace holds, three calls in a row, the [open] of that path read-only,
    the [dup2] of the descriptor onto standard input and its [close], and
    for a [>] followed by a path the [open] write-only with create and
    truncate and mode 0644, the [dup2] onto standard output and the
    [close], unless the child died at a failed [open]. The vector handed
    to [execvp] is the tokens before the first operator: it holds no
    operator, and it ends before the place of every operator, hence before
    every path token too. An [open] that returns [-1] is followed by
    [perror], [exit(EXIT_FAILURE)] and nothing else, [EXIT_FAILURE] is not
    zero, and no [execvp] happens. *)
Theorem explicit_redirections_resolved toks junk bg r c :
  run_child open_ret exec_ok (args_then toks junk) bg = (r, c) ->
  (forall i path,
     nth_error toks (S i) = Some path ->
     (nth_error toks i = Some "<" ->
      served (trace c) (Some path) O_RDONLY None STDIN_FILENO
      \/ died_at_open r (trace c))
     /\ (nth_error toks i = Some ">" ->
         served (trace c) (Some path) O_OUTPUT (Some MODE_0644) STDOUT_FILENO
         \/ died_at_open r (trace c)))
  /\ (forall file argv,
        In (SysExecvp file argv) (trace c) ->
        argv = firstn (words_before_op toks) toks
        /\ (forall t, In t argv -> t <> "<" /\ t <> ">")
        /\ (forall i, nth_error toks i = Some "<" \/ nth_error toks i = Some ">" ->
                      (List.length argv <= i)%nat))
  /\ (forall path flags mode,
        In (SysOpen path flags mode (-1)) (trace c) ->
        r = inr (Exited EXIT_FAILURE)
        /\ EXIT_FAILURE <> 0
        /\ (exists q, trace c = q ++ open_failure path flags mode)
        /\ forall file argv, ~ In (SysExecvp file argv) (trace c))
  /\ (Z.land O_RDONLY O_ACCMODE = O_RDONLY
      /\ Z.land O_OUTPUT O_ACCMODE = O_WRONLY
      /\ Z.land O_OUTPUT O_CREAT = O_CREAT
      /\ Z.land O_OUTPUT O_TRUNC = O_TRUNC
      /\ MODE_0644 = 420).
Proof.
  intro Hrun. apply run_child_ends in Hrun.
  destruct Hrun as [(-> & q & p0 & fl0 & m0 & Fq & Htr)
                   | (evs & din & dout & tail & R & Din & Dout & Htr & Fq & X)].
  - (* the child died at an open *)
    assert (Dead : died_at_open (inr (Exited EXIT_FAILURE)) (trace c)).
    { split; [reflexivity |]. exists q, p0, fl0, m0. exact Htr. }
    split; [| split; [| split]].
    + intros i path _. split; intros _; right; exact Dead.
    + intros file argv I. exfalso. rewrite Htr in I.
      exact (no_execvp_before_failure _ _ _ _ _ _ Fq I).
    + intros path flags mode I. rewrite Htr in I |- *.
      split; [reflexivity |]. split; [discriminate |]. split.
      * exists q. rewrite (failed_open_is_last _ _ _ _ _ _ _ Fq I). reflexivity.
      * intros file argv. apply no_execvp_before_failure. exact Fq.
    + repeat split.
  - (* the child reached execvp *)
    assert (T : tail = [] \/ tail = exec_failure).
    { destruct X as [(-> & _) | [(-> & _) | (-> & _)]]; auto. }
    split; [| split; [| split]].
    + intros i path Hp.
      destruct (resolution_serves _ _ _ R eq_refl i path Hp) as [S1 S2].
      split; intro H; left; [apply S1 in H | apply S2 in H];
        rewrite Htr, <- !app_assoc; apply served_app; exact H.
    + intros file argv I. rewrite Htr in I.
      destruct (execvp_is_unique _ _ _ _ _ _ Fq T I) as [_ ->].
      split; [reflexivity |]. split.
      * intros t It. apply words_before_op_words in It.
        unfold is_op, streq in It. apply orb_false_iff in It.
        destruct It as [I1 I2]. apply String.eqb_neq in I1, I2. auto.
      * intros i Hi. rewrite length_words_before_op.
        destruct Hi as [Hi | Hi];
          exact (words_before_op_le _ _ _ Hi eq_refl).
    + intros path flags mode I. exfalso. rewrite Htr in I.
      exact (no_failure_before_execvp _ _ _ _ _ _ _ Fq T I).
    + repeat split.
Qed.

(** C4. The child of any invocation either dies at a failed [open] or gets
    to [execvp] with a trace made of, in this order: its signal profile,
    the calls of the explicit redirections, the default for standard
    input, the default for standard output, and [execvp]. In a background
    child the default for input is the [open] of [/dev/null] read-only,
    [dup2] onto standard input and [close] when the tokens hold no [<],
    and nothing when they hold one; the same for output with [>] and
    write-only. In a foreground child both defaults are empty. *)
Theorem background_defaults_to_devnull toks junk bg r c :
  run_child open_ret exec_ok (args_then toks junk) bg = (r, c) ->
  died_at_open r (trace c)
  \/ exists evs din dout file argv tail,
       resolution toks evs true
       /\ trace c = signals bg ++ evs ++ din ++ dout ++ SysExecvp file argv :: tail
       /\ (tail = [] \/ tail = exec_failure)
       /\ (bg = true -> ~ In "<" toks ->
           exists fd, fd <> -1 /\ din = devnull_in fd)
       /\ (bg = true -> In "<" toks -> din = [])
       /\ (bg = true -> ~ In ">" toks ->
           exists fd, fd <> -1 /\ dout = devnull_out fd)
       /\ (bg = true -> In ">" toks -> dout = [])
       /\ (bg = false -> din = [] /\ dout = [])
       /\ (Forall (fun x => above_std x = true) (trace c) ->
           forall t0,
             (bg = true -> ~ In "<" toks ->
              fds_after (trace c) t0 STDIN_FILENO
              = Some (Some "/dev/null", O_RDONLY))
             /\ (bg = true -> ~ In ">" toks ->
                 fds_after (trace c) t0 STDOUT_FILENO
                 = Some (Some "/dev/null", O_WRONLY))).
Proof.
  intro Hrun. apply run_child_ends in Hrun.
  destruct Hrun as [(-> & q & p0 & fl0 & m0 & Fq & Htr)
                   | (evs & din & dout & tail & R & Din & Dout & Htr & Fq & X)].
  - left. split; [reflexivity |]. exists q, p0, fl0, m0. exact Htr.
  - right.
    exists evs, din, dout, (hd_error (firstn (words_before_op toks) toks)),
      (firstn (words_before_op toks) toks), tail.
    split; [exact R |].
    split; [rewrite Htr, <- !app_assoc; reflexivity |].
    split; [destruct X as [(-> & _) | [(-> & _) | (-> & _)]]; auto |].
    unfold default_part in Din, Dout.
    assert (T : tail = [] \/ tail = exec_failure)
      by (destruct X as [(-> & _) | [(-> & _) | (-> & _)]]; auto).
    assert (Hin : bg = true -> ~ In "<" toks ->
                  exists fd, fd <> -1 /\ din = devnull_in fd).
    { intros -> N. destruct (mentions "<" toks) eqn:E; [| exact Din].
      apply mentions_spec in E. contradiction. }
    assert (Hout : bg = true -> ~ In ">" toks ->
                   exists fd, fd <> -1 /\ dout = devnull_out fd).
    { intros -> N. destruct (mentions ">" toks) eqn:E; [| exact Dout].
      apply mentions_spec in E. contradiction. }
    split; [exact Hin |].
    split; [intros -> I; apply mentions_spec in I; rewrite I in Din; exact Din |].
    split; [exact Hout |].
    split; [intros -> I; apply mentions_spec in I; rewrite I in Dout; exact Dout |].
    split; [intros ->; split; [exact Din | exact Dout] |].
    intros Fstd t0. rewrite Htr in Fstd |- *.
    rewrite <- !app_assoc in Fstd.
    apply Forall_app in Fstd. destruct Fstd as [_ Fstd].
    apply Forall_app in Fstd. destruct Fstd as [_ Fstd].
    rewrite <- !app_assoc, !fds_after_app.
    set (t1 := fds_after evs (fds_after (signals bg) t0)).
    split.
    + intros Hbg N. destruct (Hin Hbg N) as (fd1 & N1 & ->).
      pose proof (above_std_devnull_in _ _ N1 Fstd) as A1.
      rewrite (fds_after_execvp _ _ _ _ T).
      apply Forall_app in Fstd. destruct Fstd as [_ Fstd].
      subst bg.
      destruct (mentions ">" toks); simpl in Dout.
      * subst dout. simpl. apply fds_after_devnull_in. exact A1.
      * destruct Dout as (fd2 & N2 & ->).
        pose proof (above_std_devnull_out _ _ N2 Fstd) as A2.
        rewrite (proj2 (fds_after_devnull_out fd2 _ A2)).
        apply fds_after_devnull_in. exact A1.
    + intros Hbg N. destruct (Hout Hbg N) as (fd2 & N2 & ->).
      apply Forall_app in Fstd. destruct Fstd as [_ Fstd].
      pose proof (above_std_devnull_out _ _ N2 Fstd) as A2.
      rewrite (fds_after_execvp _ _ _ _ T).
      apply fds_after_devnull_out. exact A2.
Qed.

End ChildProofs.

Lemma explicit_redirections_resolved_witness :
  (exists r c,
     run_child open_always exec_always
               (args_of ["cat"; "<"; "in"; "-n"; ">"; "out"]) false = (r, c)
     /\ (served (trace c) (Some "in") O_RDONLY None STDIN_FILENO
         \/ died_at_open r (trace c))
     /\ (served (trace c) (Some "out") O_OUTPUT (Some MODE_0644) STDOUT_FILENO
         \/ died_at_open r (trace c))
     /\ (In (SysExecvp (Some "cat") ["cat"]) (trace c) ->
         ["cat"] = firstn (words_before_op ["cat"; "<"; "in"; "-n"; ">"; "out"])
                          ["cat"; "<"; "in"; "-n"; ">"; "out"]))
  /\ (exists r c,
        run_child open_but_missing exec_always
                  (args_of ["cat"; "<"; "missing"]) false = (r, c)
        /\ r = inr (Exited EXIT_FAILURE)).
Proof.
  split.
  - destruct (run_child open_always exec_always
                (args_of ["cat"; "<"; "in"; "-n"; ">"; "out"]) false)
      as [r c] eqn:E.
    exists r, c. split; [reflexivity |].
    destruct (explicit_redirections_resolved open_always exec_always
                ["cat"; "<"; "in"; "-n"; ">"; "out"] [] _ _ _ E)
      as (H1 & H2 & _).
    split; [| split].
    + apply (proj1 (H1 1%nat "in" eq_refl)). reflexivity.
    + apply (proj2 (H1 4%nat "out" eq_refl)). reflexivity.
    + intro I. exact (proj1 (H2 _ _ I)).
  - destruct (run_child open_but_missing exec_always
                (args_of ["cat"; "<"; "missing"]) false) as [r c] eqn:E.
    exists r, c. split; [reflexivity |].
    destruct (explicit_redirections_resolved open_but_missing exec_always
                ["cat"; "<"; "missing"] [] _ _ _ E)
      as (_ & _ & H3 & _).
    apply (H3 (Some "missing") O_RDONLY None).
    vm_compute in E. inversion E. simpl. auto.
Defined.

Lemma background_defaults_to_devnull_witness :
  exists r c,
    run_child open_always exec_always (args_then ["sleep"; "5"] [None]) true
    = (r, c)
    /\ (died_at_open r (trace c)
        \/ exists evs din dout file argv tail,
             trace c = signals true ++ evs ++ din ++ dout
                       ++ SysExecvp file argv :: tail
             /\ (exists fd, fd <> -1 /\ din = devnull_in fd)
             /\ (exists fd, fd <> -1 /\ dout = devnull_out fd)
             /\ fds_after (trace c) (fun _ => None) STDIN_FILENO
                = Some (Some "/dev/null", O_RDONLY)
             /\ fds_after (trace c) (fun _ => None) STDOUT_FILENO
                = Some (Some "/dev/null", O_WRONLY)).
Proof.
  destruct (run_child open_always exec_always
              (args_then ["sleep"; "5"] [None]) true) as [r c] eqn:E.
  exists r, c. split; [reflexivity |].
  destruct (background_defaults_to_devnull open_always exec_always
              ["sleep"; "5"] [None] _ _ _ E)
    as [D | (evs & din & dout & file & argv & tail & _ & Htr & _ & Hin & _ & Hout & _ & _ & Hfd)].
  - left. exact D.
  - right. exists evs, din, dout, file, argv, tail.
    assert (Nin : ~ In "<" ["sleep"; "5"]) by (simpl; intros [H | [H | []]]; discriminate).
    assert (Nout : ~ In ">" ["sleep"; "5"]) by (simpl; intros [H | [H | []]]; discriminate).
    assert (Fstd : Forall (fun x => above_std x = true) (trace c)).
    { vm_compute in E. inversion E. repeat constructor. }
    split; [exact Htr |].
    split; [exact (Hin eq_refl Nin) |].
    split; [exact (Hout eq_refl Nout) |].
    destruct (Hfd Fstd (fun _ => None)) as [F0 F1].
    split; [exact (F0 eq_refl Nin) | exact (F1 eq_refl Nout)].
Defined.

(** ** The expansion of [$$] *)

Lemma length_append_str a b :
  String.length (a +++ b) = (String.length a + String.length b)%nat.
Proof. induction a as [| c a IH]; simpl; [| rewrite IH]; reflexivity. Qed.

Lemma append_assoc_str a b c : (a +++ b) +++ c = a +++ b +++ c.
Proof. induction a as [| x a IH]; simpl; [| rewrite IH]; reflexivity. Qed.

Lemma count_dollar_append a b :
  count_dollar (a +++ b) = (count_dollar a + count_dollar b)%nat.
Proof.
  induction a as [| c a IH]; simpl; [reflexivity |].
  destruct (is_dollar c); rewrite IH; reflexivity.
Qed.

Lemma count_dollar_le s : (count_dollar s <= String.length s)%nat.
Proof.
  induction s as [| c s IH]; simpl; [lia |]. destruct (is_dollar c); lia.
Qed.

Lemma is_dollar_spec c : is_dollar c = true <-> c = "$"%char.
Proof. unfold is_dollar. apply Ascii.eqb_eq. Qed.

Lemma hd_dollar_spec s : hd_dollar s = true <-> exists t, s = String "$" t.
Proof.
  destruct s as [| c t]; simpl.
  - split; [discriminate | intros [t H]; discriminate].
  - rewrite is_dollar_spec. split.
    + intros ->. eexists. reflexivity.
    + intros [t' H]. inversion H. reflexivity.
Qed.

Lemma prefix_cons a s1 b s2 :
  prefix (String a s1) (String b s2)
  = if ascii_dec a b then prefix s1 s2 else false.
Proof. reflexivity. Qed.

(** [strstr] for the needle [$$], one character at a time. *)
Lemma strstr_pair s :
  strstr s "$$"
  = match s with
    | EmptyString => None
    | String c t => if is_dollar c && hd_dollar t then Some 0%nat
                    else option_map S (strstr t "$$")
    end.
Proof.
  destruct s as [| c t]; [reflexivity |].
  assert (P : prefix "$$" (String c t) = is_dollar c && hd_dollar t).
  { change "$$" with (String "$" (String "$" EmptyString)).
    rewrite prefix_cons. unfold is_dollar.
    destruct (ascii_dec "$" c) as [<- | N].
    - rewrite Ascii.eqb_refl. destruct t as [| c' t']; [reflexivity |].
      rewrite prefix_cons. unfold hd_dollar, is_dollar.
      destruct (ascii_dec "$" c') as [<- | N'].
      + rewrite Ascii.eqb_refl. destruct t'; reflexivity.
      + symmetry. apply andb_false_intro2, Ascii.eqb_neq. congruence.
    - symmetry. apply andb_false_intro1, Ascii.eqb_neq. congruence. }
  change (strstr (String c t) "$$")
    with (if prefix "$$" (String c t) then Some 0%nat
          else option_map S (strstr t "$$")).
  rewrite P. reflexivity.
Qed.

Lemma spec_expand_cons p c t :
  is_dollar c && hd_dollar t = false ->
  spec_expand p (String c t) = String c (spec_expand p t).
Proof.
  destruct t as [| c' t']; simpl; [reflexivity |]. intros ->. reflexivity.
Qed.

Lemma spec_expand_clean p r :
  count_dollar p = 0%nat -> spec_expand p (p +++ r) = p +++ spec_expand p r.
Proof.
  set (q := p) at 1 3 4. clearbody q. revert q.
  induction q as [| d q IH]; intro H; [reflexivity |].
  simpl in H. destruct (is_dollar d) eqn:E; [discriminate |].
  change (String d q +++ r) with (String d (q +++ r)).
  rewrite spec_expand_cons by (rewrite E; reflexivity).
  rewrite IH by exact H. reflexivity.
Qed.

Lemma strstr_none_expand p s :
  strstr s "$$" = None -> spec_expand p s = s.
Proof.
  induction s as [| c t IH]; [reflexivity |].
  rewrite strstr_pair.
  destruct (is_dollar c && hd_dollar t) eqn:E; [discriminate |].
  destruct (strstr t "$$") eqn:F; [discriminate |]. intros _.
  rewrite spec_expand_cons by exact E. rewrite IH; reflexivity.
Qed.

(** Where [strstr] finds the pair, the line is what comes before, the
    pair, and what comes after. *)
Lemma strstr_some_split s : forall k,
  strstr s "$$" = Some k ->
  s = firstn_str k s +++ "$$" +++ skipn_str (k + 2) s.
Proof.
  induction s as [| c t IH]; intro k; rewrite strstr_pair; [discriminate |].
  destruct (is_dollar c && hd_dollar t) eqn:E.
  - intro H. inversion H; subst k. apply andb_true_iff in E. destruct E as [E1 E2].
    apply is_dollar_spec in E1. apply hd_dollar_spec in E2.
    destruct E2 as [t' ->]. subst c. reflexivity.
  - destruct (strstr t "$$") as [k' |] eqn:F; [| discriminate].
    intro H. inversion H; subst k. simpl.
    f_equal. exact (IH k' eq_refl).
Qed.

Lemma strstr_some_expand p s : forall k,
  strstr s "$$" = Some k ->
  spec_expand p s
  = firstn_str k s +++ p +++ spec_expand p (skipn_str (k + 2) s).
Proof.
  induction s as [| c t IH]; intro k; rewrite strstr_pair; [discriminate |].
  destruct (is_dollar c && hd_dollar t) eqn:E.
  - intro H. inversion H; subst k. apply andb_true_iff in E. destruct E as [E1 E2].
    apply is_dollar_spec in E1. apply hd_dollar_spec in E2.
    destruct E2 as [t' ->]. subst c. reflexivity.
  - destruct (strstr t "$$") as [k' |] eqn:F; [| discriminate].
    intro H. inversion H; subst k.
    rewrite spec_expand_cons by exact E.
    rewrite (IH k' eq_refl). reflexivity.
Qed.

Lemma hd_dollar_clean p r :
  count_dollar p = 0%nat -> p <> EmptyString -> hd_dollar (p +++ r) = false.
Proof.
  destruct p as [| d p]; [congruence |]. simpl.
  destruct (is_dollar d); [discriminate | reflexivity].
Qed.

(** After one turn of the loop the text before the pair and the pid put in
    its place are left alone by the expansion of the rest. *)
Lemma spec_expand_after_turn p r s : forall k,
  count_dollar p = 0%nat -> p <> EmptyString ->
  strstr s "$$" = Some k ->
  spec_expand p (firstn_str k s +++ p +++ r)
  = firstn_str k s +++ p +++ spec_expand p r.
Proof.
  induction s as [| c t IH]; intros k Hp Hne; rewrite strstr_pair; [discriminate |].
  destruct (is_dollar c && hd_dollar t) eqn:E.
  - intro H. inversion H; subst k. simpl. apply spec_expand_clean. exact Hp.
  - destruct (strstr t "$$") as [k' |] eqn:F; [| discriminate].
    intro H. inversion H; subst k.
    change (firstn_str (S k') (String c t)) with (String c (firstn_str k' t)).
    change (String c (firstn_str k' t) +++ p +++ r)
      with (String c (firstn_str k' t +++ p +++ r)).
    rewrite spec_expand_cons.
    + rewrite (IH k' Hp Hne eq_refl). reflexivity.
    + destruct (is_dollar c); [| reflexivity]. simpl in E |- *.
      destruct k' as [| k''].
      * simpl. apply hd_dollar_clean; assumption.
      * destruct t as [| c' t']; [rewrite strstr_pair in F; discriminate |].
        exact E.
Qed.

Lemma spec_expand_length p : forall n s,
  (String.length s <= n)%nat -> (2 <= String.length p)%nat ->
  (String.length s <= String.length (spec_expand p s))%nat.
Proof.
  induction n as [| n IH]; intros s Hn Hp.
  - destruct s; [simpl; lia | simpl in Hn; lia].
  - destruct s as [| c [| c' t']]; [simpl; lia | simpl; lia |].
    simpl in Hn. simpl spec_expand.
    destruct (is_dollar c && is_dollar c').
    + rewrite length_append_str.
      assert (String.length t' <= String.length (spec_expand p t'))%nat
        by (apply IH; [lia | exact Hp]).
      simpl. lia.
    + assert (String.length (String c' t')
              <= String.length (spec_expand p (String c' t')))%nat
        by (apply IH; [simpl; lia | exact Hp]).
      simpl in *. lia.
Qed.

(** The loop of [expandPID] against the expansion of the specification:
    with fuel for every pair of dollars it never hits the bound; what it
    returns, when no copy overflows, is the expansion; and no copy
    overflows when the line and its expansion both fit the buffer. *)
Lemma expandPID_loop_spec p :
  count_dollar p = 0%nat -> p <> EmptyString ->
  forall fuel s,
    (count_dollar s < 2 * fuel)%nat ->
    (expandPID_loop fuel p s = Overflow
     \/ expandPID_loop fuel p s = Expanded (spec_expand p s))
    /\ ((String.length s < MAX_LENGTH)%nat ->
        (String.length (spec_expand p s) < MAX_LENGTH)%nat ->
        expandPID_loop fuel p s = Expanded (spec_expand p s)).
Proof.
  intros Hp Hne. induction fuel as [| fuel IH]; intros s Hc; [lia |].
  simpl expandPID_loop.
  destruct (strstr s "$$") as [k |] eqn:F.
  - pose proof (strstr_some_split s k F) as Hs.
    pose proof (strstr_some_expand p s k F) as He.
    pose proof (spec_expand_after_turn p (skipn_str (k + 2) s) s k Hp Hne F) as Ha.
    set (pre := firstn_str k s) in *. set (rest := skipn_str (k + 2) s) in *.
    change (k + String.length "$$")%nat with (k + 2)%nat. fold rest.
    assert (Hcount : (count_dollar (pre +++ p +++ rest) < 2 * fuel)%nat).
    { rewrite Hs in Hc. rewrite !count_dollar_append in *. simpl in Hc. lia. }
    destruct (IH (pre +++ p +++ rest) Hcount) as [IH1 IH2].
    rewrite Ha, <- He in IH1, IH2.
    unfold strcpy, strcat.
    destruct (String.length pre <? MAX_LENGTH)%nat eqn:C1;
      [| split; [left; reflexivity |]].
    + destruct (String.length pre + String.length p <? MAX_LENGTH)%nat eqn:C2;
        [| split; [left; reflexivity |]].
      * destruct (String.length (pre +++ p) + String.length rest <? MAX_LENGTH)%nat
          eqn:C3; [| split; [left; reflexivity |]].
        { destruct (String.length ((pre +++ p) +++ rest) <? MAX_LENGTH)%nat eqn:C4;
            [| split; [left; reflexivity |]].
          - rewrite append_assoc_str. split; [exact IH1 |].
            intros L1 L2. apply IH2; [| exact L2].
            apply Nat.ltb_lt in C4. rewrite append_assoc_str in C4. exact C4.
          - intros L1 L2. exfalso. apply Nat.ltb_ge in C4. apply Nat.ltb_lt in C3.
            rewrite length_append_str in C4. lia. }
        { intros L1 L2. exfalso. apply Nat.ltb_ge in C3.
          rewrite length_append_str in C3.
          destruct (Nat.le_gt_cases 2 (String.length p)) as [G | G].
          - pose proof (spec_expand_length p _ (pre +++ p +++ rest) (Nat.le_refl _) G) as M.
            rewrite Ha, <- He in M. rewrite !length_append_str in M. lia.
          - rewrite Hs in L1. rewrite !length_append_str in L1. simpl in L1. lia. }
      * intros L1 L2. exfalso. apply Nat.ltb_ge in C2.
        rewrite He in L2. rewrite !length_append_str in L2. lia.
    + intros L1 L2. exfalso. apply Nat.ltb_ge in C1.
      rewrite He in L2. rewrite !length_append_str in L2. lia.
  - rewrite (strstr_none_expand p s F). split; [right; reflexivity | reflexivity].
Qed.

Lemma uint_digits_clean d :
  count_dollar (NilEmpty.string_of_uint d) = 0%nat.
Proof. induction d; simpl; auto. Qed.

Lemma fmt_d_clean z : count_dollar (fmt_d z) = 0%nat /\ fmt_d z <> EmptyString.
Proof.
  unfold fmt_d, NilZero.string_of_int, NilZero.string_of_uint.
  destruct (Z.to_int z) as [d | d].
  - destruct d; (split; [simpl; try reflexivity; apply uint_digits_clean | discriminate]).
  - split; [| discriminate].
    destruct d; simpl; try reflexivity; apply uint_digits_clean.
Qed.

(** The expansion leaves no pair of dollars behind. *)
Lemma spec_expand_no_pair p :
  count_dollar p = 0%nat ->
  forall n s, (String.length s <= n)%nat -> strstr (spec_expand p s) "$$" = None.
Proof.
  intro Hp.
  assert (Clean : forall q r, count_dollar q = 0%nat ->
                              strstr r "$$" = None -> strstr (q +++ r) "$$" = None).
  { induction q as [| d q IHq]; intros r Hq Hr; [exact Hr |].
    simpl in Hq. destruct (is_dollar d) eqn:E; [discriminate |].
    change (String d q +++ r) with (String d (q +++ r)).
    rewrite strstr_pair, E. simpl. rewrite (IHq r Hq Hr). reflexivity. }
  induction n as [| n IH]; intros s Hn.
  - destruct s; [reflexivity | simpl in Hn; lia].
  - destruct s as [| c [| c' t']]; [reflexivity | |].
    + change (spec_expand p (String c EmptyString)) with (String c EmptyString).
      rewrite strstr_pair. simpl hd_dollar. rewrite andb_false_r. reflexivity.
    + simpl in Hn.
      change (spec_expand p (String c (String c' t')))
        with (if is_dollar c && is_dollar c'
              then p +++ spec_expand p t'
              else String c (spec_expand p (String c' t'))).
      destruct (is_dollar c && is_dollar c') eqn:E.
      * apply Clean; [exact Hp | apply IH; lia].
      * rewrite strstr_pair.
        assert (T : strstr (spec_expand p (String c' t')) "$$" = None)
          by (apply IH; simpl; lia).
        rewrite T.
        destruct (is_dollar c) eqn:Ec; [| reflexivity].
        simpl in E. rewrite spec_expand_cons by (rewrite E; reflexivity).
        simpl hd_dollar. rewrite E. reflexivity.
Qed.

(** X1. Within the buffers, [expandPID] is the expansion of the
    specification:
    when the decimal pid fits [pid_str] and the line and its expansion fit
    the 2048 bytes of [input] and [temp], every pair of dollars is replaced
    by the pid, from the left, and none is left. Whatever the sizes, the
    loop ends, and a line it returns is that expansion. *)
Theorem expandPID_replaces_every_pair (pid : Z) (input : string) :
  expandPID pid input <> Unfinished
  /\ (forall s, expandPID pid input = Expanded s ->
                s = spec_expand (fmt_d pid) input
                /\ strstr s "$$" = None)
  /\ ((String.length (fmt_d pid) < 10)%nat ->
      (String.length input < MAX_LENGTH)%nat ->
      (String.length (spec_expand (fmt_d pid) input) < MAX_LENGTH)%nat ->
      expandPID pid input = Expanded (spec_expand (fmt_d pid) input)).
Proof.
  destruct (fmt_d_clean pid) as [Hc Hne].
  assert (Hfuel : (count_dollar input < 2 * S (String.length input))%nat)
    by (pose proof (count_dollar_le input); lia).
  destruct (expandPID_loop_spec (fmt_d pid) Hc Hne _ input Hfuel) as [L1 L2].
  unfold expandPID, sprintf_pid, strcpy.
  destruct (String.length (fmt_d pid) <? 10)%nat eqn:F.
  - split; [destruct L1 as [-> | ->]; discriminate |]. split.
    + intros s Hs. destruct L1 as [L1 | L1]; rewrite L1 in Hs; [discriminate |].
      inversion Hs. split; [reflexivity |].
      eapply spec_expand_no_pair; [exact Hc | apply Nat.le_refl].
    + intros _. exact L2.
  - split; [discriminate |]. split; [discriminate |].
    intro H. apply Nat.ltb_ge in F. lia.
Qed.

Lemma expandPID_replaces_every_pair_witness :
  expandPID 4567 "echo $$ and $$$" = Expanded "echo 4567 and 4567$".
Proof.
  destruct (expandPID_replaces_every_pair 4567 "echo $$ and $$$") as (_ & _ & H).
  rewrite H; [reflexivity | vm_compute; lia ..].
Defined.

(** C7 (the code does not do this for every line). On [echo $$] the shell
    of pid 4567 hands its child the vector [echo 4567]. On the line made of
    1023 pairs of dollars, which with its newline is exactly what [fgets]
    can read into [input], the first turn of the loop of [expandPID]
    already asks [strcat] for 2049 bytes of the 2048 of [temp]: the
    expansion is not produced and the turn has no defined behaviour. *)
Theorem expandPID_overflows_on_long_line :
  main_iteration (env_line "echo $$" 0 []) initial_shell
  = InChild (inr (Executed "echo" ["echo"; "4567"]),
             mkChild [Some "echo"; Some "4567"; None] (-1) (-1) 0
                     [SysSignal SIGINT SIG_DFL; SysSignal SIGTSTP SIG_IGN;
                      SysExecvp (Some "echo") ["echo"; "4567"]])
            (mkShell 0 false [EvPrintf ": "; EvFflush; EvFork 0])
  /\ String.length (dollars_line +++ nl) = (MAX_LENGTH - 1)%nat
  /\ strcat MAX_LENGTH "4567" (skipn_str 2 dollars_line) = None
  /\ expandPID 4567 dollars_line = Overflow
  /\ main_iteration env_dollars initial_shell
     = Undefined (mkShell 0 false [EvPrintf ": "; EvFflush]).
Proof.
  split; [vm_compute; reflexivity |].
  split; [vm_compute; reflexivity |].
  split; [vm_compute; reflexivity |].
  split; vm_compute; reflexivity.
Qed.

(** * Further properties of the code *)

(** ** [parseInput]: the tokens of a line *)

Lemma has_space_append a b :
  has_space (a +++ b) = has_space a || has_space b.
Proof.
  induction a as [| c a IH]; simpl; [reflexivity |].
  rewrite IH, orb_assoc. reflexivity.
Qed.

Lemma append_nil_r_str a : a +++ EmptyString = a.
Proof. induction a as [| c a IH]; simpl; [| rewrite IH]; reflexivity. Qed.

Lemma append_nonempty a c : a +++ String c EmptyString <> EmptyString.
Proof. destruct a; discriminate. Qed.

(** The token being read, as a string. *)
Lemma strtok_all_spec s : forall cur,
  (forall t, cur = Some t -> token t) ->
  Forall token (strtok_all s cur)
  /\ glue (strtok_all s cur)
     = match cur with Some t => t | None => EmptyString end +++ remove_spaces s.
Proof.
  induction s as [| c s IH]; intros cur Hcur; simpl.
  - destruct cur as [t |]; simpl.
    + split; [constructor; [apply Hcur; reflexivity | constructor] |].
      rewrite !append_nil_r_str. reflexivity.
    + split; [constructor | reflexivity].
  - unfold is_space. destruct (Ascii.eqb c " ") eqn:E.
    + destruct cur as [t |].
      * destruct (IH None) as [F G]; [discriminate |].
        split; [constructor; [apply Hcur; reflexivity | exact F] |].
        simpl. rewrite G. reflexivity.
      * apply IH. discriminate.
    + destruct (IH (Some (match cur with Some t => t | None => EmptyString end
                          +++ String c EmptyString))) as [F G].
      { intros t Ht. inversion Ht; subst t. split; [apply append_nonempty |].
        rewrite has_space_append. simpl. unfold is_space. rewrite E. simpl.
        rewrite orb_false_r.
        destruct cur as [t |]; [apply (Hcur t eq_refl) | reflexivity]. }
      split; [exact F |]. rewrite G, append_assoc_str. reflexivity.
Qed.

(** X2. Every token [parseInput] stores is non-empty and holds no space,
    and the tokens put end to end are the line with its spaces taken out:
    nothing but spaces is dropped and the order is kept. *)
Theorem strtok_tokens_are_the_line_without_spaces (input : string) :
  Forall token (strtok_all input None)
  /\ glue (strtok_all input None) = remove_spaces input.
Proof.
  destruct (strtok_all_spec input None) as [F G]; [discriminate |].
  split; [exact F | exact G].
Qed.

Lemma strtok_all_word t : forall rest cur,
  has_space t = false ->
  strtok_all (t +++ rest) cur
  = strtok_all rest
      (match t with
       | EmptyString => cur
       | _ => Some (match cur with Some u => u | None => EmptyString end +++ t)
       end).
Proof.
  induction t as [| c t IH]; intros rest cur H; [reflexivity |].
  simpl in H. apply orb_false_iff in H. destruct H as [Hc Ht].
  simpl. unfold is_space in Hc. rewrite Hc.
  rewrite (IH rest _ Ht). destruct t as [| c' t'].
  - reflexivity.
  - rewrite append_assoc_str. reflexivity.
Qed.

(** X3. Tokens written on a line with single spaces between them are read
    back by [parseInput]'s tokenizer as the same tokens, in the same
    order. *)
Theorem strtok_reads_back_joined_tokens (toks : list string) :
  Forall token toks -> strtok_all (join_spaces toks) None = toks.
Proof.
  induction 1 as [| t rest [Hne Hsp] Hrest IH]; [reflexivity |].
  destruct rest as [| u rest'].
  - simpl. rewrite <- (append_nil_r_str t) at 1.
    rewrite strtok_all_word by exact Hsp.
    destruct t; [congruence | reflexivity].
  - change (join_spaces (t :: u :: rest'))
      with (t +++ " " +++ join_spaces (u :: rest')).
    rewrite strtok_all_word by exact Hsp.
    destruct t as [| c t']; [congruence |].
    change (strtok_all (" " +++ join_spaces (u :: rest')) (Some (EmptyString +++ String c t')))
      with (String c t' :: strtok_all (join_spaces (u :: rest')) None).
    rewrite IH. reflexivity.
Qed.

Lemma strtok_reads_back_joined_tokens_witness :
  strtok_all "ls -la /tmp" None = ["ls"; "-la"; "/tmp"].
Proof.
  apply (strtok_reads_back_joined_tokens ["ls"; "-la"; "/tmp"]).
  repeat constructor; discriminate.
Defined.

Lemma argv_of_args_then toks junk : argv_of (args_then toks junk) = toks.
Proof.
  unfold args_then. induction toks as [| t rest IH]; simpl; [reflexivity |].
  rewrite IH. reflexivity.
Qed.


Lemma nth_args_of_end toks : nth (List.length toks) (args_of toks) None = None.
Proof.
  unfold args_of, args_then. rewrite <- (length_map Some toks) at 1.
  apply nth_cells.
Qed.



(** ** One turn of the loop, seen from its tokens *)

Lemma main_iteration_on_tokens e s toks :
  line_tokens e = Some toks ->
  main_iteration e s
  = if (List.length toks <? MAX_ARGS)%nat then
      let '(is_background, a, arg_count) :=
        background_marker (args_of toks) (List.length toks) in
      match executeBuiltInCommand e a arg_count (at_prompt e s) with
      | BUndefined s' => Undefined s'
      | BExit code s' => ExitShell code s'
      | BReturn r s' =>
          if negb (r =? 0) then Continue s'
          else executeCommand e a is_background s'
      end
    else Undefined (at_prompt e s).
Proof.
  unfold line_tokens, main_iteration, at_prompt.
  destruct (fgets_ret e) as [raw |]; [| discriminate].
  cbv zeta. destruct (blank_or_comment (chomp raw)); [discriminate |].
  destruct (expandPID (getpid e) (chomp raw)) as [input | |]; try discriminate.
  intro H. inversion H; subst toks. unfold parseInput.
  destruct (List.length (strtok_all input None) <? MAX_ARGS)%nat; reflexivity.
Qed.

Lemma last_amp_split toks :
  last toks EmptyString = "&" -> exists init, toks = init ++ ["&"].
Proof.
  induction toks as [| x init _] using rev_ind; [discriminate |].
  rewrite last_last. intros ->. exists init. reflexivity.
Qed.

(** The two cases of the detection of a closing [&]. *)
Lemma background_marker_cases toks :
  (exists init, toks = init ++ ["&"]
                /\ background_marker (args_of toks) (List.length toks)
                   = (true, args_then init [None], List.length init))
  \/ (last toks EmptyString <> "&"
      /\ background_marker (args_of toks) (List.length toks)
         = (false, args_of toks, List.length toks)).
Proof.
  destruct (string_dec (last toks EmptyString) "&") as [E | N].
  - left. destruct (last_amp_split toks E) as [init ->].
    exists init. split; [reflexivity | apply background_marker_amp].
  - right. split; [exact N | apply background_marker_plain; exact N].
Qed.

(** X6. An invocation is marked background exactly when the last token of
    the line is [&]. The vector left for the command is then the tokens
    without that last one; otherwise it is all the tokens, so an [&]
    anywhere else stays an ordinary argument. *)
Theorem closing_amp_marks_background (toks : list string) :
  let '(is_background, a, arg_count) :=
    background_marker (args_of toks) (List.length toks) in
  (is_background = true <-> last toks EmptyString = "&")
  /\ argv_of a = (if is_background then removelast toks else toks)
  /\ arg_count = List.length (argv_of a)
  /\ nth arg_count a None = None.
Proof.
  destruct (background_marker_cases toks) as [(init & -> & ->) | (N & ->)].
  - rewrite last_last, argv_of_args_then, removelast_last.
    split; [split; reflexivity |]. split; [reflexivity |]. split; [reflexivity |].
    unfold args_then. rewrite <- (length_map Some init). apply nth_cells.
  - unfold args_of at 1 2. rewrite argv_of_args_then. fold (args_of toks).
    split; [split; [discriminate | contradiction] |].
    split; [reflexivity |]. split; [reflexivity | apply nth_args_of_end].
Qed.

Lemma hd_error_snoc {A} (init : list A) (x : A) :
  hd_error (init ++ [x]) = match init with [] => Some x | y :: _ => Some y end.
Proof. destruct init; reflexivity. Qed.

(** The first cell of the array after the detection of [&] is the first
    token, unless the line is a lone [&]. *)
Lemma marker_first_cell toks t :
  hd_error toks = Some t -> t <> "&" ->
  nth 0 (snd (fst (background_marker (args_of toks) (List.length toks)))) None
  = Some t.
Proof.
  intros Hhd Ht.
  destruct (background_marker_cases toks) as [(init & -> & ->) | (N & ->)]; simpl.
  - unfold args_then. rewrite next_cell. rewrite hd_error_snoc in Hhd.
    destruct init as [| y init']; [inversion Hhd; congruence | exact Hhd].
  - unfold args_of, args_then. rewrite next_cell. exact Hhd.
Qed.


Lemma count_dollar_zero_strstr s :
  count_dollar s = 0%nat -> strstr s "$$" = None.
Proof.
  induction s as [| c t IH]; [reflexivity |].
  rewrite strstr_pair. simpl count_dollar.
  destruct (is_dollar c); [discriminate |].
  intro H. rewrite (IH H). reflexivity.
Qed.

(** A line without a dollar goes through [expandPID] unchanged. *)
Lemma expandPID_no_dollar pid input :
  (String.length (fmt_d pid) < 10)%nat ->
  count_dollar input = 0%nat ->
  expandPID pid input = Expanded input.
Proof.
  intros Hp Hc. unfold expandPID, sprintf_pid, strcpy.
  apply Nat.ltb_lt in Hp. rewrite Hp. simpl.
  rewrite (count_dollar_zero_strstr _ Hc). reflexivity.
Qed.

Lemma spaces_line_facts n :
  chomp (copies (S n) " " +++ nl) = copies (S n) " "
  /\ count_dollar (copies (S n) " ") = 0%nat
  /\ strtok_all (copies (S n) " ") None = [].
Proof.
  induction n as [| n (IH1 & IH2 & IH3)].
  - repeat split.
  - change (copies (S (S n)) " ") with (String " " (copies (S n) " ")).
    split; [| split].
    + change (String " " (copies (S n) " ") +++ nl)
        with (String " " (copies (S n) " " +++ nl)).
      change (chomp (String " " (copies (S n) " " +++ nl)))
        with (String " " (chomp (copies (S n) " " +++ nl))).
      rewrite IH1. reflexivity.
    + exact IH2.
    + exact IH3.
Qed.

(** X5. A line that is not empty but made of spaces only, and a line that
    is just [&], leave [args[0]] NULL; nothing checks for that before
    [executeBuiltInCommand] hands it to [strcmp], so the turn has no
    defined behaviour. *)
Theorem command_less_line_is_undefined (e : env) (s : shell) :
  (forall n,
     fgets_ret e = Some (copies (S n) " " +++ nl) ->
     (String.length (fmt_d (getpid e)) < 10)%nat ->
     line_tokens e = Some [])
  /\ (forall toks,
        line_tokens e = Some toks ->
        toks = [] \/ toks = ["&"] ->
        main_iteration e s = Undefined (at_prompt e s)).
Proof.
  split.
  - intros n Hraw Hpid. unfold line_tokens. rewrite Hraw. cbv zeta.
    destruct (spaces_line_facts n) as (C1 & C2 & C3).
    rewrite C1.
    change (blank_or_comment (copies (S n) " ")) with false. cbv iota.
    rewrite (expandPID_no_dollar _ _ Hpid C2), C3. reflexivity.
  - intros toks Ht [-> | ->]; rewrite (main_iteration_on_tokens _ _ _ Ht);
      reflexivity.
Qed.

Lemma command_less_line_is_undefined_witness :
  main_iteration (env_line "   " 4568 [0]) initial_shell
  = Undefined (mkShell 0 false [EvPrintf ": "; EvFflush])
  /\ main_iteration (env_line " & " 4568 [0]) initial_shell
     = Undefined (mkShell 0 false [EvPrintf ": "; EvFflush]).
Proof.
  destruct (command_less_line_is_undefined (env_line "   " 4568 [0]) initial_shell)
    as [H1 H2].
  destruct (command_less_line_is_undefined (env_line " & " 4568 [0]) initial_shell)
    as [_ H3].
  split.
  - rewrite (H2 []); [reflexivity | | left; reflexivity].
    apply (H1 2%nat); [reflexivity | vm_compute; lia].
  - rewrite (H3 ["&"]); [reflexivity | reflexivity | right; reflexivity].
Defined.




(** ** The dispatcher and the parent side of a launch *)

Lemma foreground_wait_out pid reports s :
  exists evs, out (snd (foreground_wait pid reports s)) = out s ++ evs.
Proof.
  revert s. induction reports as [| st rest IH]; intro s; simpl.
  - exists []. rewrite app_nil_r. reflexivity.
  - destruct (negb (WIFEXITED st) && negb (WIFSIGNALED st)).
    + destruct (IH (emit (EvWaitpid pid st) s)) as [evs E]. rewrite E. simpl.
      exists (EvWaitpid pid st :: evs). rewrite <- app_assoc. reflexivity.
    + exists [EvWaitpid pid st]. reflexivity.
Qed.

Lemma executeCommand_forks e a bg s :
  exists evs,
    out (outcome_shell (executeCommand e a bg s))
    = out s ++ EvFork (fork_ret e) :: evs.
Proof.
  unfold executeCommand.
  destruct (fork_ret e =? 0); [exists []; reflexivity |].
  destruct (fork_ret e <? 0); [eexists; simpl; rewrite <- app_assoc; reflexivity |].
  destruct (negb bg); [| eexists; simpl; rewrite <- app_assoc; reflexivity].
  destruct (foreground_wait_out (fork_ret e) (wait_reports e)
              (emit (EvFork (fork_ret e)) s)) as [evs E].
  destruct (foreground_wait _ _ _) as [[t |] s1]; simpl in *;
    exists evs; rewrite E, <- app_assoc; reflexivity.
Qed.

Lemma changeDirectory_out e path s :
  exists evs, out (changeDirectory e path s) = out s ++ evs
              /\ forallb (fun ev => negb (is_process_call ev)) evs = true.
Proof.
  unfold changeDirectory. destruct path as [p |].
  - destruct (streq p "~"); [eexists; split; reflexivity |].
    destruct (negb (chdir_ret e (Some p) =? 0)); simpl.
    + eexists. rewrite <- app_assoc. split; reflexivity.
    + eexists. split; reflexivity.
  - eexists. split; reflexivity.
Qed.

Lemma at_prompt_frame e s :
  last_status (at_prompt e s) = last_status s
  /\ is_foreground_only (at_prompt e s) = is_foreground_only s
  /\ exists evs, out (at_prompt e s) = out s ++ evs
                 /\ forallb (fun ev => negb (is_process_call ev)) evs = true.
Proof.
  destruct (prompt_reap_frame e s) as (L & Mo & evs & O & F).
  split; [exact L |]. split; [exact Mo |]. exists evs. split; [exact O |].
  rewrite forallb_forall in F |- *. intros ev I. apply F in I.
  unfold is_launch, is_process_call in *.
  destruct (is_fork ev), (is_waitpid ev); simpl in *; congruence.
Qed.

(** X8. [cd] and [status] run inside the shell: a line whose first token
    is one of them creates no process and waits for none, even when it ends
    with [&], keeps [last_status] and goes back to the prompt. A line whose
    first token is neither a built-in nor a lone [&] calls [fork] as the
    first thing after the prompt. *)
Theorem builtins_never_fork (e : env) (s : shell) (toks : list string)
    (t : string) :
  line_tokens e = Some toks ->
  (List.length toks < MAX_ARGS)%nat ->
  hd_error toks = Some t ->
  (t = "cd" \/ t = "status" ->
   exists s',
     main_iteration e s = Continue s'
     /\ last_status s' = last_status s
     /\ is_foreground_only s' = is_foreground_only s
     /\ exists evs, out s' = out s ++ evs
                    /\ forallb (fun ev => negb (is_process_call ev)) evs = true)
  /\ (t <> "exit" -> t <> "cd" -> t <> "status" -> t <> "&" ->
      exists evs,
        out (outcome_shell (main_iteration e s))
        = out (at_prompt e s) ++ EvFork (fork_ret e) :: evs).
Proof.
  intros Ht Hlen Hhd.
  rewrite (main_iteration_on_tokens _ _ _ Ht).
  apply Nat.ltb_lt in Hlen. rewrite Hlen.
  destruct (at_prompt_frame e s) as (L & Mo & evs0 & O & F).
  split.
  - intros Hb.
    assert (Hamp : t <> "&") by (destruct Hb as [-> | ->]; discriminate).
    pose proof (marker_first_cell toks t Hhd Hamp) as H0.
    destruct (background_marker (args_of toks) (List.length toks)) as [[bg a] n].
    simpl in H0. unfold executeBuiltInCommand. rewrite H0.
    destruct Hb as [-> | ->]; simpl.
    + destruct (changeDirectory_frame e (nth 1 a None) (at_prompt e s)) as [L1 M1].
      destruct (changeDirectory_out e (nth 1 a None) (at_prompt e s))
        as (evs1 & O1 & F1).
      eexists. split; [reflexivity |].
      split; [rewrite L1; exact L |]. split; [rewrite M1; exact Mo |].
      exists (evs0 ++ evs1). rewrite O1, O, <- app_assoc.
      split; [reflexivity |]. rewrite forallb_app, F, F1. reflexivity.
    + destruct (printStatus_frame (at_prompt e s)) as (L1 & M1 & O1).
      eexists. split; [reflexivity |].
      split; [rewrite L1; exact L |]. split; [rewrite M1; exact Mo |].
      exists (evs0 ++ [EvPrintf (status_text (last_status (at_prompt e s)))]).
      rewrite O1, O, <- app_assoc.
      split; [reflexivity |]. rewrite forallb_app, F. reflexivity.
  - intros N1 N2 N3 N4.
    pose proof (marker_first_cell toks t Hhd N4) as H0.
    destruct (background_marker (args_of toks) (List.length toks)) as [[bg a] n].
    simpl in H0. unfold executeBuiltInCommand. rewrite H0.
    apply String.eqb_neq in N1, N2, N3. unfold streq. rewrite N1, N2, N3.
    simpl. apply executeCommand_forks.
Qed.

Lemma builtins_never_fork_witness :
  (exists s',
     main_iteration (env_line "status &" 4568 [0]) (mkShell 9 false [])
     = Continue s' /\ last_status s' = 9)
  /\ exists evs,
       out (outcome_shell
              (main_iteration (env_line "ls -la &" 4568 [0]) (mkShell 9 false [])))
       = out (at_prompt (env_line "ls -la &" 4568 [0]) (mkShell 9 false []))
         ++ EvFork 4568 :: evs.
Proof.
  split.
  - destruct (builtins_never_fork (env_line "status &" 4568 [0]) (mkShell 9 false [])
                ["status"; "&"] "status") as [H _];
      [reflexivity | vm_compute; lia | reflexivity |].
    destruct (H (or_intror eq_refl)) as (s' & E & L & _).
    exists s'. split; [exact E | exact L].
  - destruct (builtins_never_fork (env_line "ls -la &" 4568 [0]) (mkShell 9 false [])
                ["ls"; "-la"; "&"] "ls") as [_ H];
      [reflexivity | vm_compute; lia | reflexivity |].
    apply H; discriminate.
Defined.

Lemma foreground_wait_ends pid reports s :
  fst (foreground_wait pid reports s)
  = find (fun st => terminal st) reports.
Proof.
  revert s. induction reports as [| st rest IH]; intro s; simpl; [reflexivity |].
  unfold terminal at 1.
  destruct (WIFEXITED st), (WIFSIGNALED st); simpl; try reflexivity. apply IH.
Qed.

(** X9. In the parent a launch comes back to the loop in every case but
    one. When [fork] fails the shell reports it and goes on. A background
    launch prints the child's pid and goes on without a single [waitpid],
    whatever the child does. A foreground launch comes back with the
    first exited-or-signaled status among the child's reports, and is
    blocked when there is none. *)
Theorem parent_returns_unless_foreground_blocks (e : env)
    (a : list (option string)) (bg : bool) (s : shell) :
  (fork_ret e < 0 ->
   executeCommand e a bg s
   = Continue (emit (EvPerror "smallsh") (emit (EvFork (fork_ret e)) s)))
  /\ (0 < fork_ret e -> bg = true ->
      executeCommand e a bg s
      = Continue (emit (EvPrintf ("Background pid is " +++ fmt_d (fork_ret e) +++ nl))
                       (emit (EvFork (fork_ret e)) s)))
  /\ (0 < fork_ret e -> bg = false ->
      match find (fun st => terminal st) (wait_reports e) with
      | Some t => exists s', executeCommand e a bg s = Continue s'
                             /\ last_status s' = t
      | None => exists s', executeCommand e a bg s = Blocked s'
                           /\ last_status s' = last_status s
      end).
Proof.
  unfold executeCommand. split; [| split].
  - intro H. destruct (Z.eqb_spec (fork_ret e) 0); [lia |].
    destruct (Z.ltb_spec (fork_ret e) 0); [reflexivity | lia].
  - intros H ->. destruct (Z.eqb_spec (fork_ret e) 0); [lia |].
    destruct (Z.ltb_spec (fork_ret e) 0); [lia | reflexivity].
  - intros H ->. destruct (Z.eqb_spec (fork_ret e) 0); [lia |].
    destruct (Z.ltb_spec (fork_ret e) 0); [lia |]. simpl negb. cbv iota.
    pose proof (foreground_wait_ends (fork_ret e) (wait_reports e)
                  (emit (EvFork (fork_ret e)) s)) as Hf.
    pose proof (foreground_wait_frame (fork_ret e) (wait_reports e)
                  (emit (EvFork (fork_ret e)) s)) as [Hl _].
    destruct (foreground_wait _ _ _) as [[t |] s1]; simpl in Hf, Hl;
      rewrite <- Hf; eexists; (split; [reflexivity |]); [reflexivity | exact Hl].
Qed.

Lemma parent_returns_unless_foreground_blocks_witness :
  executeCommand (env_line "ls" (-1) []) (args_of ["ls"]) false initial_shell
  = Continue (mkShell 0 false [EvFork (-1); EvPerror "smallsh"])
  /\ executeCommand (env_line "ls &" 4568 [W_STOPCODE 19])
                    (args_then ["ls"] [None]) true initial_shell
     = Continue (mkShell 0 false
                   [EvFork 4568; EvPrintf ("Background pid is 4568" +++ nl)])
  /\ (exists s',
        executeCommand (env_line "ls" 4568 [W_STOPCODE 19; 256; 9])
                       (args_of ["ls"]) false initial_shell = Continue s'
        /\ last_status s' = 256).
Proof.
  split; [| split].
  - apply (proj1 (parent_returns_unless_foreground_blocks
                    (env_line "ls" (-1) []) (args_of ["ls"]) false initial_shell)).
    simpl. lia.
  - destruct (parent_returns_unless_foreground_blocks
                (env_line "ls &" 4568 [W_STOPCODE 19]) (args_then ["ls"] [None])
                true initial_shell) as (_ & H & _).
    rewrite H; [reflexivity | simpl; lia | reflexivity].
  - destruct (parent_returns_unless_foreground_blocks
                (env_line "ls" 4568 [W_STOPCODE 19; 256; 9]) (args_of ["ls"])
                false initial_shell) as (_ & _ & H).
    apply (H ltac:(simpl; lia) eq_refl).
Defined.

(** ** The child: signals, the program run, the streams *)

Lemma no_signal_rebinding evs :
  Forall (fun x => rebinding_call x = true) evs ->
  forallb (fun x => negb (is_signal_call x)) evs = true.
Proof.
  intro F. apply forallb_forall. intros x I.
  rewrite Forall_forall in F. apply F in I.
  destruct x; simpl in *; try reflexivity; discriminate.
Qed.

Lemma no_signal_default need mk evs :
  (forall fd, forallb (fun x => negb (is_signal_call x)) (mk fd) = true) ->
  default_part need mk evs ->
  forallb (fun x => negb (is_signal_call x)) evs = true.
Proof.
  unfold default_part. intros Hmk. destruct need.
  - intros (fd & _ & ->). apply Hmk.
  - intros ->. reflexivity.
Qed.

(** X10. The first two calls of every child set its signal profile, and it
    sets no disposition afterwards: a background child ignores the
    interrupt and the terminal-stop signal, a foreground child takes the
    default action on interrupt and ignores terminal-stop. *)
Theorem child_sets_signal_profile_first
    (open_ret : nat -> option string -> Z -> Z)
    (exec_ok : string -> list string -> bool)
    (toks : list string) (junk : list (option string)) (bg : bool) :
  exists rest,
    trace (snd (run_child open_ret exec_ok (args_then toks junk) bg))
    = SysSignal SIGINT (if bg then SIG_IGN else SIG_DFL)
      :: SysSignal SIGTSTP SIG_IGN :: rest
    /\ forallb (fun x => negb (is_signal_call x)) rest = true.
Proof.
  assert (Hs : signals bg = [SysSignal SIGINT (if bg then SIG_IGN else SIG_DFL);
                             SysSignal SIGTSTP SIG_IGN])
    by (destruct bg; reflexivity).
  destruct (run_child_shape open_ret exec_ok toks junk bg) as (evs & ok & R & S).
  destruct (run_child open_ret exec_ok (args_then toks junk) bg) as [r c].
  simpl snd.
  pose proof (resolution_calls _ _ _ R) as (pre & rtail & Hevs & Fpre & Htail).
  apply no_signal_rebinding in Fpre.
  destruct S as [(-> & _ & St) | [(-> & -> & _ & din & dout & St & D) | (-> & _ & S)]].
  - destruct Htail as (path & flags & mode & ->).
    exists evs. rewrite St, Hs. split; [reflexivity |].
    rewrite Hevs, forallb_app, Fpre. reflexivity.
  - subst rtail. rewrite app_nil_r in Hevs. subst pre.
    exists (evs ++ din ++ dout). rewrite St, Hs. split; [reflexivity |].
    rewrite !forallb_app, Fpre.
    destruct D as [(_ & -> & ->) | (_ & Din & ->)]; [reflexivity |].
    rewrite (no_signal_default _ devnull_in _ (fun _ => eq_refl) Din). reflexivity.
  - subst rtail. rewrite app_nil_r in Hevs. subst pre.
    destruct S as (din & dout & tail & Din & Dout & St & X).
    exists (evs ++ din ++ dout
            ++ SysExecvp (nth 0 (args c) None) (argv_of (args c)) :: tail).
    rewrite St, Hs. split; [reflexivity |].
    rewrite !forallb_app, Fpre.
    rewrite (no_signal_default _ devnull_in _ (fun _ => eq_refl) Din).
    rewrite (no_signal_default _ devnull_out _ (fun _ => eq_refl) Dout).
    destruct X as [(-> & _) | [(-> & _) | (-> & _)]]; reflexivity.
Qed.

Section ChildEnds.

Variable open_ret : nat -> option string -> Z -> Z.
Variable exec_ok : string -> list string -> bool.

(** The stages of a child up to [execvp]: it died at an [open], after
    quiet calls only, or it stands before the last stage with the operator
    cells cleared and only quiet calls behind it. *)
Lemma run_child_reaches toks junk bg :
  (exists c',
     run_child open_ret exec_ok (args_then toks junk) bg
     = (inr (Exited EXIT_FAILURE), c')
     /\ exists q path flags mode,
          Forall (fun x => quiet_call x = true) q
          /\ trace c' = q ++ open_failure path flags mode)
  \/ (exists c3,
        Forall (fun x => quiet_call x = true) (trace c3)
        /\ args c3 = map cell toks ++ None :: junk
        /\ run_child open_ret exec_ok (args_then toks junk) bg
           = (a0 <- get_arg 0 ;;
              a' <- get_args ;;
              r <- execvp exec_ok a0 a' ;;
              (if r =? -1 then perror "smallsh" ;;; exit EXIT_FAILURE
               else ret tt) ;;;
              ret true) c3).
Proof.
  unfold run_child, child_branch.
  erewrite bind_inl by apply signals_stage.
  erewrite bind_inl by reflexivity.
  set (c1 := mkChild _ _ _ _ _).
  destruct (redirect_loop_resolution open_ret junk toks [] (List.length (args c1)) c1)
    as (evs & ok & R & P).
  { reflexivity. }
  { simpl. unfold args_then. rewrite length_app, length_map. simpl. lia. }
  change (List.length (@nil (option string))) with 0%nat in P.
  destruct (redirect_loop open_ret (List.length (args c1)) 0 c1) as [r2 c2] eqn:L.
  destruct P as [Ptr Pok]. simpl in Ptr.
  pose proof (resolution_calls _ _ _ R) as (pre & rtail & Hevs & Fpre & Htail).
  apply quiet_rebinding in Fpre.
  destruct ok.
  - destruct Pok as (-> & Pa & _). simpl in Pa.
    subst rtail. rewrite app_nil_r in Hevs. subst pre.
    assert (Q2 : Forall (fun x => quiet_call x = true) (trace c2)).
    { rewrite Ptr. apply Forall_app. split; [apply quiet_signals | exact Fpre]. }
    erewrite bind_inl by exact L.
    destruct bg.
    + pose proof (background_defaults_shape open_ret c2) as D.
      destruct (background_defaults open_ret c2) as [r3 c3] eqn:B.
      destruct D as (Da & din & dout & Dt & D).
      destruct D as [(-> & Din & Dout) | [(-> & _ & -> & ->) | (-> & _ & Din & ->)]].
      * erewrite bind_inl by exact B. right.
        exists c3. split; [| split; [congruence | reflexivity]].
        rewrite Dt. apply Forall_app. split; [exact Q2 |].
        apply Forall_app. split.
        { eapply quiet_default; [apply quiet_devnull_in | exact Din]. }
        { eapply quiet_default; [apply quiet_devnull_out | exact Dout]. }
      * erewrite bind_inr by exact B. left.
        exists c3. split; [reflexivity |].
        exists (trace c2), (Some "/dev/null"), O_RDONLY, None.
        split; [exact Q2 | rewrite Dt, app_nil_r; reflexivity].
      * erewrite bind_inr by exact B. left.
        exists c3. split; [reflexivity |].
        exists (trace c2 ++ din), (Some "/dev/null"), O_WRONLY, None. split.
        { apply Forall_app. split; [exact Q2 |].
          eapply quiet_default; [apply quiet_devnull_in | exact Din]. }
        { rewrite Dt, <- app_assoc. reflexivity. }
    + erewrite bind_inl by reflexivity. right.
      exists c2. split; [exact Q2 |]. split; [exact Pa | reflexivity].
  - subst r2. erewrite bind_inr by exact L. left.
    exists c2. split; [reflexivity |].
    destruct Htail as (path & flags & mode & ->).
    exists (signals bg ++ pre), path, flags, mode. split.
    + apply Forall_app. split; [apply quiet_signals | exact Fpre].
    + rewrite Ptr, Hevs, <- app_assoc. reflexivity.
Qed.

Lemma first_cell_after_loop toks junk :
  nth 0 (map cell toks ++ None :: junk) None
  = hd_error (firstn (words_before_op toks) toks).
Proof.
  destruct toks as [| t rest]; [reflexivity |].
  simpl. unfold cell. destruct (is_op t); reflexivity.
Qed.

(** X11. A child never comes back into the loop of the shell. Either it
    dies at a failed [open], before any [execvp], or its last stage is
    [execvp] on the tokens before the first operator: with no such token
    it hands NULL to [execvp]; otherwise the program is the first token,
    which is also the first argument, and the child becomes that program
    exactly when [execvp] succeeds, and reports and exits with
    [EXIT_FAILURE] when it fails. It has no other exit code. *)
Theorem child_ends_at_failed_open_or_execvp toks junk bg :
  match run_child open_ret exec_ok (args_then toks junk) bg with
  | (r, c) =>
      let argv := firstn (words_before_op toks) toks in
      (r = inr (Exited EXIT_FAILURE)
       /\ (forall file a, ~ In (SysExecvp file a) (trace c))
       /\ exists q path flags mode,
            Forall (fun x => quiet_call x = true) q
            /\ trace c = q ++ open_failure path flags mode)
      \/ exists pre,
           Forall (fun x => quiet_call x = true) pre
           /\ match hd_error argv with
              | None =>
                  r = inr Faulted /\ trace c = pre ++ [SysExecvp None argv]
              | Some f =>
                  if exec_ok f argv
                  then r = inr (Executed f argv)
                       /\ trace c = pre ++ [SysExecvp (Some f) argv]
                  else r = inr (Exited EXIT_FAILURE)
                       /\ trace c = pre ++ SysExecvp (Some f) argv :: exec_failure
              end
  end.
Proof.
  destruct (run_child_reaches toks junk bg)
    as [(c' & -> & q & p0 & fl0 & m0 & Fq & Htr) | (c3 & Q3 & Pa & ->)].
  - cbv beta iota zeta. left. split; [reflexivity |]. split.
    + intros file a. rewrite Htr. apply no_execvp_before_failure. exact Fq.
    + exists q, p0, fl0, m0. auto.
  - unfold bind, get_arg, get_args, execvp, log, perror, exit, ret, stop, bind.
    simpl. rewrite Pa, argv_cells, first_cell_after_loop.
    destruct (hd_error (firstn (words_before_op toks) toks)) as [f |]; simpl.
    + destruct (exec_ok f (firstn (words_before_op toks) toks)); simpl;
        right; exists (trace c3); (split; [exact Q3 |]).
      * split; reflexivity.
      * split; [reflexivity |]. rewrite <- !app_assoc. reflexivity.
    + right. exists (trace c3). split; [exact Q3 |]. split; reflexivity.
Qed.

End ChildEnds.

(** ** The child and the answers of the kernel *)

Section ChildKernel.

Variable open_ret : nat -> option string -> Z -> Z.
Variable exec_ok : string -> list string -> bool.

Lemma keeps_ret {A} (a : A) : keeps_kernel open_ret (ret a).
Proof. intros c H. exact H. Qed.

Lemma keeps_stop {A} (e : child_end) : keeps_kernel open_ret (@stop A e).
Proof. intros c H. exact H. Qed.

Lemma keeps_bind {A B} (m : M A) (k : A -> M B) :
  keeps_kernel open_ret m -> (forall a, keeps_kernel open_ret (k a)) ->
  keeps_kernel open_ret (bind m k).
Proof.
  intros Hm Hk c H. unfold bind. specialize (Hm c H).
  destruct (m c) as [[a | e] c1]; simpl in *; [apply Hk; exact Hm | exact Hm].
Qed.

Lemma keeps_log x : from_kernel open_ret x -> keeps_kernel open_ret (log x).
Proof.
  intros Hx c H. simpl. apply Forall_app. split; [exact H |].
  constructor; [exact Hx | constructor].
Qed.

Lemma keeps_same {A} (m : M A) :
  (forall c, trace (snd (m c)) = trace c) -> keeps_kernel open_ret m.
Proof. intros E c H. rewrite E. exact H. Qed.

Lemma keeps_open path flags mode :
  keeps_kernel open_ret (open open_ret path flags mode).
Proof.
  unfold open. apply keeps_bind; [apply keeps_same; reflexivity |]. intro n.
  apply keeps_bind; [| intros _; apply keeps_ret].
  apply keeps_log. exists n. reflexivity.
Qed.

Ltac keeps_step :=
  first
    [ apply keeps_ret
    | apply keeps_stop
    | apply keeps_open
    | apply keeps_log; exact I
    | apply keeps_same; reflexivity
    | apply keeps_bind; [| intro]
    | match goal with
      | |- keeps_kernel _ (if ?b then _ else _) => destruct b
      | |- keeps_kernel _ (match ?x with _ => _ end) => destruct x
      end ].

Lemma keeps_redirect_body i tok :
  keeps_kernel open_ret (redirect_body open_ret i tok).
Proof.
  unfold redirect_body, perror, exit, dup2, close. repeat keeps_step.
Qed.

Lemma keeps_redirect_loop fuel : forall i,
  keeps_kernel open_ret (redirect_loop open_ret fuel i).
Proof.
  induction fuel as [| fuel IH]; intro i; simpl; [apply keeps_ret |].
  apply keeps_bind; [apply keeps_same; reflexivity |]. intros [tok |].
  - apply keeps_bind; [apply keeps_redirect_body | intros _; apply IH].
  - apply keeps_ret.
Qed.

Lemma keeps_child_branch bg : keeps_kernel open_ret (child_branch open_ret exec_ok bg).
Proof.
  unfold child_branch, background_defaults, signal, execvp, perror, exit, dup2,
    close.
  apply keeps_bind; [destruct bg; repeat keeps_step |]. intros _.
  apply keeps_bind; [apply keeps_same; reflexivity |]. intro a.
  apply keeps_bind; [apply keeps_redirect_loop |]. intro done.
  repeat keeps_step.
Qed.

(** Every [open] of a child's trace carries an answer of the kernel. *)
Lemma run_child_from_kernel a bg :
  Forall (from_kernel open_ret) (trace (snd (run_child open_ret exec_ok a bg))).
Proof. apply keeps_child_branch. constructor. Qed.

Lemma last_cons_nonempty {A} (t u : A) (rest : list A) (d : A) :
  last (t :: u :: rest) d = last (u :: rest) d.
Proof. reflexivity. Qed.

(** A resolution that reached the end of tokens ending with an operator
    opened NULL, and got a descriptor. *)
Lemma resolution_dangling toks evs ok :
  resolution toks evs ok -> ok = true ->
  is_op (last toks EmptyString) = true ->
  exists flags mode fd, fd <> -1 /\ In (SysOpen None flags mode fd) evs.
Proof.
  induction 1 as [| t rest evs ok Hw _ IH
                  | rest fd evs ok Hfd _ IH | rest
                  | rest fd evs ok Hfd _ IH | rest];
    intros Hok Hlast; try discriminate.
  - destruct rest as [| u rest']; [simpl in Hlast; congruence |].
    rewrite last_cons_nonempty in Hlast. apply IH; assumption.
  - destruct rest as [| u rest'].
    + exists O_RDONLY, None, fd. split; [exact Hfd | left; reflexivity].
    + rewrite last_cons_nonempty in Hlast.
      destruct (IH Hok Hlast) as (fl & md & fd' & N & I).
      exists fl, md, fd'. split; [exact N |]. apply in_or_app. right. exact I.
  - destruct rest as [| u rest'].
    + exists O_OUTPUT, (Some MODE_0644), fd. split; [exact Hfd | left; reflexivity].
    + rewrite last_cons_nonempty in Hlast.
      destruct (IH Hok Hlast) as (fl & md & fd' & N & I).
      exists fl, md, fd'. split; [exact N |]. apply in_or_app. right. exact I.
Qed.

(** X12. Whether a child gets to [execvp] is decided by the kernel's
    answers to [open] alone. If the kernel fails no [open], every child
    reaches [execvp]. If the kernel refuses a NULL path, a command line
    whose last token is [<] or [>] (the operator has no path after it, so
    the child opens the NULL that closes the array) never reaches
    [execvp]: the child reports and exits with [EXIT_FAILURE]. *)
Theorem opens_decide_whether_child_reaches_execvp toks junk bg :
  ((forall n path flags, open_ret n path flags <> -1) ->
   exists file argv,
     In (SysExecvp file argv)
        (trace (snd (run_child open_ret exec_ok (args_then toks junk) bg))))
  /\ ((forall n flags, open_ret n None flags = -1) ->
      is_op (last toks EmptyString) = true ->
      fst (run_child open_ret exec_ok (args_then toks junk) bg)
      = inr (Exited EXIT_FAILURE)
      /\ forall file argv,
           ~ In (SysExecvp file argv)
                (trace (snd (run_child open_ret exec_ok (args_then toks junk) bg)))).
Proof.
  pose proof (run_child_from_kernel (args_then toks junk) bg) as K.
  destruct (run_child open_ret exec_ok (args_then toks junk) bg) as [r c] eqn:Hrun.
  simpl fst. simpl snd in *.
  destruct (run_child_ends open_ret exec_ok toks junk bg r c Hrun)
    as [(-> & q & p0 & fl0 & m0 & Fq & Htr)
       | (evs & din & dout & tail & R & Din & Dout & Htr & Fq & X)].
  - split.
    + intro Hall. exfalso. rewrite Htr in K.
      apply Forall_app in K. destruct K as [_ K].
      inversion K as [| x l Hk _]; subst. destruct Hk as (n & Hn).
      exact (Hall n p0 fl0 (eq_sym Hn)).
    + intros _ _. split; [reflexivity |].
      intros file argv. rewrite Htr. apply no_execvp_before_failure. exact Fq.
  - split.
    + intros _. eexists. eexists. rewrite Htr. apply in_or_app. right. left.
      reflexivity.
    + intros Hnull Hlast. exfalso.
      destruct (resolution_dangling _ _ _ R eq_refl Hlast) as (fl & md & fd & N & I).
      rewrite Htr in K. rewrite Forall_forall in K.
      assert (I' : In (SysOpen None fl md fd)
                      ((signals bg ++ evs ++ din ++ dout)
                       ++ SysExecvp (hd_error (firstn (words_before_op toks) toks))
                            (firstn (words_before_op toks) toks) :: tail)).
      { apply in_or_app. left. apply in_or_app. right. apply in_or_app. left. exact I. }
      destruct (K _ I') as (n & Hn). rewrite Hnull in Hn. contradiction.
Qed.

End ChildKernel.

Lemma opens_decide_whether_child_reaches_execvp_witness :
  (exists file argv,
     In (SysExecvp file argv)
        (trace (snd (run_child open_always exec_always
                       (args_of ["wc"; "<"; "in"]) false))))
  /\ fst (run_child open_rejects_null exec_always (args_of ["cat"; "<"]) false)
     = inr (Exited EXIT_FAILURE).
Proof.
  split.
  - apply (opens_decide_whether_child_reaches_execvp open_always exec_always
             ["wc"; "<"; "in"] [] false).
    intros n path flags. discriminate.
  - apply (opens_decide_whether_child_reaches_execvp open_rejects_null exec_always
             ["cat"; "<"] [] false); reflexivity.
Defined.

(** ** The descriptors a program starts with *)

Lemma fds_after_signals bg t : fds_after (signals bg) t = t.
Proof. destruct bg; reflexivity. Qed.

Lemma fds_after_rebinding path flags mode fd target t :
  fd <> -1 ->
  forall k,
    fds_after [SysOpen path flags mode fd; SysDup2 fd target; SysClose fd] t k
    = if k =? fd then None
      else if k =? target then Some (path, flags)
      else t k.
Proof.
  intros N k. unfold fds_after. simpl.
  destruct (Z.eqb_spec fd (-1)); [contradiction |].
  unfold fd_set. rewrite !Z.eqb_refl. cbv beta iota.
  destruct (k =? fd); [reflexivity |].
  destruct (k =? target); reflexivity.
Qed.

Lemma above_std_fd path flags mode fd :
  fd <> -1 -> above_std (SysOpen path flags mode fd) = true -> 2 < fd.
Proof.
  simpl. intros N H. apply orb_true_iff in H.
  destruct H as [H | H]; [apply Z.eqb_eq in H; contradiction |].
  apply Z.ltb_lt. exact H.
Qed.

Lemma last_redirect_cons op t rest :
  last_redirect op (t :: rest)
  = match last_redirect op rest with
    | Some path => Some path
    | None => if streq t op then Some (hd_error rest) else None
    end.
Proof. reflexivity. Qed.

Lemma last_redirect_mentions op toks :
  last_redirect op toks = None <-> mentions op toks = false.
Proof.
  unfold mentions. induction toks as [| t rest IH]; [split; reflexivity |].
  rewrite last_redirect_cons. simpl existsb. unfold streq in *.
  rewrite (String.eqb_sym op t).
  destruct (last_redirect op rest) as [p |].
  - split; [discriminate |]. intro H. apply orb_false_iff in H.
    destruct H as [_ H]. apply IH in H. discriminate.
  - destruct (String.eqb t op); simpl.
    + split; discriminate.
    + apply IH.
Qed.

(** The streams after the explicit redirections: the path after the last
    operator of each kind, or what they were. *)
Lemma resolution_streams toks evs ok :
  resolution toks evs ok -> ok = true ->
  Forall (fun x => above_std x = true) evs ->
  forall t,
    fds_after evs t STDIN_FILENO
    = match last_redirect "<" toks with
      | Some path => Some (path, O_RDONLY)
      | None => t STDIN_FILENO
      end
    /\ fds_after evs t STDOUT_FILENO
       = match last_redirect ">" toks with
         | Some path => Some (path, O_OUTPUT)
         | None => t STDOUT_FILENO
         end.
Proof.
  induction 1 as [| u rest evs ok Hw _ IH
                  | rest fd evs ok Hfd _ IH | rest
                  | rest fd evs ok Hfd _ IH | rest];
    intros Hok Hstd t; try discriminate.
  - split; reflexivity.
  - rewrite !last_redirect_cons.
    unfold is_op in Hw. apply orb_false_iff in Hw. destruct Hw as [-> ->].
    destruct (IH Hok Hstd t) as [I0 I1]. rewrite I0, I1.
    split; [destruct (last_redirect "<" rest) | destruct (last_redirect ">" rest)];
      reflexivity.
  - apply Forall_app in Hstd. destruct Hstd as [Hhd Hstd].
    inversion Hhd as [| x l Ho _]; subst.
    pose proof (above_std_fd _ _ _ _ Hfd Ho) as A.
    rewrite fds_after_app, !last_redirect_cons.
    destruct (IH eq_refl Hstd (fds_after (redirect_in (hd_error rest) fd) t)) as [I0 I1].
    rewrite I0, I1. unfold redirect_in. rewrite !fds_after_rebinding by exact Hfd.
    unfold STDIN_FILENO, STDOUT_FILENO.
    destruct (Z.eqb_spec 0 fd); [lia |]. destruct (Z.eqb_spec 1 fd); [lia |].
    split; [destruct (last_redirect "<" rest) | destruct (last_redirect ">" rest)];
      reflexivity.
  - apply Forall_app in Hstd. destruct Hstd as [Hhd Hstd].
    inversion Hhd as [| x l Ho _]; subst.
    pose proof (above_std_fd _ _ _ _ Hfd Ho) as A.
    rewrite fds_after_app, !last_redirect_cons.
    destruct (IH eq_refl Hstd (fds_after (redirect_out (hd_error rest) fd) t)) as [I0 I1].
    rewrite I0, I1. unfold redirect_out. rewrite !fds_after_rebinding by exact Hfd.
    unfold STDIN_FILENO, STDOUT_FILENO.
    destruct (Z.eqb_spec 0 fd); [lia |]. destruct (Z.eqb_spec 1 fd); [lia |].
    split; [destruct (last_redirect "<" rest) | destruct (last_redirect ">" rest)];
      reflexivity.
Qed.

Lemma default_in_streams need din t :
  default_part need devnull_in din ->
  Forall (fun x => above_std x = true) din ->
  fds_after din t STDIN_FILENO
  = (if need then Some (Some "/dev/null", O_RDONLY) else t STDIN_FILENO)
  /\ fds_after din t STDOUT_FILENO = t STDOUT_FILENO.
Proof.
  unfold default_part. destruct need.
  - intros (fd & N & ->) F. inversion F as [| x l Ho _]; subst.
    pose proof (above_std_fd _ _ _ _ N Ho) as A.
    unfold devnull_in. rewrite !fds_after_rebinding by exact N.
    unfold STDIN_FILENO, STDOUT_FILENO.
    destruct (Z.eqb_spec 0 fd); [lia |]. destruct (Z.eqb_spec 1 fd); [lia |].
    split; reflexivity.
  - intros -> _. split; reflexivity.
Qed.

Lemma default_out_streams need dout t :
  default_part need devnull_out dout ->
  Forall (fun x => above_std x = true) dout ->
  fds_after dout t STDOUT_FILENO
  = (if need then Some (Some "/dev/null", O_WRONLY) else t STDOUT_FILENO)
  /\ fds_after dout t STDIN_FILENO = t STDIN_FILENO.
Proof.
  unfold default_part. destruct need.
  - intros (fd & N & ->) F. inversion F as [| x l Ho _]; subst.
    pose proof (above_std_fd _ _ _ _ N Ho) as A.
    unfold devnull_out. rewrite !fds_after_rebinding by exact N.
    unfold STDIN_FILENO, STDOUT_FILENO.
    destruct (Z.eqb_spec 0 fd); [lia |]. destruct (Z.eqb_spec 1 fd); [lia |].
    split; reflexivity.
  - intros -> _. split; reflexivity.
Qed.

(** X13. What the program finds on its standard streams. For a child that
    gets to [execvp], in a process where [open] gives descriptors above 2:
    standard input is the path after the last [<] of the line, opened
    read-only (so of several input redirections the last one wins); with
    no [<] it is [/dev/null] for a background child and what the shell had
    for a foreground child. Standard output is the same with [>], opened
    write-only with create and truncate, and [/dev/null] write-only. *)
Theorem child_streams_at_execvp
    (open_ret : nat -> option string -> Z -> Z)
    (exec_ok : string -> list string -> bool)
    (toks : list string) (junk : list (option string)) (bg : bool)
    (r : bool + child_end) (c : child) :
  run_child open_ret exec_ok (args_then toks junk) bg = (r, c) ->
  (exists file argv, In (SysExecvp file argv) (trace c)) ->
  Forall (fun x => above_std x = true) (trace c) ->
  forall t0,
    fds_after (trace c) t0 STDIN_FILENO
    = match last_redirect "<" toks with
      | Some path => Some (path, O_RDONLY)
      | None => if bg then Some (Some "/dev/null", O_RDONLY)
                else t0 STDIN_FILENO
      end
    /\ fds_after (trace c) t0 STDOUT_FILENO
       = match last_redirect ">" toks with
         | Some path => Some (path, O_OUTPUT)
         | None => if bg then Some (Some "/dev/null", O_WRONLY)
                   else t0 STDOUT_FILENO
         end.
Proof.
  intros Hrun (file & argv & Hex) Hstd t0. apply run_child_ends in Hrun.
  destruct Hrun as [(-> & q & p0 & fl0 & m0 & Fq & Htr)
                   | (evs & din & dout & tail & R & Din & Dout & Htr & Fq & X)].
  { exfalso. rewrite Htr in Hex.
    exact (no_execvp_before_failure _ _ _ _ _ _ Fq Hex). }
  assert (T : tail = [] \/ tail = exec_failure)
    by (destruct X as [(-> & _) | [(-> & _) | (-> & _)]]; auto).
  rewrite Htr in Hstd |- *.
  apply Forall_app in Hstd. destruct Hstd as [Hstd _].
  apply Forall_app in Hstd. destruct Hstd as [_ Hstd].
  apply Forall_app in Hstd. destruct Hstd as [Sevs Hstd].
  apply Forall_app in Hstd. destruct Hstd as [Sin Sout].
  rewrite !fds_after_app, (fds_after_execvp _ _ _ _ T), fds_after_signals.
  destruct (resolution_streams _ _ _ R eq_refl Sevs t0) as [E0 E1].
  destruct (default_in_streams _ _ (fds_after evs t0) Din Sin) as [I0 I1].
  destruct (default_out_streams _ _ (fds_after din (fds_after evs t0)) Dout Sout)
    as [O1 O0].
  rewrite O0, O1, I0, I1, E0, E1.
  split.
  - destruct (last_redirect "<" toks) as [p |] eqn:L.
    + assert (M : mentions "<" toks = true).
      { destruct (mentions "<" toks) eqn:M; [reflexivity |].
        apply last_redirect_mentions in M. congruence. }
      rewrite M, andb_false_r. reflexivity.
    + apply last_redirect_mentions in L. rewrite L, andb_true_r. reflexivity.
  - destruct (last_redirect ">" toks) as [p |] eqn:L.
    + assert (M : mentions ">" toks = true).
      { destruct (mentions ">" toks) eqn:M; [reflexivity |].
        apply last_redirect_mentions in M. congruence. }
      rewrite M, andb_false_r. reflexivity.
    + apply last_redirect_mentions in L. rewrite L, andb_true_r. reflexivity.
Qed.

Lemma child_streams_at_execvp_witness :
  exists r c,
    run_child open_always exec_always
              (args_of ["sort"; "<"; "a"; "<"; "b"]) false = (r, c)
    /\ fds_after (trace c) (fun _ => Some (Some "/dev/tty", 2)) STDIN_FILENO
       = Some (Some "b", O_RDONLY)
    /\ fds_after (trace c) (fun _ => Some (Some "/dev/tty", 2)) STDOUT_FILENO
       = Some (Some "/dev/tty", 2).
Proof.
  destruct (run_child open_always exec_always
              (args_of ["sort"; "<"; "a"; "<"; "b"]) false) as [r c] eqn:E.
  exists r, c. split; [reflexivity |].
  apply (child_streams_at_execvp open_always exec_always
           ["sort"; "<"; "a"; "<"; "b"] [] false r c E).
  - vm_compute in E. inversion E. eexists. eexists. simpl. do 8 right. left.
    reflexivity.
  - vm_compute in E. inversion E. repeat constructor.
Defined.

Lemma rebinding_no_leak path flags mode fd target t k :
  fd <> -1 -> k <> target -> t k = None ->
  fds_after [SysOpen path flags mode fd; SysDup2 fd target; SysClose fd] t k
  = None.
Proof.
  intros N Hk Ht. rewrite fds_after_rebinding by exact N.
  destruct (k =? fd); [reflexivity |].
  destruct (Z.eqb_spec k target); [contradiction | exact Ht].
Qed.

Lemma resolution_no_leak toks evs ok :
  resolution toks evs ok -> ok = true ->
  forall t k, k <> STDIN_FILENO -> k <> STDOUT_FILENO -> t k = None ->
              fds_after evs t k = None.
Proof.
  induction 1 as [| u rest evs ok Hw _ IH
                  | rest fd evs ok Hfd _ IH | rest
                  | rest fd evs ok Hfd _ IH | rest];
    intros Hok t k K0 K1 Ht; try discriminate.
  - exact Ht.
  - apply IH; assumption.
  - rewrite fds_after_app. apply IH; try assumption.
    apply rebinding_no_leak; assumption.
  - rewrite fds_after_app. apply IH; try assumption.
    apply rebinding_no_leak; assumption.
Qed.

Lemma default_no_leak need mk evs flags target :
  (forall fd, mk fd = [SysOpen (Some "/dev/null") flags None fd;
                       SysDup2 fd target; SysClose fd]) ->
  default_part need mk evs ->
  forall t k, k <> target -> t k = None -> fds_after evs t k = None.
Proof.
  unfold default_part. intros Hmk. destruct need.
  - intros (fd & N & ->) t k Hk Ht. rewrite Hmk.
    apply rebinding_no_leak; assumption.
  - intros -> t k _ Ht. exact Ht.
Qed.

(** X14. No descriptor leaks into the program: for a child that gets to
    [execvp], every descriptor other than 0 and 1 that was closed when the
    child began is closed again at [execvp], because each descriptor the
    child opens for a redirection is closed right after it is duplicated
    onto a standard stream. *)
Theorem child_leaks_no_descriptor
    (open_ret : nat -> option string -> Z -> Z)
    (exec_ok : string -> list string -> bool)
    (toks : list string) (junk : list (option string)) (bg : bool)
    (r : bool + child_end) (c : child) :
  run_child open_ret exec_ok (args_then toks junk) bg = (r, c) ->
  (exists file argv, In (SysExecvp file argv) (trace c)) ->
  forall t0 k,
    k <> STDIN_FILENO -> k <> STDOUT_FILENO -> t0 k = None ->
    fds_after (trace c) t0 k = None.
Proof.
  intros Hrun (file & argv & Hex) t0 k K0 K1 Ht. apply run_child_ends in Hrun.
  destruct Hrun as [(-> & q & p0 & fl0 & m0 & Fq & Htr)
                   | (evs & din & dout & tail & R & Din & Dout & Htr & Fq & X)].
  { exfalso. rewrite Htr in Hex.
    exact (no_execvp_before_failure _ _ _ _ _ _ Fq Hex). }
  assert (T : tail = [] \/ tail = exec_failure)
    by (destruct X as [(-> & _) | [(-> & _) | (-> & _)]]; auto).
  rewrite Htr, !fds_after_app, (fds_after_execvp _ _ _ _ T), fds_after_signals.
  eapply (default_no_leak _ devnull_out); [reflexivity | exact Dout | exact K1 |].
  eapply (default_no_leak _ devnull_in); [reflexivity | exact Din | exact K0 |].
  eapply resolution_no_leak; eauto.
Qed.

Lemma child_leaks_no_descriptor_witness :
  exists r c,
    run_child open_always exec_always
              (args_then ["sort"; "<"; "a"; ">"; "b"] [None]) true = (r, c)
    /\ fds_after (trace c)
                 (fun k => if k <? 3 then Some (Some "/dev/tty", 2) else None) 3
       = None.
Proof.
  destruct (run_child open_always exec_always
              (args_then ["sort"; "<"; "a"; ">"; "b"] [None]) true)
    as [r c] eqn:E.
  exists r, c. split; [reflexivity |].
  apply (child_leaks_no_descriptor open_always exec_always
           ["sort"; "<"; "a"; ">"; "b"] [None] true r c E);
    try (unfold STDIN_FILENO, STDOUT_FILENO; lia); try reflexivity.
  vm_compute in E. inversion E. eexists. eexists. simpl. do 8 right. left.
  reflexivity.
Defined.

(** ** The reaping loop and the prompt *)

Lemma reap_reports finished : forall s,
  Forall (fun p => terminal (snd p) = true) finished ->
  reap finished s
  = mkShell (last_status s) (is_foreground_only s)
            (out s ++ flat_map report finished).
Proof.
  induction finished as [| [pid st] rest IH]; intros s H.
  - simpl. rewrite app_nil_r. destruct s; reflexivity.
  - inversion H as [| x l Ht Hrest]; subst. simpl in Ht.
    simpl reap. unfold terminal in Ht.
    match goal with
    | |- reap rest ?s1 = _ =>
        replace s1 with
          (emit (EvPrintf (status_text st))
             (emit (EvPrintf ("Background pid " +++ fmt_d pid +++ " is done: ")) s))
    end.
    + rewrite (IH _ Hrest). simpl. rewrite <- !app_assoc. reflexivity.
    + unfold status_text. destruct (WIFEXITED st); [reflexivity |].
      simpl in Ht. rewrite Ht. reflexivity.
Qed.

Lemma main_iteration_extends_prompt e s :
  exists evs,
    out (outcome_shell (main_iteration e s)) = out (at_prompt e s) ++ evs.
Proof.
  destruct (line_tokens e) as [toks |] eqn:Ht.
  - rewrite (main_iteration_on_tokens _ _ _ Ht).
    destruct (List.length toks <? MAX_ARGS)%nat;
      [| exists []; rewrite app_nil_r; reflexivity].
    destruct (background_marker (args_of toks) (List.length toks)) as [[bg a] n].
    unfold executeBuiltInCommand, exitShell.
    destruct (nth 0 a None) as [a0 |]; [| exists []; rewrite app_nil_r; reflexivity].
    destruct (streq a0 "exit"); [exists []; rewrite app_nil_r; reflexivity |].
    destruct (streq a0 "cd").
    { simpl. destruct (changeDirectory_out e (nth 1 a None) (at_prompt e s))
        as (evs & O & _). exists evs. exact O. }
    destruct (streq a0 "status").
    { simpl. destruct (printStatus_frame (at_prompt e s)) as (_ & _ & O).
      eexists. exact O. }
    simpl. destruct (executeCommand_forks e a bg (at_prompt e s)) as [evs O].
    eexists. exact O.
  - unfold line_tokens in Ht. unfold main_iteration, at_prompt.
    destruct (fgets_ret e) as [raw |].
    + cbv zeta in Ht |- *.
      destruct (blank_or_comment (chomp raw));
        [exists []; rewrite app_nil_r; reflexivity |].
      destruct (expandPID (getpid e) (chomp raw)); [discriminate | |];
        exists []; rewrite app_nil_r; reflexivity.
    + eexists. reflexivity.
Qed.

(** X15. At the top of every turn the shell reports the background
    children it reaped, in the order reaped, each with its pid and with the
    very wording the [status] built-in uses for a status, then prints and
    flushes the prompt; whatever the turn writes next comes after it. The
    reaping changes neither [last_status] nor the mode. *)
Theorem reports_come_before_the_prompt (e : env) (s : shell) :
  Forall (fun p => terminal (snd p) = true) (reaped e) ->
  at_prompt e s
  = mkShell (last_status s) (is_foreground_only s)
            (out s ++ flat_map report (reaped e) ++ [EvPrintf ": "; EvFflush])
  /\ exists evs,
       out (outcome_shell (main_iteration e s))
       = out s ++ flat_map report (reaped e) ++ [EvPrintf ": "; EvFflush] ++ evs.
Proof.
  intro H.
  assert (E : at_prompt e s
              = mkShell (last_status s) (is_foreground_only s)
                  (out s ++ flat_map report (reaped e) ++ [EvPrintf ": "; EvFflush])).
  { unfold at_prompt, prompt. rewrite (reap_reports _ _ H). unfold emit. simpl.
    rewrite <- !app_assoc. reflexivity. }
  split; [exact E |].
  destruct (main_iteration_extends_prompt e s) as [evs O].
  exists evs. rewrite O, E. simpl. rewrite <- !app_assoc. reflexivity.
Qed.

Lemma reports_come_before_the_prompt_witness :
  at_prompt (env_reaping "ls") (mkShell 9 true [])
  = mkShell 9 true
      [EvPrintf "Background pid 4570 is done: ";
       EvPrintf ("exit value 3" +++ nl);
       EvPrintf "Background pid 4571 is done: ";
       EvPrintf ("terminated by signal 15" +++ nl);
       EvPrintf ": "; EvFflush].
Proof.
  destruct (reports_come_before_the_prompt (env_reaping "ls") (mkShell 9 true []))
    as [H _].
  - repeat constructor.
  - rewrite H. reflexivity.
Defined.

(** ** What [status] prints for a child's way of ending *)

Lemma Z_below_256 (P : Z -> bool) :
  forallb (fun m => P (Z.of_nat m)) (seq 0 256) = true ->
  forall n, 0 <= n <= 255 -> P n = true.
Proof.
  intros H n Hn. rewrite forallb_forall in H.
  rewrite <- (Z2Nat.id n) by lia. apply H. apply in_seq. lia.
Qed.

Lemma exit_code_decoded n :
  0 <= n <= 255 ->
  WIFEXITED (W_EXITCODE n 0) = true /\ WEXITSTATUS (W_EXITCODE n 0) = n.
Proof.
  intro Hn.
  pose proof (Z_below_256
                (fun n => WIFEXITED (W_EXITCODE n 0)
                          && (WEXITSTATUS (W_EXITCODE n 0) =? n))
                ltac:(vm_compute; reflexivity) n Hn) as H.
  apply andb_true_iff in H. destruct H as [H1 H2].
  apply Z.eqb_eq in H2. auto.
Qed.

Lemma signal_decoded sig core :
  1 <= sig <= 126 -> core = 0 \/ core = 128 ->
  WIFEXITED (sig + core) = false
  /\ WIFSIGNALED (sig + core) = true
  /\ WTERMSIG (sig + core) = sig.
Proof.
  intros Hs Hc.
  pose proof (Z_below_256
                (fun n =>
                   negb ((1 <=? n) && (n <=? 126))
                   || (forallb (fun c => negb (WIFEXITED (n + c))
                                         && WIFSIGNALED (n + c)
                                         && (WTERMSIG (n + c) =? n))
                               [0; 128]))
                ltac:(vm_compute; reflexivity) sig ltac:(lia)) as H.
  cbv beta in H.
  destruct (Z.leb_spec 1 sig) as [_ | ?]; [| lia].
  destruct (Z.leb_spec sig 126) as [_ | ?]; [| lia].
  simpl negb in H. simpl orb in H. simpl forallb in H.
  rewrite andb_true_r in H. apply andb_true_iff in H. destruct H as [K0 K128].
  assert (K : negb (WIFEXITED (sig + core)) && WIFSIGNALED (sig + core)
              && (WTERMSIG (sig + core) =? sig) = true)
    by (destruct Hc as [-> | ->]; assumption).
  apply andb_true_iff in K. destruct K as [K K3].
  apply andb_true_iff in K. destruct K as [K1 K2].
  apply negb_true_iff in K1. apply Z.eqb_eq in K3. auto.
Qed.

(** X16. [status] prints what the child did. After a foreground child that
    exited with code [n] (0 to 255) the built-in prints [exit value n];
    after one killed by signal [sig] (1 to 126), with or without a core
    dump, it prints [terminated by signal sig]. *)
Theorem status_prints_exit_code_or_signal (s : shell) :
  (forall n, 0 <= n <= 255 ->
     printStatus (set_last_status (W_EXITCODE n 0) s)
     = emit (EvPrintf ("exit value " +++ fmt_d n +++ nl))
            (set_last_status (W_EXITCODE n 0) s))
  /\ (forall sig core, 1 <= sig <= 126 -> core = 0 \/ core = 128 ->
        printStatus (set_last_status (sig + core) s)
        = emit (EvPrintf ("terminated by signal " +++ fmt_d sig +++ nl))
               (set_last_status (sig + core) s)).
Proof.
  split.
  - intros n Hn. destruct (exit_code_decoded n Hn) as [E1 E2].
    unfold printStatus. simpl last_status. rewrite E1, E2. reflexivity.
  - intros sig core Hs Hc. destruct (signal_decoded sig core Hs Hc) as (E1 & _ & E3).
    unfold printStatus. simpl last_status. rewrite E1, E3. reflexivity.
Qed.

Lemma status_prints_exit_code_or_signal_witness :
  printStatus (set_last_status (W_EXITCODE 1 0) initial_shell)
  = mkShell 256 false [EvPrintf ("exit value 1" +++ nl)]
  /\ printStatus (set_last_status (9 + 128) initial_shell)
     = mkShell 137 false [EvPrintf ("terminated by signal 9" +++ nl)].
Proof.
  destruct (status_prints_exit_code_or_signal initial_shell) as [H1 H2].
  split.
  - rewrite (H1 1); [reflexivity | lia].
  - rewrite (H2 9 128); [reflexivity | lia | right; reflexivity].
Defined.

(** ** The mode flag over a run *)

Lemma handleSIGTSTP_mode s :
  is_foreground_only (handleSIGTSTP s) = negb (is_foreground_only s)
  /\ last_status (handleSIGTSTP s) = last_status s.
Proof.
  unfold handleSIGTSTP. simpl.
  destruct (negb (is_foreground_only s)); split; reflexivity.
Qed.

Lemma main_iteration_keeps_mode e s :
  is_foreground_only (outcome_shell (main_iteration e s)) = is_foreground_only s.
Proof.
  assert (E : set_mode (is_foreground_only s) s = s) by (destruct s; reflexivity).
  rewrite <- E at 1. rewrite main_iteration_ignores_mode.
  destruct (main_iteration e s); reflexivity.
Qed.

(** X17. The mode flag belongs to the terminal-stop handler: no turn of the
    loop and no interrupt changes it, so after any steps that stayed in the
    loop the shell is in foreground-only mode exactly when the number of
    terminal-stop signals delivered is odd (starting from normal mode). *)
Theorem mode_is_parity_of_terminal_stops (ls : list step_label) :
  forall s s',
    after ls s = Some s' ->
    is_foreground_only s'
    = xorb (is_foreground_only s) (Nat.odd (List.length (filter is_tstp ls))).
Proof.
  induction ls as [| l rest IH]; intros s s' H.
  - inversion H; subst. simpl. rewrite xorb_false_r. reflexivity.
  - simpl in H. destruct l as [e | |]; simpl step in H.
    + pose proof (main_iteration_keeps_mode e s) as K.
      destruct (main_iteration e s) as [s1 | | | |]; try discriminate.
      simpl in K. rewrite (IH _ _ H), K. reflexivity.
    + rewrite (IH _ _ H). reflexivity.
    + rewrite (IH _ _ H).
      destruct (handleSIGTSTP_mode s) as [-> _].
      simpl filter. simpl List.length. rewrite Nat.odd_succ, <- Nat.negb_odd.
      destruct (is_foreground_only s), (Nat.odd (List.length (filter is_tstp rest)));
        reflexivity.
Qed.

Lemma mode_is_parity_of_terminal_stops_witness :
  exists s',
    after [DeliverSIGTSTP; Turn (env_line "# nothing" 4568 []); DeliverSIGINT;
           DeliverSIGTSTP; DeliverSIGTSTP] initial_shell = Some s'
    /\ is_foreground_only s' = true.
Proof.
  eexists. split; [reflexivity |].
  apply (mode_is_parity_of_terminal_stops
           [DeliverSIGTSTP; Turn (env_line "# nothing" 4568 []); DeliverSIGINT;
            DeliverSIGTSTP; DeliverSIGTSTP] initial_shell).
  reflexivity.
Defined.

(** ** The argument of [cd] *)

Lemma marker_second_cell rest :
  nth 1 (snd (fst (background_marker (args_of ("cd" :: rest))
                                     (List.length ("cd" :: rest))))) None
  = cd_argument rest.
Proof.
  destruct (background_marker_cases ("cd" :: rest)) as [(init & E & ->) | (N & ->)].
  - simpl snd. destruct init as [| i0 init']; [discriminate |].
    inversion E; subst. unfold args_then. simpl.
    rewrite next_cell. destruct init' as [| p init'']; [reflexivity |].
    simpl. destruct init''; reflexivity.
  - simpl snd. unfold args_of, args_then. simpl. rewrite next_cell.
    destruct rest as [| x [| y rest']]; [reflexivity | | reflexivity].
    simpl in N |- *. destruct (streq x "&") eqn:Ex; [| reflexivity].
    apply String.eqb_eq in Ex. contradiction.
Qed.

(** X18. [cd] takes its directory from the second token only: what follows
    is ignored, and a closing [&] is not taken for a directory, so [cd &]
    goes to the home directory like [cd]. The turn then goes back to the
    prompt, whether the change of directory worked or not. *)
Theorem cd_uses_second_token_only (e : env) (s : shell) (rest : list string) :
  line_tokens e = Some ("cd" :: rest) ->
  (List.length ("cd" :: rest) < MAX_ARGS)%nat ->
  main_iteration e s
  = Continue (changeDirectory e (cd_argument rest) (at_prompt e s)).
Proof.
  intros Ht Hlen. rewrite (main_iteration_on_tokens _ _ _ Ht).
  apply Nat.ltb_lt in Hlen. rewrite Hlen.
  pose proof (marker_first_cell ("cd" :: rest) "cd" eq_refl ltac:(discriminate)) as H0.
  pose proof (marker_second_cell rest) as H1.
  destruct (background_marker (args_of ("cd" :: rest)) (List.length ("cd" :: rest)))
    as [[bg a] n].
  simpl in H0, H1. unfold executeBuiltInCommand. rewrite H0, H1. reflexivity.
Qed.

Lemma cd_uses_second_token_only_witness :
  main_iteration (env_line "cd &" 4568 []) initial_shell
  = Continue (mkShell 0 false
                [EvPrintf ": "; EvFflush; EvChdir (Some "/home/me") 0])
  /\ main_iteration (env_line "cd /tmp /var &" 4568 []) initial_shell
     = Continue (mkShell 0 false
                   [EvPrintf ": "; EvFflush; EvChdir (Some "/tmp") 0]).
Proof.
  split.
  - rewrite (cd_uses_second_token_only (env_line "cd &" 4568 []) initial_shell ["&"]);
      [reflexivity | reflexivity | vm_compute; lia].
  - rewrite (cd_uses_second_token_only (env_line "cd /tmp /var &" 4568 [])
               initial_shell ["/tmp"; "/var"; "&"]);
      [reflexivity | reflexivity | vm_compute; lia].
Defined.
